(** * Dashboard Comercial Andina: the data pipeline of [appBI.py]

    A shallow embedding of [load_data] (cleaning, enrichment, derived
    calendar fields) and of the data part of [main] (filter mask, KPIs and
    grouped summaries), with the properties of the pipeline proved on it.

    Conventions.
    - A [DataFrame] is the list of its rows, in index order; a row is a
      record whose nullable cells are [option]s ([None] is NaN / NaT).
    - A [Series] is the list of its cells; a boolean mask is a [list bool].
    - A computation that may end with an exception returns a [result].
    - The amount and quantity columns are integer columns (dtype int64,
      every cell a whole number): [sum] adds them in int64, with its
      wrap-around.  A column with a decimal or an empty cell is of dtype
      float64; [Float64] has the monthly series for such a column.
    - Customer and product identifiers are whole numbers; the two
      identifier columns the program casts are kept as [read_csv] gives
      them, so that the cast can fail.
    - A [Timestamp] is kept as its calendar fields and compared field by
      field, most significant first. *)

From Stdlib Require Import ZArith Lia Sorted Ascii.
From stdpp Require Import base option list sorting gmap strings.
From Stdlib Require DecimalString DecimalZ DecimalPos.
From Stdlib Require Import Floats.PrimFloat.

Local Open Scope Z_scope.

(* Decimal literals of floats stand for the nearest binary64 value. *)
Local Set Warnings "-inexact-float".

(** ** Timestamps *)

Record Timestamp := mkTimestamp {
  ts_year : Z;
  ts_month : Z;
  ts_day : Z;
  ts_nanos : Z  (* time of day *)
}.

Definition ts_compare (a b : Timestamp) : comparison :=
  match ts_year a ?= ts_year b with
  | Eq =>
      match ts_month a ?= ts_month b with
      | Eq =>
          match ts_day a ?= ts_day b with
          | Eq => ts_nanos a ?= ts_nanos b
          | c => c
          end
      | c => c
      end
  | c => c
  end.

Definition ts_leb (a b : Timestamp) : bool :=
  match ts_compare a b with Gt => false | _ => true end.

Definition ts_ltb (a b : Timestamp) : bool :=
  match ts_compare a b with Lt => true | _ => false end.

(** The calendar month of a timestamp, and the chronological order of
    months. *)
Definition month_of (t : Timestamp) : Z * Z := (ts_year t, ts_month t).

Definition month_compare (a b : Z * Z) : comparison :=
  match a.1 ?= b.1 with
  | Eq => a.2 ?= b.2
  | c => c
  end.

Definition month_lt (a b : Z * Z) : Prop := month_compare a b = Lt.

(** ** Exceptions *)

(** The exceptions the program can end with, and the outcome of a
    computation that may raise one. *)
Inductive exn := AttributeError | TypeError | ValueError.

Inductive result (A : Type) :=
  | Ok (a : A)
  | Raise (e : exn).
Arguments Ok {A} a.
Arguments Raise {A} e.

Global Instance result_ret : MRet result := @Ok.

Global Instance result_bind : MBind result :=
  λ A B f r, match r with Ok a => f a | Raise e => Raise e end.

(** ** The pandas operations the program uses *)

Module pd.

(** Two's complement: the int64 that has the low 64 bits of [z]. *)
Definition wrap64 (z : Z) : Z := (z + 2 ^ 63) `mod` 2 ^ 64 - 2 ^ 63.

(** A cell of an identifier column as [read_csv] gives it, when it is not
    empty: a whole number, or text that is not one (the column is then of
    dtype object). *)
Inductive id_cell :=
  | num (z : Z)
  | text (s : string).

Global Instance id_cell_eq_dec : EqDecision id_cell.
Proof. solve_decision. Defined.

(** A whole-number identifier as a cell of an identifier column. *)
Definition as_id (c : option Z) : option id_cell := num <$> c.

(** The dtype of a column of dates: [read_csv] parses the dates of a file
    that has rows, and leaves the columns of a file that has only its
    header line at dtype object. *)
Inductive dtype := datetime64 | object.

Definition read_dtype {A} (rows : list A) : dtype :=
  match rows with
  | [] => object
  | _ :: _ => datetime64
  end.

(** [s.dt]: the accessor of a datetime column. *)
Definition dt (d : dtype) : result unit :=
  match d with
  | datetime64 => Ok ()
  | object => Raise AttributeError
  end.

(** [df[mask]]: the rows whose mask cell is [True], in index order. *)
Fixpoint loc {A} (mask : list bool) (df : list A) : list A :=
  match mask, df with
  | b :: mask, r :: df => if b then r :: loc mask df else loc mask df
  | _, _ => []
  end.

(** [m1 & m2] on boolean series of one frame. *)
Definition mask_and (m1 m2 : list bool) : list bool := zip_with andb m1 m2.

(** [s.notna()] on one cell. *)
Definition notna {T} (c : option T) : bool :=
  match c with Some _ => true | None => false end.

(** [df.dropna(subset=...)]: [complete r] says that no cell of the subset
    is null in [r]. *)
Definition dropna {A} (complete : A → bool) (df : list A) : list A :=
  loc (complete <$> df) df.

Section duplicates.
Context {A K : Type} `{Countable K}.

(** [df.duplicated(subset=...)] with [keep="first"]: a row is marked when
    its key was seen in an earlier row.  Null keys are keys like any
    other here (two NaN are duplicates of each other). *)
Fixpoint duplicated_from (seen : gset K) (ks : list K) : list bool :=
  match ks with
  | [] => []
  | k :: ks => bool_decide (k ∈ seen) :: duplicated_from ({[k]} ∪ seen) ks
  end.

Definition duplicated (ks : list K) : list bool := duplicated_from ∅ ks.

(** [df.drop_duplicates(subset=...)] = [df[~df.duplicated(subset=...)]]. *)
Definition drop_duplicates (key : A → K) (df : list A) : list A :=
  loc (negb <$> duplicated (key <$> df)) df.
End duplicates.

(** [int] on one cell of an identifier column: a null cell and text that
    is not a number raise; a number outside the int64 range wraps around. *)
Definition int_cell (c : option id_cell) : result id_cell :=
  match c with
  | Some (num z) => Ok (num (wrap64 z))
  | Some (text _) => Raise ValueError
  | None => Raise ValueError
  end.

(** [df[col] = df[col].astype(int)]: [col] reads the column of a row and
    [assign] writes it. *)
Definition astype_int {A} (col : A → option id_cell)
    (assign : A → option id_cell → A) (df : list A) : result (list A) :=
  mapM (λ r, c ← int_cell (col r); Ok (assign r (Some c))) df.

(** Addition of int64 values. *)
Definition add64 (a b : Z) : Z := wrap64 (a + b).

(** [s.sum()] on an int64 column: the cells are added to 0 one after the
    other, in int64. *)
Definition sum (s : list Z) : Z := foldl add64 0 s.

(** [s == v] against a string: a null cell compares unequal. *)
Definition eq_str (s : list (option string)) (v : string) : list bool :=
  (λ c, match c with Some x => bool_decide (x = v) | None => false end) <$> s.

(** [s >= t] and [s <= t] on a datetime series: NaT compares false. *)
Definition ge_ts (s : list (option Timestamp)) (t : Timestamp) : list bool :=
  (λ c, match c with Some x => ts_leb t x | None => false end) <$> s.

Definition le_ts (s : list (option Timestamp)) (t : Timestamp) : list bool :=
  (λ c, match c with Some x => ts_leb x t | None => false end) <$> s.

Section merge.
Context {L R K O : Type} `{EqDecision K}.

(** [left.merge(right, on=key, how="left")]: every left row, in order,
    once per right row with the same key (in the order of [right]), or
    once with the right-hand columns null when no right row has its key. *)
Definition merge_left (keyL : L → K) (keyR : R → K)
    (join : L → option R → O) (left : list L) (right : list R) : list O :=
  left ≫= λ l,
    match filter (λ r, keyR r = keyL l) right with
    | [] => [join l None]
    | matches => (λ r, join l (Some r)) <$> matches
    end.
End merge.

Section groupby.
Context {K V : Type} (cmp : K → K → comparison).
Context (zero : V) (add : V → V → V).

(** One more row for the group of key [k]: its cell is added to the sum of
    the group, which starts at [zero]; groups are kept in increasing key
    order ([sort=True]). *)
Fixpoint add_group (k : K) (v : V) (groups : list (K * V)) : list (K * V) :=
  match groups with
  | [] => [(k, add zero v)]
  | (k', v') :: rest =>
      match cmp k k' with
      | Lt => (k, add zero v) :: groups
      | Eq => (k', add v' v) :: rest
      | Gt => (k', v') :: add_group k v rest
      end
  end.

(** [df.groupby(keys, as_index=False)[cols].sum()]: a row whose key has a
    null cell belongs to no group ([dropna=True]). *)
Definition groupby_sum {A} (key : A → option K) (val : A → V)
    (df : list A) : list (K * V) :=
  foldl (λ groups r,
           match key r with
           | Some k => add_group k (val r) groups
           | None => groups
           end) [] df.
End groupby.

(** The order of identifiers as group keys: numbers by value (after the
    cast every cell is one), then text. *)
Definition id_compare (a b : id_cell) : comparison :=
  match a, b with
  | num x, num y => x ?= y
  | num _, text _ => Lt
  | text _, num _ => Gt
  | text x, text y => String.compare x y
  end.

(** Orders of the group keys. *)
Definition lex_compare {A B} (ca : A → A → comparison) (cb : B → B → comparison)
    (x y : A * B) : comparison :=
  match ca x.1 y.1 with
  | Eq => cb x.2 y.2
  | c => c
  end.

(** A row comes no later than another when its sum is no smaller. *)
Definition sum_ge {K} (a b : K * Z) : Prop := b.2 ≤ a.2.

Global Instance sum_ge_dec {K} : RelDecision (@sum_ge K).
Proof. intros a b. unfold sum_ge. apply _. Defined.

(** [df.sort_values(col, ascending=False)] on the summed column.  The
    program leaves the order among equal sums to pandas' default sort; a
    merge sort fixes one here, and no property below depends on it. *)
Definition sort_values_desc {K} (df : list (K * Z)) : list (K * Z) :=
  merge_sort sum_ge df.

(** Rows ordered by their string key. *)
Definition key_le {V} (a b : string * V) : Prop := String.le a.1 b.1.

Global Instance key_le_dec {V} : RelDecision (@key_le V).
Proof. intros a b. unfold key_le. apply _. Defined.

(** [df.sort_values(col)] on a string column. *)
Definition sort_values_str {V} (df : list (string * V)) : list (string * V) :=
  merge_sort key_le df.

(** [sorted(xs)] on strings. *)
Definition sorted (xs : list string) : list string := merge_sort String.le xs.

(** [df.head(n)]. *)
Definition head {A} (n : nat) (df : list A) : list A := take n df.

(** [s.min()] and [s.max()] of a datetime series: nulls are skipped, and
    the result is NaT when nothing is left. *)
Definition ts_min (a b : Timestamp) : Timestamp := if ts_leb a b then a else b.
Definition ts_max (a b : Timestamp) : Timestamp := if ts_leb a b then b else a.

Definition series_min (s : list (option Timestamp)) : option Timestamp :=
  foldr (λ c acc, match c, acc with
                  | Some x, Some m => Some (ts_min x m)
                  | Some x, None => Some x
                  | None, _ => acc
                  end) None s.

Definition series_max (s : list (option Timestamp)) : option Timestamp :=
  foldr (λ c acc, match c, acc with
                  | Some x, Some m => Some (ts_max x m)
                  | Some x, None => Some x
                  | None, _ => acc
                  end) None s.

(** What [s.min()] and [s.max()] return: a timestamp, NaT for a datetime
    column without a date, and the float nan for an empty column of dtype
    object. *)
Inductive scalar :=
  | ts (t : Timestamp)
  | NaT
  | nan.

Definition of_datetime (c : option Timestamp) : scalar :=
  match c with
  | Some t => ts t
  | None => NaT
  end.

Definition min (d : dtype) (s : list (option Timestamp)) : scalar :=
  match d with
  | datetime64 => of_datetime (series_min s)
  | object => nan
  end.

Definition max (d : dtype) (s : list (option Timestamp)) : scalar :=
  match d with
  | datetime64 => of_datetime (series_max s)
  | object => nan
  end.

(** [Series.dt.year]. *)
Definition dt_year (c : option Timestamp) : option Z := ts_year <$> c.

(** [Series.dt.to_period("M").astype(str)]: "YYYY-MM", and "NaT" for a
    null date. *)
Definition digit (n : Z) : ascii := ascii_of_N (48 + Z.to_N (n `mod` 10)).

Definition zfill2 (n : Z) : string :=
  String (digit (n / 10)) (String (digit n) EmptyString).

Definition zfill4 (n : Z) : string :=
  String (digit (n / 1000)) (String (digit (n / 100)) (zfill2 n)).

Definition period_M_str (t : Timestamp) : string :=
  zfill4 (ts_year t) +:+ "-" +:+ zfill2 (ts_month t).

Definition to_period_M_str (c : option Timestamp) : string :=
  match c with
  | Some t => period_M_str t
  | None => "NaT"
  end.

(** What [pd.to_datetime] may be given, and its result: a [datetime.date],
    which is what the date widget hands over, becomes midnight of that
    day; a timestamp stays as it is. *)
Inductive date_like :=
  | date (year month day : Z)
  | datetime (t : Timestamp).

Definition to_datetime (d : date_like) : Timestamp :=
  match d with
  | date y m d => mkTimestamp y m d 0
  | datetime t => t
  end.

End pd.

(** ** Tables *)

Module Cliente.
Record t := mk {
  cliente_id : option Z;
  nombre_cliente : option string;
  segmento : option string;
  region : option string;
  ciudad : option string;
  fecha_alta : option Timestamp
}.
End Cliente.

Module Producto.
Record t := mk {
  producto_id : option Z;
  sku : option string;
  categoria : option string;
  subcategoria : option string;
  marca : option string;
  descripcion : option string
}.
End Producto.

Module Venta.
Record t := mk {
  venta_id : option Z;
  fecha : option Timestamp;
  cliente_id : option pd.id_cell;
  producto_id : option pd.id_cell;
  cantidad : Z;
  subtotal_cop : Z;
  margen_total_cop : Z
}.

(** [v["cliente_id"] = c] and [v["producto_id"] = c] on one row. *)
Definition con_cliente_id (v : t) (c : option pd.id_cell) : t :=
  mk (venta_id v) (fecha v) c (producto_id v)
     (cantidad v) (subtotal_cop v) (margen_total_cop v).

Definition con_producto_id (v : t) (c : option pd.id_cell) : t :=
  mk (venta_id v) (fecha v) (cliente_id v) c
     (cantidad v) (subtotal_cop v) (margen_total_cop v).
End Venta.

Module Cartera.
Record t := mk {
  documento_id : option Z;
  cliente_id : option Z;
  fecha_factura : option Timestamp;
  fecha_vencimiento : option Timestamp;
  estado : option string;
  saldo_cop : Z
}.
End Cartera.

Module Inventario.
Record t := mk {
  fecha_corte : option Timestamp;
  centro_logistico : option string;
  valor_inventario_cop : Z
}.
End Inventario.

Module Importacion.
Record t := mk {
  fecha_orden : option Timestamp;
  fecha_llegada : option Timestamp;
  pais_origen : option string;
  costo_mercancia_usd : Z
}.
End Importacion.

(** ** Cleaning ("Limpieza básica") *)

Definition limpiar_clientes (clientes : list Cliente.t) : list Cliente.t :=
  pd.dropna (λ c, pd.notna (Cliente.cliente_id c))
    (pd.drop_duplicates Cliente.cliente_id clientes).

Definition limpiar_productos (productos : list Producto.t) : list Producto.t :=
  pd.dropna (λ p, pd.notna (Producto.producto_id p))
    (pd.drop_duplicates Producto.producto_id productos).

Definition ventas_completa (v : Venta.t) : bool :=
  pd.notna (Venta.venta_id v) && pd.notna (Venta.fecha v)
  && pd.notna (Venta.cliente_id v) && pd.notna (Venta.producto_id v).

Definition limpiar_ventas (ventas : list Venta.t) : list Venta.t :=
  pd.dropna ventas_completa ventas.

Definition cartera_completa (d : Cartera.t) : bool :=
  pd.notna (Cartera.documento_id d) && pd.notna (Cartera.cliente_id d)
  && pd.notna (Cartera.fecha_factura d).

Definition limpiar_cartera (cartera : list Cartera.t) : list Cartera.t :=
  pd.dropna cartera_completa cartera.


(** ** Enrichment ("Enriquecimiento para análisis principal") *)

(** The columns [clientes[[...]]] brings into the join, besides the key. *)
Module ClienteCols.
Record t := mk {
  nombre_cliente : option string;
  segmento : option string;
  region : option string;
  ciudad : option string
}.
Definition of_row (c : Cliente.t) : t :=
  mk (Cliente.nombre_cliente c) (Cliente.segmento c) (Cliente.region c)
     (Cliente.ciudad c).
Definition nulls : t := mk None None None None.
End ClienteCols.

(** The columns [productos[[...]]] brings into the join, besides the key. *)
Module ProductoCols.
Record t := mk {
  sku : option string;
  categoria : option string;
  subcategoria : option string;
  marca : option string;
  descripcion : option string
}.
Definition of_row (p : Producto.t) : t :=
  mk (Producto.sku p) (Producto.categoria p) (Producto.subcategoria p)
     (Producto.marca p) (Producto.descripcion p).
Definition nulls : t := mk None None None None None.
End ProductoCols.

(** A row of [ventas_ext]: the sale, the joined columns, the derived ones. *)
Module VentaExt.
Record t := mk {
  venta : Venta.t;
  cliente : ClienteCols.t;
  producto : ProductoCols.t;
  anio : option Z;
  mes : string
}.
Definition fecha (e : t) := Venta.fecha (venta e).
Definition cliente_id (e : t) := Venta.cliente_id (venta e).
Definition producto_id (e : t) := Venta.producto_id (venta e).
Definition cantidad (e : t) := Venta.cantidad (venta e).
Definition subtotal_cop (e : t) := Venta.subtotal_cop (venta e).
Definition margen_total_cop (e : t) := Venta.margen_total_cop (venta e).
Definition nombre_cliente (e : t) := ClienteCols.nombre_cliente (cliente e).
Definition segmento (e : t) := ClienteCols.segmento (cliente e).
Definition region (e : t) := ClienteCols.region (cliente e).
Definition ciudad (e : t) := ClienteCols.ciudad (cliente e).
Definition sku (e : t) := ProductoCols.sku (producto e).
Definition descripcion (e : t) := ProductoCols.descripcion (producto e).
End VentaExt.

Definition join_cliente (v : Venta.t) (c : option Cliente.t)
    : Venta.t * ClienteCols.t :=
  (v, from_option ClienteCols.of_row ClienteCols.nulls c).

Definition join_producto (vc : Venta.t * ClienteCols.t) (p : option Producto.t)
    : Venta.t * ClienteCols.t * ProductoCols.t :=
  (vc, from_option ProductoCols.of_row ProductoCols.nulls p).

Definition campos_derivados (r : Venta.t * ClienteCols.t * ProductoCols.t)
    : VentaExt.t :=
  VentaExt.mk r.1.1 r.1.2 r.2
    (pd.dt_year (Venta.fecha r.1.1))
    (pd.to_period_M_str (Venta.fecha r.1.1)).

Definition enriquecer (ventas : list Venta.t) (clientes : list Cliente.t)
    (productos : list Producto.t) : list VentaExt.t :=
  let ventas_cli :=
    pd.merge_left Venta.cliente_id (λ c, pd.as_id (Cliente.cliente_id c))
      join_cliente ventas clientes in
  let ventas_cli_prod :=
    pd.merge_left (λ vc, Venta.producto_id vc.1)
      (λ p, pd.as_id (Producto.producto_id p))
      join_producto ventas_cli productos in
  campos_derivados <$> ventas_cli_prod.

(** ** [load_data] *)

(** The six frames [read_csv] returns. *)
Module Csv.
Record t := mk {
  clientes_andina : list Cliente.t;
  productos_andina : list Producto.t;
  ventas_andina : list Venta.t;
  inventario_andina : list Inventario.t;
  importaciones_andina : list Importacion.t;
  cartera_andina : list Cartera.t
}.
End Csv.

(** The dictionary [load_data] returns.  The frames of [inventario] and
    [importaciones] are the frames read, so that the dtype of their date
    columns can be told from their rows; [cartera] has lost rows to
    [dropna], which keeps the dtype of its columns, here
    [fecha_factura_dtype]. *)
Module Data.
Record t := mk {
  clientes : list Cliente.t;
  productos : list Producto.t;
  ventas : list Venta.t;
  ventas_ext : list VentaExt.t;
  inventario : list Inventario.t;
  importaciones : list Importacion.t;
  cartera : list Cartera.t;
  fecha_factura_dtype : pd.dtype
}.
End Data.

Definition load_data (csv : Csv.t) : result Data.t :=
  let clientes := limpiar_clientes (Csv.clientes_andina csv) in
  let productos := limpiar_productos (Csv.productos_andina csv) in
  let ventas := limpiar_ventas (Csv.ventas_andina csv) in
  let cartera := limpiar_cartera (Csv.cartera_andina csv) in
  ventas ← pd.astype_int Venta.cliente_id Venta.con_cliente_id ventas;
  ventas ← pd.astype_int Venta.producto_id Venta.con_producto_id ventas;
  let ventas_ext := enriquecer ventas clientes productos in
  (* ventas_ext["fecha"].dt, for the two derived columns *)
  _ ← pd.dt (pd.read_dtype (Csv.ventas_andina csv));
  Ok (Data.mk clientes productos ventas ventas_ext
        (Csv.inventario_andina csv) (Csv.importaciones_andina csv) cartera
        (pd.read_dtype (Csv.cartera_andina csv))).

(** ** [main]: filters *)

(** What the sidebar widgets hand to [main]. *)
Module Seleccion.
Record t := mk {
  fecha_desde : pd.date_like;
  fecha_hasta : pd.date_like;
  region_sel : string;
  segmento_sel : string
}.
End Seleccion.

(** [a < b] in Python on what [min()] and [max()] of a column return: two
    timestamps compare, every comparison with NaT is false, so is that of
    nan with nan, and a float does not compare with a timestamp or NaT. *)
Definition py_lt (a b : pd.scalar) : result bool :=
  match a, b with
  | pd.ts x, pd.ts y => Ok (ts_ltb x y)
  | pd.nan, pd.nan => Ok false
  | pd.nan, _ | _, pd.nan => Raise TypeError
  | _, _ => Ok false
  end.

(** Python's [min] and [max] of a list literal with first element [x]: the
    running best is replaced on a strict comparison. *)
Definition py_min (x : pd.scalar) (xs : list pd.scalar) : result pd.scalar :=
  foldl (λ best y, best ← best; lt ← py_lt y best;
                   Ok (if lt : bool then y else best)) (Ok x) xs.

Definition py_max (x : pd.scalar) (xs : list pd.scalar) : result pd.scalar :=
  foldl (λ best y, best ← best; gt ← py_lt best y;
                   Ok (if gt : bool then y else best)) (Ok x) xs.

(** "Rango global de fechas según todas las tablas".  The date column of
    [ventas_ext] is a datetime column, or [load_data] would have raised. *)
Definition min_date (data : Data.t) : result pd.scalar :=
  py_min (pd.min pd.datetime64 (VentaExt.fecha <$> Data.ventas_ext data))
    [ pd.min (Data.fecha_factura_dtype data)
        (Cartera.fecha_factura <$> Data.cartera data);
      pd.min (pd.read_dtype (Data.inventario data))
        (Inventario.fecha_corte <$> Data.inventario data);
      pd.min (pd.read_dtype (Data.importaciones data))
        (Importacion.fecha_orden <$> Data.importaciones data) ].

Definition max_date (data : Data.t) : result pd.scalar :=
  py_max (pd.max pd.datetime64 (VentaExt.fecha <$> Data.ventas_ext data))
    [ pd.max (Data.fecha_factura_dtype data)
        (Cartera.fecha_factura <$> Data.cartera data);
      pd.max (pd.read_dtype (Data.inventario data))
        (Inventario.fecha_corte <$> Data.inventario data);
      pd.max (pd.read_dtype (Data.importaciones data))
        (Importacion.fecha_orden <$> Data.importaciones data) ].

(** What the date widget hands over for a bound it was given as a
    timestamp: [date_input] keeps the calendar day. *)
Definition st_date (t : Timestamp) : pd.date_like :=
  pd.date (ts_year t) (ts_month t) (ts_day t).

(** The selection the sidebar starts with, when the default range runs
    from the timestamp [lo] to the timestamp [hi]: the date widget hands
    over the two days, and each select box its first option. *)
Definition por_defecto (lo hi : Timestamp) : Seleccion.t :=
  Seleccion.mk (st_date lo) (st_date hi) "Todos" "Todos".

(** [sorted(s.dropna().unique())] and the options of the select boxes. *)
Definition regiones (ventas_ext : list VentaExt.t) : list string :=
  pd.sorted (remove_dups (omap VentaExt.region ventas_ext)).

Definition regiones_opciones (ventas_ext : list VentaExt.t) : list string :=
  "Todos" :: regiones ventas_ext.

Definition segmentos (ventas_ext : list VentaExt.t) : list string :=
  pd.sorted (remove_dups (omap VentaExt.segmento ventas_ext)).

Definition segmentos_opciones (ventas_ext : list VentaExt.t) : list string :=
  "Todos" :: segmentos ventas_ext.

(** "Aplicar filtros". *)
Definition mask (ventas_ext : list VentaExt.t) (sel : Seleccion.t) : list bool :=
  let mask :=
    pd.mask_and
      (pd.ge_ts (VentaExt.fecha <$> ventas_ext)
         (pd.to_datetime (Seleccion.fecha_desde sel)))
      (pd.le_ts (VentaExt.fecha <$> ventas_ext)
         (pd.to_datetime (Seleccion.fecha_hasta sel))) in
  let mask :=
    if bool_decide (Seleccion.region_sel sel ≠ "Todos")
    then pd.mask_and mask
           (pd.eq_str (VentaExt.region <$> ventas_ext) (Seleccion.region_sel sel))
    else mask in
  let mask :=
    if bool_decide (Seleccion.segmento_sel sel ≠ "Todos")
    then pd.mask_and mask
           (pd.eq_str (VentaExt.segmento <$> ventas_ext)
              (Seleccion.segmento_sel sel))
    else mask in
  mask.

Definition ventas_f (ventas_ext : list VentaExt.t) (sel : Seleccion.t)
    : list VentaExt.t :=
  pd.loc (mask ventas_ext sel) ventas_ext.

(** ** [main]: KPIs and grouped summaries *)

Definition total_ventas (ventas_f : list VentaExt.t) : Z :=
  pd.sum (VentaExt.subtotal_cop <$> ventas_f).

Definition margen_total (ventas_f : list VentaExt.t) : Z :=
  pd.sum (VentaExt.margen_total_cop <$> ventas_f).

Definition total_unidades (ventas_f : list VentaExt.t) : Z :=
  pd.sum (VentaExt.cantidad <$> ventas_f).

Definition cartera_estado (estado : string) (cartera : list Cartera.t) : Z :=
  pd.sum (Cartera.saldo_cop <$>
          pd.loc (pd.eq_str (Cartera.estado <$> cartera) estado) cartera).

Definition cartera_vigente (cartera : list Cartera.t) : Z :=
  cartera_estado "Vigente" cartera.

Definition cartera_mora (cartera : list Cartera.t) : Z :=
  cartera_estado "En mora" cartera.

(** The sums of two columns, side by side. *)
Definition add2 (a b : Z * Z) : Z * Z := (pd.add64 a.1 b.1, pd.add64 a.2 b.2).

(** A two- or three-column group key: null as soon as one cell is. *)
Definition key2 {A B} (a : option A) (b : option B) : option (A * B) :=
  x ← a; y ← b; Some (x, y).

Definition ventas_mes (ventas_f : list VentaExt.t) : list (string * (Z * Z)) :=
  pd.sort_values_str
    (pd.groupby_sum String.compare (0, 0) add2
       (λ r, Some (VentaExt.mes r))
       (λ r, (VentaExt.subtotal_cop r, VentaExt.margen_total_cop r))
       ventas_f).

Definition ventas_region (ventas_f : list VentaExt.t)
    : list (string * string * Z) :=
  pd.groupby_sum (pd.lex_compare String.compare String.compare) 0 pd.add64
    (λ r, key2 (VentaExt.region r) (VentaExt.segmento r))
    VentaExt.subtotal_cop ventas_f.

Definition ventas_ciudad (ventas_f : list VentaExt.t)
    : list (string * string * Z) :=
  pd.groupby_sum (pd.lex_compare String.compare String.compare) 0 pd.add64
    (λ r, key2 (VentaExt.region r) (VentaExt.ciudad r))
    VentaExt.subtotal_cop ventas_f.

Definition top_clientes (ventas_f : list VentaExt.t)
    : list (pd.id_cell * string * Z) :=
  pd.head 15
    (pd.sort_values_desc
       (pd.groupby_sum (pd.lex_compare pd.id_compare String.compare)
          0 pd.add64
          (λ r, key2 (VentaExt.cliente_id r) (VentaExt.nombre_cliente r))
          VentaExt.subtotal_cop ventas_f)).

Definition top_productos (ventas_f : list VentaExt.t)
    : list (pd.id_cell * string * string * Z) :=
  pd.head 15
    (pd.sort_values_desc
       (pd.groupby_sum
          (pd.lex_compare (pd.lex_compare pd.id_compare String.compare)
             String.compare)
          0 pd.add64
          (λ r, key2 (key2 (VentaExt.producto_id r) (VentaExt.sku r))
                     (VentaExt.descripcion r))
          VentaExt.subtotal_cop ventas_f)).

(** What [main] computes for the page below the sidebar, once the widgets
    have handed over a selection. *)
Module Dashboard.
Record t := mk {
  total_ventas : Z;
  margen_total : Z;
  total_unidades : Z;
  cartera_vigente : Z;
  cartera_mora : Z;
  ventas_mes : list (string * (Z * Z));
  ventas_region : list (string * string * Z);
  ventas_ciudad : list (string * string * Z);
  top_clientes : list (pd.id_cell * string * Z);
  top_productos : list (pd.id_cell * string * string * Z)
}.
End Dashboard.

Definition main (data : Data.t) (sel : Seleccion.t) : Dashboard.t :=
  let ventas_ext := Data.ventas_ext data in
  let cartera := Data.cartera data in
  let ventas_f := ventas_f ventas_ext sel in
  Dashboard.mk
    (total_ventas ventas_f) (margen_total ventas_f) (total_unidades ventas_f)
    (cartera_vigente cartera) (cartera_mora cartera)
    (ventas_mes ventas_f) (ventas_region ventas_f) (ventas_ciudad ventas_f)
    (top_clientes ventas_f) (top_productos ventas_f).

(** ** Vocabulary of the properties *)

(** [out] is [t] with exactly the rows [keep] holds of, in the order of [t]:
    some mask over the index of [t] selects [out] and is true at [i] just
    when [keep i (t[i])]. *)
Definition keeps_exactly {A} (keep : nat → A → Prop) (t out : list A) : Prop :=
  ∃ m : list bool,
    length m = length t ∧ out = pd.loc m t ∧
    ∀ i r, t !! i = Some r → (m !! i = Some true ↔ keep i r).

(** No row before index [i] has the key of row [r]. *)
Definition first_occurrence {A K} (key : A → K) (t : list A) (i : nat) (r : A)
    : Prop :=
  ∀ j r', (j < i)%nat → t !! j = Some r' → key r' ≠ key r.

(** A cleaning that drops the rows with a null key cell and the rows that
    repeat the key of an earlier row. *)
Definition drops_nulls_and_duplicates {A K} (key : A → K) (complete : A → Prop)
    (clean : list A → list A) : Prop :=
  ∀ t, keeps_exactly (λ i r, complete r ∧ first_occurrence key t i r)
         t (clean t).

(** A cleaning that drops the rows with a null key cell, and nothing else. *)
Definition drops_nulls_only {A} (complete : A → Prop) (clean : list A → list A)
    : Prop :=
  ∀ t, keeps_exactly (λ _ r, complete r) t (clean t).

(** The key-column sets of the two fact tables. *)
Definition venta_key (v : Venta.t) :=
  (Venta.venta_id v, Venta.fecha v, Venta.cliente_id v, Venta.producto_id v).

Definition cartera_key (d : Cartera.t) :=
  (Cartera.documento_id d, Cartera.cliente_id d, Cartera.fecha_factura d).

(** No key cell of the row is null. *)
Definition cliente_con_clave (c : Cliente.t) : Prop :=
  Cliente.cliente_id c ≠ None.

Definition producto_con_clave (p : Producto.t) : Prop :=
  Producto.producto_id p ≠ None.

Definition venta_con_clave (v : Venta.t) : Prop :=
  Venta.venta_id v ≠ None ∧ Venta.fecha v ≠ None
  ∧ Venta.cliente_id v ≠ None ∧ Venta.producto_id v ≠ None.

Definition cartera_con_clave (d : Cartera.t) : Prop :=
  Cartera.documento_id d ≠ None ∧ Cartera.cliente_id d ≠ None
  ∧ Cartera.fecha_factura d ≠ None.

(** The order of timestamps, as a proposition. *)
Definition ts_le (a b : Timestamp) : Prop := ts_leb a b = true.

(** The inclusion predicate of a selection, cell by cell. *)
Definition en_rango (sel : Seleccion.t) (e : VentaExt.t) : Prop :=
  ∃ t, VentaExt.fecha e = Some t
       ∧ ts_le (pd.to_datetime (Seleccion.fecha_desde sel)) t
       ∧ ts_le t (pd.to_datetime (Seleccion.fecha_hasta sel)).

Definition cumple_region (sel : Seleccion.t) (e : VentaExt.t) : Prop :=
  Seleccion.region_sel sel = "Todos"
  ∨ VentaExt.region e = Some (Seleccion.region_sel sel).

Definition cumple_segmento (sel : Seleccion.t) (e : VentaExt.t) : Prop :=
  Seleccion.segmento_sel sel = "Todos"
  ∨ VentaExt.segmento e = Some (Seleccion.segmento_sel sel).

Definition cumple (sel : Seleccion.t) (e : VentaExt.t) : Prop :=
  en_rango sel e ∧ cumple_region sel e ∧ cumple_segmento sel e.

(** A sale dated by its day alone, with no time of day. *)
Definition sin_hora (e : VentaExt.t) : Prop :=
  ∀ t, VentaExt.fecha e = Some t → ts_nanos t = 0.

(** The cell of [mask] for one row. *)
Definition fila_mask (sel : Seleccion.t) (e : VentaExt.t) : bool :=
  let desde := pd.to_datetime (Seleccion.fecha_desde sel) in
  let hasta := pd.to_datetime (Seleccion.fecha_hasta sel) in
  let m :=
    match VentaExt.fecha e with Some x => ts_leb desde x | None => false end
    && match VentaExt.fecha e with Some x => ts_leb x hasta | None => false end in
  let m :=
    if bool_decide (Seleccion.region_sel sel ≠ "Todos")
    then m && match VentaExt.region e with
              | Some x => bool_decide (x = Seleccion.region_sel sel)
              | None => false
              end
    else m in
  if bool_decide (Seleccion.segmento_sel sel ≠ "Todos")
  then m && match VentaExt.segmento e with
            | Some x => bool_decide (x = Seleccion.segmento_sel sel)
            | None => false
            end
  else m.

(** The two cleaning steps of a dimension table, one after the other. *)
Definition limpiar_por_clave {A K} `{Countable K} (key : A → K)
    (complete : A → bool) (t : list A) : list A :=
  pd.dropna complete (pd.drop_duplicates key t).

(** The row of [right] a left row is joined with, if any. *)
Definition matched {L R K} `{EqDecision K} (keyL : L → K) (keyR : R → K)
    (right : list R) (l : L) : option R :=
  head (filter (λ r, keyR r = keyL l) right).

(** Enrichment of one sale against dimension tables with unique keys. *)
Definition enriquecer_fila (clientes : list Cliente.t)
    (productos : list Producto.t) (v : Venta.t) : VentaExt.t :=
  campos_derivados
    (join_producto
       (join_cliente v
          (matched Venta.cliente_id (λ c, pd.as_id (Cliente.cliente_id c))
             clientes v))
       (matched Venta.producto_id (λ p, pd.as_id (Producto.producto_id p))
          productos v)).

(** An identifier cell that holds a number, and the sale lines whose two
    identifier cells the cast accepts. *)
Definition es_numero (c : option pd.id_cell) : bool :=
  match c with
  | Some (pd.num _) => true
  | _ => false
  end.

Definition ids_numericos (v : Venta.t) : bool :=
  es_numero (Venta.cliente_id v) && es_numero (Venta.producto_id v).

(** A number cell as the int64 the cast makes of it, and a sale line with
    its two identifiers cast. *)
Definition int64_id (c : option pd.id_cell) : option pd.id_cell :=
  match c with
  | Some (pd.num z) => Some (pd.num (pd.wrap64 z))
  | _ => c
  end.

Definition venta_int64 (v : Venta.t) : Venta.t :=
  Venta.con_producto_id
    (Venta.con_cliente_id v (int64_id (Venta.cliente_id v)))
    (int64_id (Venta.producto_id v)).

(** The tables [load_data] returns when it returns: the cleaned tables,
    with the identifiers of the sales cast, and each sale enriched. *)
Definition tablas (csv : Csv.t) : Data.t :=
  let clientes := limpiar_clientes (Csv.clientes_andina csv) in
  let productos := limpiar_productos (Csv.productos_andina csv) in
  let ventas := venta_int64 <$> limpiar_ventas (Csv.ventas_andina csv) in
  Data.mk clientes productos ventas
    (enriquecer_fila clientes productos <$> ventas)
    (Csv.inventario_andina csv) (Csv.importaciones_andina csv)
    (limpiar_cartera (Csv.cartera_andina csv))
    (pd.read_dtype (Csv.cartera_andina csv)).

(** Pairs of numbers added side by side, as numbers. *)
Definition suma2 (a b : Z * Z) : Z * Z := (a.1 + b.1, a.2 + b.2).

(** The sum of a list of integers, as a number: no wrap-around. *)
Definition suma (xs : list Z) : Z := foldr Z.add 0 xs.

(** The balance of the documents of one status, summed row by row. *)
Definition saldo_de (estado : string) (cartera : list Cartera.t) : Z :=
  suma ((λ d, if decide (Cartera.estado d = Some estado)
               then Cartera.saldo_cop d else 0) <$> cartera).

(** Timestamps pandas can hold at nanosecond resolution have a four-digit
    year; months are 1 to 12. *)
Definition ts_valid (t : Timestamp) : Prop :=
  1677 ≤ ts_year t ≤ 2262 ∧ 1 ≤ ts_month t ≤ 12.

(** Reading a "YYYY-MM" bucket back: the number its first four characters
    spell and the number its last two spell. *)
Definition digit_value (c : ascii) : Z := Z.of_N (N_of_ascii c) - 48.

Definition decimal_value (s : string) : Z :=
  foldl (λ acc c, 10 * acc + digit_value c) 0 (String.list_ascii_of_string s).

Definition month_of_bucket (s : string) : Z * Z :=
  (decimal_value (String.substring 0 4 s), decimal_value (String.substring 5 2 s)).

Definition bucket_lt (a b : string) : Prop := String.compare a b = Lt.

(** Groups in strictly increasing key order. *)
Definition increasing {V} (groups : list (string * V)) : Prop :=
  StronglySorted (λ g1 g2, bucket_lt g1.1 g2.1) groups.

(** ** Vocabulary of the further properties *)

Global Instance Timestamp_eq_dec : EqDecision Timestamp.
Proof. solve_decision. Defined.

Global Instance scalar_eq_dec : EqDecision pd.scalar.
Proof. solve_decision. Defined.

(** The sum of [f] over the rows [P] holds of. *)
Definition suma_si {A} (P : A → Prop) `{∀ r, Decision (P r)} (f : A → Z)
    (df : list A) : Z :=
  suma ((λ r, if decide (P r) then f r else 0) <$> df).

(** A comparison function that decides a strict total order. *)
Record cmp_order {K} (cmp : K → K → comparison) : Prop := mk_cmp_order {
  cmp_eq : ∀ a b, cmp a b = Eq → a = b;
  cmp_refl : ∀ a, cmp a a = Eq;
  cmp_gt_lt : ∀ a b, cmp a b = Gt → cmp b a = Lt;
  cmp_lt_trans : ∀ a b c, cmp a b = Lt → cmp b c = Lt → cmp a c = Lt
}.

(** Groups in strictly increasing order of their keys. *)
Definition ascending {K V} (cmp : K → K → comparison) (groups : list (K * V))
    : Prop :=
  StronglySorted (λ g1 g2, cmp g1.1 g2.1 = Lt) groups.

(** The same selection with another choice in the region box. *)
Definition con_region (sel : Seleccion.t) (region : string) : Seleccion.t :=
  Seleccion.mk (Seleccion.fecha_desde sel) (Seleccion.fecha_hasta sel)
    region (Seleccion.segmento_sel sel).

(** [out] breaks the subtotal of [vf] down by region and the column [col]:
    one row for each pair of values a row of [vf] has, and only for these,
    with the subtotal of the rows of that pair as an int64; the rows with a
    null cell in either column are in no group. *)
Definition desglose_de (col : VentaExt.t → option string)
    (vf : list VentaExt.t) (out : list (string * string * Z)) : Prop :=
  NoDup out.*1
  ∧ (∀ e a b, e ∈ vf → VentaExt.region e = Some a → col e = Some b →
       ∃ g, g ∈ out ∧ g.1 = (a, b))
  ∧ (∀ g, g ∈ out →
       (∃ e, e ∈ vf ∧ VentaExt.region e = Some g.1.1 ∧ col e = Some g.1.2)
       ∧ g.2 = pd.wrap64
                 (suma_si (λ e, VentaExt.region e = Some g.1.1
                                ∧ col e = Some g.1.2)
                    VentaExt.subtotal_cop vf)).

(** [top] ranks the groups of [vf] under [key]: every row of [top] is a
    group of [vf] with the subtotal of its rows as an int64, no group is
    there twice, and a group that is left out has a subtotal (as an int64)
    no larger than any row of [top], which then has its 15 rows. *)
Definition top_de {K} `{EqDecision K} (key : VentaExt.t → option K)
    (vf : list VentaExt.t) (top : list (K * Z)) : Prop :=
  NoDup top.*1
  ∧ (∀ g, g ∈ top →
       (∃ e, e ∈ vf ∧ key e = Some g.1)
       ∧ g.2 = pd.wrap64
                 (suma_si (λ e, key e = Some g.1) VentaExt.subtotal_cop vf))
  ∧ (∀ e k, e ∈ vf → key e = Some k →
       (∃ g, g ∈ top ∧ g.1 = k)
       ∨ (length top = 15%nat
          ∧ ∀ g, g ∈ top →
              pd.wrap64
                (suma_si (λ e, key e = Some k) VentaExt.subtotal_cop vf)
              ≤ g.2)).

(** [valores] lists the values of the column [col] of [ve], each once and
    in increasing order, and [opciones] offers "Todos" first and then
    [valores]; no option is offered twice unless a row has the value
    "Todos" itself. *)
Definition opciones_de (col : VentaExt.t → option string)
    (ve : list VentaExt.t) (valores opciones : list string) : Prop :=
  StronglySorted (λ a b, String.compare a b = Lt) valores
  ∧ (∀ x, x ∈ valores ↔ ∃ e, e ∈ ve ∧ col e = Some x)
  ∧ opciones = "Todos" :: valores
  ∧ (NoDup opciones ↔ ∀ e, e ∈ ve → col e ≠ Some "Todos").

(** [min] and [max] of a first value and more values that are timestamps
    or NaT: what [py_min] and [py_max] return when no column is of dtype
    object. *)
Definition lt_fechas (a b : option Timestamp) : bool :=
  match a, b with
  | Some x, Some y => ts_ltb x y
  | _, _ => false
  end.

Definition min_fechas (x : option Timestamp) (xs : list (option Timestamp))
    : option Timestamp :=
  foldl (λ best y, if lt_fechas y best then y else best) x xs.

Definition max_fechas (x : option Timestamp) (xs : list (option Timestamp))
    : option Timestamp :=
  foldl (λ best y, if lt_fechas best y then y else best) x xs.

(** The receivables, inventory and imports files each had a line besides
    the header, so that their date columns are datetime columns. *)
Definition con_lineas (data : Data.t) : Prop :=
  Data.fecha_factura_dtype data = pd.datetime64
  ∧ Data.inventario data ≠ [] ∧ Data.importaciones data ≠ [].

(** The dates of the four columns the default range is taken from. *)
Definition fechas_de (data : Data.t) : list (option Timestamp) :=
  (VentaExt.fecha <$> Data.ventas_ext data)
  ++ (Cartera.fecha_factura <$> Data.cartera data)
  ++ (Inventario.fecha_corte <$> Data.inventario data)
  ++ (Importacion.fecha_orden <$> Data.importaciones data).

Global Instance cartera_con_clave_dec d : Decision (cartera_con_clave d).
Proof. unfold cartera_con_clave. apply _. Defined.

(** The KPI [kpi], the sum of the int64 column [col], is shared among the
    regions: its value with "Todos" in the region box is the sum of its
    values with each region of [regiones] chosen instead, plus the part of
    the selected sales that have no region, all added in int64. *)
Definition reparte_por_region (kpi : list VentaExt.t → Z)
    (col : VentaExt.t → Z) (ve : list VentaExt.t) (sel : Seleccion.t)
    : Prop :=
  kpi (ventas_f ve (con_region sel "Todos"))
  = pd.add64
      (pd.sum ((λ r, kpi (ventas_f ve (con_region sel r))) <$> regiones ve))
      (pd.sum (col <$> filter (λ e, VentaExt.region e = None)
                         (ventas_f ve (con_region sel "Todos")))).

(** ** [main]: inventory by logistics centre (tab 4) *)

Definition inv_resumen (inventario : list Inventario.t) : list (string * Z) :=
  pd.groupby_sum String.compare 0 pd.add64
    Inventario.centro_logistico
    Inventario.valor_inventario_cop inventario.

(** ** The monthly series on a float64 column *)

(** The subtotal column is of dtype float64 when a cell of the file has a
    decimal point or is empty.  Its frame is given here by the two columns
    [mes] and [subtotal_cop] of [ventas_f]. *)
Module Float64.

(** [s.sum()] fills the NaN cells with 0 and has numpy add the cells to 0:
    one after the other when there are fewer than eight.  Longer columns
    are added by blocks and are left out here. *)
Definition fillna0 (x : float) : float :=
  if PrimFloat.is_nan x then 0%float else x.

Definition sum (s : list float) : option float :=
  if decide (length s < 8)%nat
  then Some (foldl (λ acc x, (acc + fillna0 x)%float) 0%float s)
  else None.

(** The sum of a group and its compensation: [groupby(...).sum()] adds a
    cell that is not NaN to the running sum of its group with Kahan's
    correction. *)
Definition kahan (acc cell : float * float) : float * float :=
  if PrimFloat.is_nan cell.1 then acc
  else
    let y := (cell.1 - acc.2)%float in
    let t := (acc.1 + y)%float in
    let c := (t - acc.1 - y)%float in
    (t, if PrimFloat.is_nan c then 0%float else c).

Definition total_ventas (ventas_f : list (string * float)) : option float :=
  sum (snd <$> ventas_f).

Definition ventas_mes (ventas_f : list (string * float))
    : list (string * float) :=
  pd.sort_values_str
    (prod_map id fst <$>
     pd.groupby_sum String.compare (0%float, 0%float) kahan
       (λ r, Some r.1) (λ r, (r.2, 0%float)) ventas_f).
End Float64.

(** ** [main]: the label of the units metric *)

(** [str(n)] for an integer: its decimal numeral. *)
Definition py_str (n : Z) : string :=
  DecimalString.NilZero.string_of_int (Z.to_int n).

(** The digits, least significant first, with a comma after every third
    one that has a digit after it. *)
Fixpoint miles (ds : list ascii) : list ascii :=
  match ds with
  | a :: b :: c :: ((_ :: _) as rest) => a :: b :: c :: ","%char :: miles rest
  | _ => ds
  end.

Definition agrupar (s : string) : string :=
  String.string_of_list_ascii
    (reverse (miles (reverse (String.list_ascii_of_string s)))).

(** [format(n, ",")]: the sign, then the digits in groups of three. *)
Definition format_miles (n : Z) : string :=
  match n with
  | Zneg _ => String "-" (agrupar (py_str (Z.abs n)))
  | _ => agrupar (py_str n)
  end.

(** [f"{int(total_unidades):,}"]. *)
Definition unidades_label (ventas_f : list VentaExt.t) : string :=
  format_miles (total_unidades ventas_f).

(** A label with its commas taken out. *)
Definition quitar_comas (s : string) : string :=
  String.string_of_list_ascii
    (filter (λ c, c ≠ ","%char) (String.list_ascii_of_string s)).

(** ** Sample tables *)

Module Sample.
Definition enero_15 : Timestamp := mkTimestamp 2024 1 15 0.
Definition febrero_3 : Timestamp := mkTimestamp 2024 2 3 52200000000000.
Definition febrero_20 : Timestamp := mkTimestamp 2024 2 20 0.

(** A sale with every key cell present. *)
Definition venta_1 : Venta.t :=
  Venta.mk (Some 1) (Some enero_15) (Some (pd.num 10)) (Some (pd.num 100))
    2 200 50.

(** A sale made at 14:30. *)
Definition venta_2 : Venta.t :=
  Venta.mk (Some 2) (Some febrero_3) (Some (pd.num 11)) (Some (pd.num 100))
    1 70 20.

(** A sale of a customer and a product the dimension tables do not have. *)
Definition venta_3 : Venta.t :=
  Venta.mk (Some 3) (Some febrero_20) (Some (pd.num 12)) (Some (pd.num 101))
    4 30 5.

Definition venta_sin_fecha : Venta.t :=
  Venta.mk (Some 4) None (Some (pd.num 10)) (Some (pd.num 100)) 1 999 1.

(** A sale whose customer cell is not a number. *)
Definition venta_texto : Venta.t :=
  Venta.mk (Some 5) (Some enero_15) (Some (pd.text "C-10"))
    (Some (pd.num 100)) 1 10 1.

(** A sale whose customer number is 2^63, one past the largest int64. *)
Definition venta_grande : Venta.t :=
  Venta.mk (Some 6) (Some enero_15) (Some (pd.num 9223372036854775808))
    (Some (pd.num 100)) 1 10 1.

(** The same sale line read twice from the file. *)
Definition ventas_repetidas : list Venta.t := [venta_1; venta_1].

Definition cliente_10 : Cliente.t :=
  Cliente.mk (Some 10) (Some "ACME") (Some "Retail") (Some "North")
    (Some "Bogota") None.

(** A customer whose region is literally called "Todos". *)
Definition cliente_11 : Cliente.t :=
  Cliente.mk (Some 11) (Some "Beta") (Some "Mayorista") (Some "Todos")
    (Some "Cali") None.

Definition cliente_10_bis : Cliente.t :=
  Cliente.mk (Some 10) (Some "ACME bis") (Some "Retail") (Some "South")
    (Some "Pasto") None.

Definition cliente_sin_id : Cliente.t :=
  Cliente.mk None (Some "Gamma") None None None None.

Definition producto_100 : Producto.t :=
  Producto.mk (Some 100) (Some "SKU-100") (Some "Herramientas") None None
    (Some "Taladro").

Definition documento_mora : Cartera.t :=
  Cartera.mk (Some 1) (Some 10) (Some enero_15) None (Some "En mora") 500.

Definition documento_vigente : Cartera.t :=
  Cartera.mk (Some 2) (Some 11) (Some febrero_3) None (Some "Vigente") 300.

Definition inventario_1 : Inventario.t :=
  Inventario.mk (Some enero_15) (Some "Bogota") 1000.

Definition inventario_2 : Inventario.t :=
  Inventario.mk (Some febrero_3) (Some "Bogota") 1500.

Definition inventario_3 : Inventario.t :=
  Inventario.mk (Some febrero_20) None 40.

Definition importacion_1 : Importacion.t :=
  Importacion.mk (Some enero_15) (Some febrero_3) (Some "China") 1200.

Definition csv : Csv.t :=
  Csv.mk [cliente_sin_id; cliente_10; cliente_11; cliente_10_bis]
    [producto_100]
    [venta_1; venta_2; venta_sin_fecha; venta_3]
    [inventario_1; inventario_2; inventario_3]
    [importacion_1]
    [documento_mora; documento_vigente].

(** The tables of a set of files on which [load_data] returns. *)
Definition loaded (csv : Csv.t) : Data.t :=
  match load_data csv with
  | Ok data => data
  | Raise _ => Data.mk [] [] [] [] [] [] [] pd.object
  end.

Definition data : Data.t := loaded csv.

(** The first enriched row: a January sale to a customer of region North. *)
Definition fila_1 : VentaExt.t :=
  VentaExt.mk venta_1 (ClienteCols.of_row cliente_10)
    (ProductoCols.of_row producto_100) (Some 2024) "2024-01".

(** The third enriched row: its customer and product are unknown. *)
Definition fila_3 : VentaExt.t :=
  VentaExt.mk venta_3 ClienteCols.nulls ProductoCols.nulls (Some 2024) "2024-02".

(** A second set of files, in which no region is called "Todos": the
    customer of the second sale is unknown. *)
Definition cliente_12 : Cliente.t :=
  Cliente.mk (Some 12) (Some "Delta") (Some "Retail") (Some "South")
    (Some "Cali") None.

Definition csv_sur : Csv.t :=
  Csv.mk [cliente_10; cliente_12; cliente_10_bis] [producto_100]
    [venta_1; venta_2; venta_3]
    [inventario_1; inventario_2; inventario_3]
    [importacion_1]
    [documento_mora].

Definition data_sur : Data.t := loaded csv_sur.

(** The second enriched row of [data_sur]: the sale of customer 12. *)
Definition fila_sur : VentaExt.t :=
  VentaExt.mk venta_3 (ClienteCols.of_row cliente_12) ProductoCols.nulls
    (Some 2024) "2024-02".

(** Files in which the only sale line has no date: the sales table is
    empty after cleaning. *)
Definition csv_sin_ventas : Csv.t :=
  Csv.mk [cliente_10] [producto_100] [venta_sin_fecha]
    [inventario_1; inventario_2] [importacion_1] [documento_mora].

Definition data_sin_ventas : Data.t := loaded csv_sin_ventas.

(** Files whose latest date is that of a sale made at 14:30, the only
    sale of region South. *)
Definition cliente_11_sur : Cliente.t :=
  Cliente.mk (Some 11) (Some "Beta") (Some "Mayorista") (Some "South")
    (Some "Cali") None.

Definition csv_tarde : Csv.t :=
  Csv.mk [cliente_10; cliente_11_sur] [producto_100]
    [venta_1; venta_2]
    [inventario_1] [importacion_1] [documento_mora].

Definition data_tarde : Data.t := loaded csv_tarde.

(** Files whose sales carry a day and no time of day. *)
Definition csv_dias : Csv.t :=
  Csv.mk [cliente_10; cliente_12] [producto_100]
    [venta_1; venta_3]
    [inventario_1] [importacion_1] [documento_mora].

Definition data_dias : Data.t := loaded csv_dias.

(** Files of which one has only its header line. *)
Definition csv_sin_inventario : Csv.t :=
  Csv.mk [cliente_10] [producto_100] [venta_1] [] [importacion_1]
    [documento_mora].

Definition csv_sin_lineas : Csv.t :=
  Csv.mk [cliente_10] [producto_100] [] [inventario_1] [importacion_1]
    [documento_mora].

(** The months and subtotals of three filtered sales whose subtotals have
    decimals. *)
Definition ventas_decimales : list (string * float) :=
  [("2024-01", 0.1%float); ("2024-02", 0.2%float); ("2024-02", 0.3%float)].

(** The selection the page starts with on [csv]. *)
Definition todo : Seleccion.t := por_defecto enero_15 febrero_20.

Definition enero_north : Seleccion.t :=
  Seleccion.mk (pd.date 2024 1 1) (pd.date 2024 1 31) "North" "Todos".

Definition enero_south : Seleccion.t :=
  Seleccion.mk (pd.date 2024 1 1) (pd.date 2024 1 31) "South" "Todos".

Definition rango_vacio : Seleccion.t :=
  Seleccion.mk (pd.date 2024 3 1) (pd.date 2024 1 1) "Todos" "Todos".
End Sample.

(** ** Facts about the order of timestamps *)

Lemma ts_compare_refl a : ts_compare a a = Eq.
Proof. unfold ts_compare. by rewrite !Z.compare_refl. Qed.

Lemma ts_leb_refl a : ts_leb a a = true.
Proof. unfold ts_leb. by rewrite ts_compare_refl. Qed.

Ltac ts_cases :=
  unfold ts_leb, ts_ltb, ts_compare;
  repeat match goal with
         | |- context [?x ?= ?y] => destruct (Z.compare_spec x y)
         | H : context [?x ?= ?y] |- _ => destruct (Z.compare_spec x y)
         end;
  try done; try lia.

Lemma ts_leb_trans a b c : ts_leb a b = true → ts_leb b c = true → ts_leb a c = true.
Proof. ts_cases. Qed.

Lemma ts_leb_total a b : ts_leb a b = true ∨ ts_leb b a = true.
Proof. ts_cases; auto. Qed.

Lemma ts_ltb_not_leb a b : ts_ltb a b = true → ts_leb b a = false.
Proof. ts_cases. Qed.

Lemma ts_ltb_leb a b : ts_ltb a b = true → ts_leb a b = true.
Proof. ts_cases. Qed.

Lemma ts_leb_false a b : ts_leb a b = false → ts_leb b a = true.
Proof. ts_cases. Qed.

(** ** Boolean indexing *)

Section loc_facts.
Context {A : Type}.
Implicit Types (m : list bool) (t : list A) (p q : A → bool).

Lemma loc_nil_r m : pd.loc m (@nil A) = [].
Proof. by destruct m. Qed.

Lemma loc_sublist m t : pd.loc m t `sublist_of` t.
Proof.
  revert m. induction t as [|r t IH]; intros [|[] m]; csimpl;
    try constructor; auto using sublist_nil_l.
Qed.

Lemma loc_fmap {B} (f : A → B) m t : f <$> pd.loc m t = pd.loc m (f <$> t).
Proof.
  revert m. induction t as [|r t IH]; intros [|[] m]; csimpl; try done;
    by rewrite IH.
Qed.

Lemma loc_all p t : Forall (λ r, p r = true) t → pd.loc (p <$> t) t = t.
Proof. induction 1 as [|r t Hr _ IH]; csimpl; [done|]. by rewrite Hr, IH. Qed.

Lemma loc_none p t : Forall (λ r, p r = false) t → pd.loc (p <$> t) t = [].
Proof. induction 1 as [|r t Hr _ IH]; csimpl; [done|]. by rewrite Hr. Qed.

Lemma loc_Forall p t : Forall (λ r, p r = true) (pd.loc (p <$> t) t).
Proof.
  induction t as [|r t IH]; csimpl; [constructor|].
  destruct (p r) eqn:Hr; [constructor|]; done.
Qed.

Lemma elem_of_loc p t r : r ∈ pd.loc (p <$> t) t ↔ r ∈ t ∧ p r = true.
Proof.
  induction t as [|x t IH]; csimpl.
  { rewrite elem_of_nil. tauto. }
  destruct (p x) eqn:Hx; rewrite ?elem_of_cons, IH.
  - split; [intros [->|[??]]; auto|intros [[->|?] ?]; auto].
  - split; [intros [??]; auto|intros [[->|?] ?]; [congruence|auto]].
Qed.

Lemma mask_and_map p q t :
  pd.mask_and (p <$> t) (q <$> t) = (λ r, p r && q r) <$> t.
Proof. unfold pd.mask_and. induction t; csimpl; [done|]. by f_equal. Qed.

(** A row-wise mask keeps exactly the rows it is true of. *)
Lemma keeps_exactly_loc p (keep : A → Prop) t :
  (∀ r, p r = true ↔ keep r) →
  keeps_exactly (λ _ r, keep r) t (pd.loc (p <$> t) t).
Proof.
  intros Hp. exists (p <$> t). split; [by rewrite length_fmap|]. split; [done|].
  intros i r Hi. rewrite list_lookup_fmap, Hi. csimpl.
  rewrite <- Hp. split; [by intros [= ->]|by intros ->].
Qed.

(** Selecting with [p] what a mask [m] left is one selection on [t]. *)
Lemma loc_loc p m t :
  pd.loc (p <$> pd.loc m t) (pd.loc m t)
  = pd.loc (zip_with (λ b r, b && p r) m t) t.
Proof.
  revert m. induction t as [|r t IH]; intros [|[] m]; csimpl; try done.
  destruct (p r); by rewrite IH.
Qed.

Lemma dropna_idemp p t : pd.dropna p (pd.dropna p t) = pd.dropna p t.
Proof. unfold pd.dropna. apply loc_all, loc_Forall. Qed.
End loc_facts.

(** ** Duplicates *)

Section duplicates_facts.
Context {A K : Type} `{Countable K}.
Implicit Types (ks : list K) (seen : gset K) (key : A → K).

Lemma length_duplicated_from seen ks :
  length (pd.duplicated_from seen ks) = length ks.
Proof. revert seen. induction ks; intros; csimpl; [done|]. by f_equal. Qed.

(** The mark of row [i]: its key is in [seen] or in an earlier row. *)
Lemma duplicated_from_lookup seen ks i k :
  ks !! i = Some k →
  ∃ b, pd.duplicated_from seen ks !! i = Some b
       ∧ (b = true ↔ k ∈ seen ∨ ∃ j, (j < i)%nat ∧ ks !! j = Some k).
Proof.
  revert seen i. induction ks as [|k0 ks IH]; intros seen [|i] Hi;
    simplify_eq/=.
  - eexists. split; [done|]. rewrite bool_decide_eq_true. split; [auto|].
    intros [?|(j & ? & _)]; [done|lia].
  - destruct (IH ({[k0]} ∪ seen) _ Hi) as (b & -> & Hb).
    exists b. split; [done|]. rewrite Hb.
    rewrite elem_of_union, elem_of_singleton. split.
    + intros [[->|?]|(j & ? & ?)];
        [right; exists 0%nat|by left|right; exists (S j)];
        split; try done; lia.
    + intros [?|([|j] & ? & ?)]; simplify_eq/=;
        [by left; right|by left; left|].
      right. exists j. split; [lia|done].
Qed.

(** What [drop_duplicates] leaves has pairwise distinct keys, none of
    them seen before. *)
Lemma loc_duplicated_from_NoDup seen ks :
  let out := pd.loc (negb <$> pd.duplicated_from seen ks) ks in
  NoDup out ∧ ∀ k, k ∈ out → k ∉ seen.
Proof.
  revert seen. induction ks as [|k ks IH]; intros seen; csimpl.
  { split; [constructor|set_solver]. }
  destruct (IH ({[k]} ∪ seen)) as [Hnd Hseen].
  case_bool_decide; csimpl.
  - split; [done|]. intros k' Hk'. apply Hseen in Hk'.
    intros Hin. apply Hk', elem_of_union. by right.
  - split.
    + constructor; [|done]. intros Hk. apply Hseen in Hk.
      apply Hk, elem_of_union. left. by apply elem_of_singleton.
    + intros k' [->|Hk']%elem_of_cons; [done|]. apply Hseen in Hk'.
      intros Hin. apply Hk', elem_of_union. by right.
Qed.

Lemma drop_duplicates_NoDup key (t : list A) :
  NoDup (key <$> pd.drop_duplicates key t).
Proof.
  unfold pd.drop_duplicates. rewrite loc_fmap.
  apply (loc_duplicated_from_NoDup ∅).
Qed.

(** Nothing is marked in a frame whose keys are distinct and new. *)
Lemma loc_duplicated_from_id seen (t : list A) key :
  NoDup (key <$> t) → (∀ k, k ∈ key <$> t → k ∉ seen) →
  pd.loc (negb <$> pd.duplicated_from seen (key <$> t)) t = t.
Proof.
  revert seen. induction t as [|r t IH]; intros seen Hnd Hseen; [done|].
  csimpl in *. apply NoDup_cons in Hnd as [Hr Hnd].
  rewrite bool_decide_eq_false_2 by (apply Hseen; left). csimpl. f_equal.
  apply IH; [done|]. intros k Hk.
  rewrite elem_of_union, elem_of_singleton. intros [->|Hin]; [done|].
  by apply (Hseen k); [right|].
Qed.

Lemma drop_duplicates_id key (t : list A) :
  NoDup (key <$> t) → pd.drop_duplicates key t = t.
Proof. intros. apply loc_duplicated_from_id; [done|set_solver]. Qed.
End duplicates_facts.

(** ** Cleaning *)

Lemma notna_true {T} (c : option T) : pd.notna c = true ↔ c ≠ None.
Proof. destruct c; simpl; split; congruence. Qed.

Lemma ventas_completa_spec v : ventas_completa v = true ↔ venta_con_clave v.
Proof.
  unfold ventas_completa, venta_con_clave.
  rewrite !andb_true_iff, !notna_true. tauto.
Qed.

Lemma cartera_completa_spec d : cartera_completa d = true ↔ cartera_con_clave d.
Proof.
  unfold cartera_completa, cartera_con_clave.
  rewrite !andb_true_iff, !notna_true. tauto.
Qed.

Section clean_facts.
Context {A K : Type} `{Countable K}.
Variables (key : A → K) (complete : A → bool).

(** [drop_duplicates] then [dropna]: the first row of each key, when its
    key cells are not null. *)
Lemma clean_keeps (keep : A → Prop) :
  (∀ r, complete r = true ↔ keep r) →
  drops_nulls_and_duplicates key keep (limpiar_por_clave key complete).
Proof.
  intros Hkeep t. unfold limpiar_por_clave, pd.dropna, pd.drop_duplicates.
  rewrite loc_loc.
  set (m := negb <$> pd.duplicated (key <$> t)).
  assert (length m = length t) as Hm.
  { unfold m, pd.duplicated.
    by rewrite length_fmap, length_duplicated_from, length_fmap. }
  exists (zip_with (λ b r, b && complete r) m t). split; [|split; [done|]].
  { rewrite length_zip_with. lia. }
  intros i r Hi. rewrite lookup_zip_with, Hi.
  destruct (duplicated_from_lookup ∅ (key <$> t) i (key r)) as (b & Hb & Hdup).
  { by rewrite list_lookup_fmap, Hi. }
  unfold m. rewrite list_lookup_fmap. unfold pd.duplicated. rewrite Hb. simpl.
  rewrite <- Hkeep. unfold first_occurrence. split.
  - intros [= [Hnb Hc]%andb_true_iff]. split; [done|].
    intros j r' Hj Hr' Heq. destruct b; [done|].
    assert (false = true) as Hf; [|done]. apply Hdup. right. exists j.
    split; [done|]. by rewrite list_lookup_fmap, Hr', <- Heq.
  - intros [Hc Hfirst]. rewrite Hc, andb_true_r. do 2 f_equal.
    destruct b; [|done]. exfalso.
    destruct Hdup as [[Hseen|(j & Hj & Hkj)] _]; [done|set_solver|].
    rewrite list_lookup_fmap in Hkj.
    destruct (t !! j) as [r'|] eqn:Hr'; simplify_eq/=.
    by eapply Hfirst.
Qed.

Lemma clean_idemp t :
  limpiar_por_clave key complete (limpiar_por_clave key complete t)
  = limpiar_por_clave key complete t.
Proof.
  unfold limpiar_por_clave at 1. rewrite drop_duplicates_id.
  - apply dropna_idemp.
  - eapply sublist_NoDup; [apply (drop_duplicates_NoDup key t)|].
    apply fmap_sublist, loc_sublist.
Qed.

Lemma clean_NoDup t : NoDup (key <$> limpiar_por_clave key complete t).
Proof.
  eapply sublist_NoDup; [apply (drop_duplicates_NoDup key t)|].
  apply fmap_sublist, loc_sublist.
Qed.
End clean_facts.

Lemma dropna_keeps {A} (complete : A → bool) (keep : A → Prop) :
  (∀ r, complete r = true ↔ keep r) →
  drops_nulls_only keep (pd.dropna complete).
Proof. intros Hk t. by apply keeps_exactly_loc. Qed.

(** C3 (as the code has it): cleaning keeps, in input order, exactly the
    first row of each non-null key for Customer (key [cliente_id]) and
    Product (key [producto_id]); for Sale and ReceivableDocument it keeps
    exactly the rows with no null key cell, and so keeps a row that repeats
    the key of an earlier row. *)
Theorem limpieza_keeps :
  drops_nulls_and_duplicates Cliente.cliente_id cliente_con_clave limpiar_clientes
  ∧ drops_nulls_and_duplicates Producto.producto_id producto_con_clave
      limpiar_productos
  ∧ drops_nulls_only venta_con_clave limpiar_ventas
  ∧ drops_nulls_only cartera_con_clave limpiar_cartera.
Proof.
  split; [|split; [|split]].
  - apply clean_keeps. intros c. apply notna_true.
  - apply clean_keeps. intros p. apply notna_true.
  - apply dropna_keeps, ventas_completa_spec.
  - apply dropna_keeps, cartera_completa_spec.
Qed.

(** C3 (counterexample): a Sale table holding the same complete row twice
    comes out of cleaning unchanged, so the second row, which repeats the
    key of the first, is not dropped. *)
Lemma limpiar_ventas_keeps_duplicates :
  limpiar_ventas Sample.ventas_repetidas = Sample.ventas_repetidas
  ∧ ¬ keeps_exactly
        (λ i r, venta_con_clave r
                ∧ first_occurrence venta_key Sample.ventas_repetidas i r)
        Sample.ventas_repetidas (limpiar_ventas Sample.ventas_repetidas).
Proof.
  split; [reflexivity|].
  intros (m & Hlen & Hout & Hm).
  destruct m as [|b0 [|b1 [|? ?]]]; try discriminate Hlen.
  destruct b1.
  - destruct (Hm 1%nat Sample.venta_1 eq_refl) as [Hfirst _].
    destruct (Hfirst eq_refl) as [_ Hocc].
    by apply (Hocc 0%nat Sample.venta_1); [lia| |].
  - destruct b0; discriminate Hout.
Qed.

(** C9: cleaning a cleaned table changes nothing, for each of the four
    tables that are cleaned. *)
Theorem limpieza_idempotent :
  (∀ t, limpiar_clientes (limpiar_clientes t) = limpiar_clientes t)
  ∧ (∀ t, limpiar_productos (limpiar_productos t) = limpiar_productos t)
  ∧ (∀ t, limpiar_ventas (limpiar_ventas t) = limpiar_ventas t)
  ∧ (∀ t, limpiar_cartera (limpiar_cartera t) = limpiar_cartera t).
Proof.
  split; [|split; [|split]]; intros t.
  - apply clean_idemp.
  - apply clean_idemp.
  - apply dropna_idemp.
  - apply dropna_idemp.
Qed.

(** ** Left joins on a unique key *)

Section merge_facts.
Context {L R K O : Type} `{EqDecision K}.
Variables (keyL : L → K) (keyR : R → K) (join : L → option R → O).

(** At most one row of [right] has a given key when the keys of [right]
    are pairwise distinct. *)
Lemma filter_key_unique (right : list R) k :
  NoDup (keyR <$> right) →
  filter (λ r, keyR r = k) right = []
  ∨ ∃ r, filter (λ r, keyR r = k) right = [r].
Proof.
  induction right as [|r right IH]; intros Hnd; [by left|].
  simpl in Hnd. apply NoDup_cons in Hnd as [Hr Hnd].
  rewrite filter_cons. destruct (decide (keyR r = k)) as [Hk|Hk]; [|auto].
  right. exists r. f_equal. destruct (IH Hnd) as [Hnil|[r' Hr']]; [done|].
  exfalso. apply Hr. rewrite Hk.
  assert (r' ∈ filter (λ r, keyR r = k) right) as Hin by (rewrite Hr'; left).
  apply list_elem_of_filter in Hin as [<- Hin]. by apply list_elem_of_fmap_2.
Qed.

Lemma merge_left_unique (left : list L) (right : list R) :
  NoDup (keyR <$> right) →
  pd.merge_left keyL keyR join left right
  = (λ l, join l (matched keyL keyR right l)) <$> left.
Proof.
  intros Hnd. unfold pd.merge_left, matched.
  induction left as [|l left IH]; [done|].
  rewrite bind_cons, fmap_cons, IH.
  by destruct (filter_key_unique right (keyL l) Hnd) as [->|[r ->]].
Qed.

Lemma matched_None (right : list R) l :
  keyL l ∉ keyR <$> right → matched keyL keyR right l = None.
Proof.
  intros Hnot. unfold matched.
  destruct (filter _ right) as [|r rest] eqn:Hf; [done|].
  exfalso. apply Hnot.
  assert (r ∈ filter (λ r, keyR r = keyL l) right) as Hin by (rewrite Hf; left).
  apply list_elem_of_filter in Hin as [<- Hin]. by apply list_elem_of_fmap_2.
Qed.

Lemma matched_Some (right : list R) l r :
  NoDup (keyR <$> right) → r ∈ right → keyR r = keyL l →
  matched keyL keyR right l = Some r.
Proof.
  intros Hnd Hin Hk. unfold matched.
  assert (r ∈ filter (λ r, keyR r = keyL l) right) as Hf
    by by apply list_elem_of_filter.
  destruct (filter_key_unique right (keyL l) Hnd) as [Hnil|[r' Hr']].
  - rewrite Hnil in Hf. by apply elem_of_nil in Hf.
  - rewrite Hr' in Hf |- *. by apply list_elem_of_singleton in Hf as ->.
Qed.
End merge_facts.

Global Instance as_id_inj : Inj (=) (=) pd.as_id.
Proof. intros [x|] [y|]; unfold pd.as_id; simpl; congruence. Qed.

Lemma NoDup_as_id {A} (key : A → option Z) (t : list A) :
  NoDup (key <$> t) → NoDup ((λ r, pd.as_id (key r)) <$> t).
Proof.
  intros Hnd. rewrite (list_fmap_compose key pd.as_id).
  by apply (NoDup_fmap_2 _).
Qed.

Lemma enriquecer_unique ventas clientes productos :
  NoDup (Cliente.cliente_id <$> clientes) →
  NoDup (Producto.producto_id <$> productos) →
  enriquecer ventas clientes productos
  = enriquecer_fila clientes productos <$> ventas.
Proof.
  intros Hc%NoDup_as_id Hp%NoDup_as_id. unfold enriquecer.
  rewrite (merge_left_unique _ _ _ _ clientes Hc).
  rewrite (merge_left_unique _ _ _ _ productos Hp).
  rewrite <- !list_fmap_compose. done.
Qed.

(** ** The casts and the outcome of [load_data] *)

Lemma mapM_cons_result {A B} (f : A → result B) x l :
  mapM f (x :: l) = y ← f x; k ← mapM f l; Ok (y :: k).
Proof. done. Qed.

Lemma astype_int_Ok {A} (col : A → option pd.id_cell) assign (df : list A) :
  Forall (λ r, es_numero (col r) = true) df →
  pd.astype_int col assign df
  = Ok ((λ r, assign r (int64_id (col r))) <$> df).
Proof.
  unfold pd.astype_int. induction 1 as [|r df Hr _ IH]; [done|].
  rewrite mapM_cons_result, IH. csimpl.
  by destruct (col r) as [[z|?]|] eqn:E.
Qed.

Lemma astype_int_Raise {A} (col : A → option pd.id_cell) assign (df : list A) :
  ¬ Forall (λ r, es_numero (col r) = true) df →
  pd.astype_int col assign df = Raise ValueError.
Proof.
  unfold pd.astype_int. induction df as [|r df IH]; intros Hno.
  - by destruct Hno.
  - rewrite mapM_cons_result.
    destruct (col r) as [[z|?]|] eqn:Hr; try done. simpl.
    rewrite IH; [done|]. intros Hall. apply Hno. constructor; [|done].
    by rewrite Hr.
Qed.

Lemma limpiar_ventas_completas ventas :
  Forall (λ v, ventas_completa v = true) (limpiar_ventas ventas).
Proof. apply loc_Forall. Qed.

Lemma forallb_Forall {A} (f : A → bool) (l : list A) :
  forallb f l = true ↔ Forall (λ x, f x = true) l.
Proof.
  induction l as [|x l IH]; simpl; [by split|].
  rewrite andb_true_iff, IH, Forall_cons. done.
Qed.

Lemma ids_numericos_Forall ventas :
  Forall (λ v, ids_numericos v = true) ventas ↔
  Forall (λ v, es_numero (Venta.cliente_id v) = true) ventas
  ∧ Forall (λ v, es_numero (Venta.producto_id v) = true) ventas.
Proof.
  rewrite <- Forall_and. apply Forall_proper; [|done].
  intros v. unfold ids_numericos. by rewrite andb_true_iff.
Qed.

(** [load_data] raises ValueError when a complete sale line has an
    identifier that is not a number, and AttributeError when the sales file
    has no line; otherwise it returns [tablas]. *)
Lemma load_data_outcome csv :
  load_data csv
  = if forallb ids_numericos (limpiar_ventas (Csv.ventas_andina csv))
    then match Csv.ventas_andina csv with
         | [] => Raise AttributeError
         | _ :: _ => Ok (tablas csv)
         end
    else Raise ValueError.
Proof.
  unfold load_data.
  destruct (forallb _ _) eqn:Hids.
  - apply forallb_Forall, ids_numericos_Forall in Hids as [Hc Hp].
    rewrite astype_int_Ok by done. csimpl.
    rewrite astype_int_Ok.
    2:{ apply Forall_fmap. eapply Forall_impl; [exact Hp|]. by intros v. }
    csimpl. rewrite <- list_fmap_compose.
    destruct (Csv.ventas_andina csv) as [|v0 vs] eqn:Hv; [done|]. csimpl.
    unfold tablas. rewrite Hv.
    rewrite enriquecer_unique; [done| |]; apply clean_NoDup.
  - assert (¬ Forall (λ v, ids_numericos v = true)
                (limpiar_ventas (Csv.ventas_andina csv))) as Hno.
    { rewrite <- forallb_Forall. by rewrite Hids. }
    rewrite ids_numericos_Forall in Hno.
    destruct (decide (Forall (λ v, es_numero (Venta.cliente_id v) = true)
                        (limpiar_ventas (Csv.ventas_andina csv)))) as [Hc|Hc].
    + rewrite astype_int_Ok by done. csimpl.
      rewrite astype_int_Raise; [done|].
      intros Hp. apply Hno. split; [done|].
      apply Forall_fmap in Hp. eapply Forall_impl; [exact Hp|]. by intros v.
    + by rewrite astype_int_Raise.
Qed.

Lemma load_data_Ok csv data :
  load_data csv = Ok data ↔
  Csv.ventas_andina csv ≠ []
  ∧ Forall (λ v, ids_numericos v = true)
      (limpiar_ventas (Csv.ventas_andina csv))
  ∧ data = tablas csv.
Proof.
  rewrite load_data_outcome, <- forallb_Forall.
  destruct (forallb _ _); [|by split; [|intros (_ & ? & _)]].
  destruct (Csv.ventas_andina csv); [by split; [|intros (? & _)]|].
  split; [by intros [= <-]|by intros (_ & _ & ->)].
Qed.

(** ** The filter mask *)

Lemma sentinel_mask (m : bool) (sel_value : string) (c : option string) :
  (if bool_decide (sel_value ≠ "Todos")
   then m && match c with Some x => bool_decide (x = sel_value) | None => false end
   else m) = true
  ↔ m = true ∧ (sel_value = "Todos" ∨ c = Some sel_value).
Proof.
  case_bool_decide as Hsel.
  - rewrite andb_true_iff. destruct c as [x|].
    + rewrite bool_decide_eq_true. split.
      * intros [? ->]. auto.
      * intros [? [?|[= ->]]]; done.
    + split; [intros [_ ?]; done|intros [_ [?|?]]; done].
  - destruct (decide (sel_value = "Todos")) as [->|Hne]; [|done].
    split; [auto|by intros [? _]].
Qed.

Lemma rango_mask (desde hasta : Timestamp) (c : option Timestamp) :
  match c with Some x => ts_leb desde x | None => false end
  && match c with Some x => ts_leb x hasta | None => false end = true
  ↔ ∃ t, c = Some t ∧ ts_le desde t ∧ ts_le t hasta.
Proof.
  unfold ts_le. destruct c as [x|]; simpl.
  - rewrite andb_true_iff. split; [intros [??]; eauto|].
    by intros (t & [= <-] & ? & ?).
  - split; [done|]. by intros (t & [= ] & _).
Qed.

Lemma fila_mask_spec sel e : fila_mask sel e = true ↔ cumple sel e.
Proof.
  unfold fila_mask, cumple, en_rango, cumple_region, cumple_segmento.
  cbv zeta. rewrite !sentinel_mask, rango_mask. tauto.
Qed.

Lemma mask_rows ve sel : mask ve sel = fila_mask sel <$> ve.
Proof.
  unfold mask, fila_mask, pd.ge_ts, pd.le_ts, pd.eq_str.
  rewrite <- !list_fmap_compose.
  repeat case_bool_decide; rewrite !mask_and_map; by apply list_fmap_ext.
Qed.

Lemma ventas_f_loc ve sel : ventas_f ve sel = pd.loc (fila_mask sel <$> ve) ve.
Proof. unfold ventas_f. by rewrite mask_rows. Qed.

Lemma elem_of_ventas_f ve sel e : e ∈ ventas_f ve sel ↔ e ∈ ve ∧ cumple sel e.
Proof. by rewrite ventas_f_loc, elem_of_loc, fila_mask_spec. Qed.

Lemma ventas_f_all ve sel : Forall (cumple sel) ve → ventas_f ve sel = ve.
Proof.
  intros Hall. rewrite ventas_f_loc. apply loc_all.
  eapply Forall_impl; [done|]. intros e. by rewrite fila_mask_spec.
Qed.

Lemma ventas_f_none ve sel : (∀ e, e ∈ ve → ¬ cumple sel e) → ventas_f ve sel = [].
Proof.
  intros Hno. rewrite ventas_f_loc. apply loc_none, Forall_forall.
  intros e He. apply not_true_is_false. rewrite fila_mask_spec. by apply Hno.
Qed.

(** ** The default date range *)

Lemma series_min_None s : pd.series_min s = None → Forall (λ c, c = None) s.
Proof.
  induction s as [|[x|] s IH]; csimpl; intros Hs; [constructor| |by constructor; auto].
  by destruct (pd.series_min s).
Qed.

Lemma series_min_le s m t :
  pd.series_min s = Some m → Some t ∈ s → ts_le m t.
Proof.
  unfold ts_le. revert m. induction s as [|c s IH]; intros m Hs Hin.
  { by apply elem_of_nil in Hin. }
  csimpl in Hs. apply elem_of_cons in Hin as [<-|Hin].
  - destruct (pd.series_min s) as [m'|]; simplify_eq/=; [|apply ts_leb_refl].
    unfold pd.ts_min. destruct (ts_leb t m') eqn:Hle; [apply ts_leb_refl|].
    by apply ts_leb_false.
  - destruct c as [x|]; [|by apply IH].
    destruct (pd.series_min s) as [m'|] eqn:Hm'; simplify_eq/=.
    + unfold pd.ts_min. destruct (ts_leb x m') eqn:Hle; [|by apply IH].
      eapply ts_leb_trans; [done|]. by apply IH.
    + apply series_min_None in Hm'. eapply Forall_forall in Hm'; [|done]. done.
Qed.

Lemma series_max_None s : pd.series_max s = None → Forall (λ c, c = None) s.
Proof.
  induction s as [|[x|] s IH]; csimpl; intros Hs; [constructor| |by constructor; auto].
  by destruct (pd.series_max s).
Qed.

Lemma series_max_le s m t :
  pd.series_max s = Some m → Some t ∈ s → ts_le t m.
Proof.
  unfold ts_le. revert m. induction s as [|c s IH]; intros m Hs Hin.
  { by apply elem_of_nil in Hin. }
  csimpl in Hs. apply elem_of_cons in Hin as [<-|Hin].
  - destruct (pd.series_max s) as [m'|]; simplify_eq/=; [|apply ts_leb_refl].
    unfold pd.ts_max. destruct (ts_leb t m') eqn:Hle; [done|apply ts_leb_refl].
  - destruct c as [x|]; [|by apply IH].
    destruct (pd.series_max s) as [m'|] eqn:Hm'; simplify_eq/=.
    + unfold pd.ts_max. destruct (ts_leb x m') eqn:Hle; [by apply IH|].
      eapply ts_leb_trans; [by apply IH|]. by apply ts_leb_false.
    + apply series_max_None in Hm'. eapply Forall_forall in Hm'; [|done]. done.
Qed.

Lemma min_fechas_None xs : min_fechas None xs = None.
Proof.
  unfold min_fechas. induction xs as [|y xs IH]; [done|]. simpl.
  replace (lt_fechas y None) with false by by destruct y. done.
Qed.

Lemma min_fechas_le m xs : ∃ lo, min_fechas (Some m) xs = Some lo ∧ ts_le lo m.
Proof.
  unfold min_fechas, ts_le. revert m. induction xs as [|y xs IH]; intros m; simpl.
  { exists m. split; [done|apply ts_leb_refl]. }
  destruct y as [y|]; simpl; [|apply IH].
  destruct (ts_ltb y m) eqn:Hlt; [|apply IH].
  destruct (IH y) as (lo & -> & Hlo). exists lo. split; [done|].
  eapply ts_leb_trans; [done|]. by apply ts_ltb_leb.
Qed.

Lemma max_fechas_None xs : max_fechas None xs = None.
Proof. unfold max_fechas. induction xs as [|y xs IH]; [done|]. done. Qed.

Lemma max_fechas_le m xs : ∃ hi, max_fechas (Some m) xs = Some hi ∧ ts_le m hi.
Proof.
  unfold max_fechas, ts_le. revert m. induction xs as [|y xs IH]; intros m; simpl.
  { exists m. split; [done|apply ts_leb_refl]. }
  destruct y as [y|]; simpl; [|apply IH].
  destruct (ts_ltb m y) eqn:Hlt; [|apply IH].
  destruct (IH y) as (hi & -> & Hhi). exists hi. split; [done|].
  eapply ts_leb_trans; [|done]. by apply ts_ltb_leb.
Qed.

(** [py_min] and [py_max] on datetime columns, and with a column of dtype
    object among them. *)
Lemma py_lt_fechas a b :
  py_lt (pd.of_datetime a) (pd.of_datetime b) = Ok (lt_fechas a b).
Proof. by destruct a, b. Qed.

Lemma py_min_fechas x xs :
  py_min (pd.of_datetime x) (pd.of_datetime <$> xs)
  = Ok (pd.of_datetime (min_fechas x xs)).
Proof.
  unfold py_min, min_fechas. revert x.
  induction xs as [|y xs IH]; intros x; [done|].
  csimpl. rewrite py_lt_fechas. simpl. destruct (lt_fechas y x); apply IH.
Qed.

Lemma py_max_fechas x xs :
  py_max (pd.of_datetime x) (pd.of_datetime <$> xs)
  = Ok (pd.of_datetime (max_fechas x xs)).
Proof.
  unfold py_max, max_fechas. revert x.
  induction xs as [|y xs IH]; intros x; [done|].
  csimpl. rewrite py_lt_fechas. simpl. destruct (lt_fechas x y); apply IH.
Qed.

Lemma py_lt_typed a b :
  a ≠ pd.nan → b ≠ pd.nan → ∃ lt, py_lt a b = Ok lt.
Proof. destruct a, b; intros ??; try done; by eexists. Qed.

Lemma py_lt_nan_l b : b ≠ pd.nan → py_lt pd.nan b = Raise TypeError.
Proof. by destruct b. Qed.

Lemma py_lt_nan_r a : a ≠ pd.nan → py_lt a pd.nan = Raise TypeError.
Proof. by destruct a. Qed.

Lemma py_min_Raise e xs :
  foldl (λ best y, best ← best; lt ← py_lt y best;
                   Ok (if lt : bool then y else best)) (Raise e) xs
  = Raise e.
Proof. induction xs as [|y xs IH]; [done|]. apply IH. Qed.

Lemma py_max_Raise e xs :
  foldl (λ best y, best ← best; gt ← py_lt best y;
                   Ok (if gt : bool then y else best)) (Raise e) xs
  = Raise e.
Proof. induction xs as [|y xs IH]; [done|]. apply IH. Qed.

Lemma py_min_nan x xs :
  x ≠ pd.nan → pd.nan ∈ xs → py_min x xs = Raise TypeError.
Proof.
  unfold py_min. revert x. induction xs as [|y xs IH]; intros x Hx Hin.
  { by apply elem_of_nil in Hin. }
  csimpl. destruct (decide (y = pd.nan)) as [->|Hy].
  - rewrite py_lt_nan_l by done. apply py_min_Raise.
  - apply elem_of_cons in Hin as [?|Hin]; [done|].
    destruct (py_lt_typed y x Hy Hx) as [lt ->]. simpl.
    apply IH; [by destruct lt|done].
Qed.

Lemma py_max_nan x xs :
  x ≠ pd.nan → pd.nan ∈ xs → py_max x xs = Raise TypeError.
Proof.
  unfold py_max. revert x. induction xs as [|y xs IH]; intros x Hx Hin.
  { by apply elem_of_nil in Hin. }
  csimpl. destruct (decide (y = pd.nan)) as [->|Hy].
  - rewrite py_lt_nan_r by done. apply py_max_Raise.
  - apply elem_of_cons in Hin as [?|Hin]; [done|].
    destruct (py_lt_typed x y Hx Hy) as [gt ->]. simpl.
    apply IH; [by destruct gt|done].
Qed.

Lemma of_datetime_not_nan c : pd.of_datetime c ≠ pd.nan.
Proof. by destruct c. Qed.

Lemma of_datetime_ts c t : pd.of_datetime c = pd.ts t ↔ c = Some t.
Proof. destruct c; simpl; split; congruence. Qed.

Lemma Ok_of_datetime_ts c t :
  Ok (pd.of_datetime c) = Ok (pd.ts t) → c = Some t.
Proof. intros [= H]. by apply of_datetime_ts. Qed.

Lemma read_dtype_datetime64 {A} (rows : list A) :
  pd.read_dtype rows = pd.datetime64 ↔ rows ≠ [].
Proof. by destruct rows. Qed.

Global Instance con_lineas_dec data : Decision (con_lineas data).
Proof.
  unfold con_lineas.
  destruct (Data.fecha_factura_dtype data), (Data.inventario data),
    (Data.importaciones data);
    solve [left; done | right; by intros (? & ? & ?)].
Qed.

(** The default range when every date column is a datetime column, and
    when one is not. *)
Lemma min_date_fechas data :
  con_lineas data →
  min_date data
  = Ok (pd.of_datetime
          (min_fechas (pd.series_min (VentaExt.fecha <$> Data.ventas_ext data))
             [ pd.series_min (Cartera.fecha_factura <$> Data.cartera data);
               pd.series_min (Inventario.fecha_corte <$> Data.inventario data);
               pd.series_min
                 (Importacion.fecha_orden <$> Data.importaciones data) ])).
Proof.
  intros (Hc & Hi%read_dtype_datetime64 & Hm%read_dtype_datetime64).
  unfold min_date. rewrite Hc, Hi, Hm. apply (py_min_fechas _ [_; _; _]).
Qed.

Lemma max_date_fechas data :
  con_lineas data →
  max_date data
  = Ok (pd.of_datetime
          (max_fechas (pd.series_max (VentaExt.fecha <$> Data.ventas_ext data))
             [ pd.series_max (Cartera.fecha_factura <$> Data.cartera data);
               pd.series_max (Inventario.fecha_corte <$> Data.inventario data);
               pd.series_max
                 (Importacion.fecha_orden <$> Data.importaciones data) ])).
Proof.
  intros (Hc & Hi%read_dtype_datetime64 & Hm%read_dtype_datetime64).
  unfold max_date. rewrite Hc, Hi, Hm. apply (py_max_fechas _ [_; _; _]).
Qed.

Lemma min_date_Raise data :
  ¬ con_lineas data → min_date data = Raise TypeError.
Proof.
  intros Hno. unfold min_date.
  apply py_min_nan; [apply of_datetime_not_nan|].
  unfold con_lineas in Hno.
  destruct (Data.fecha_factura_dtype data); [|by left].
  destruct (Data.inventario data); [right; by left|].
  destruct (Data.importaciones data); [right; right; by left|].
  by destruct Hno.
Qed.

Lemma max_date_Raise data :
  ¬ con_lineas data → max_date data = Raise TypeError.
Proof.
  intros Hno. unfold max_date.
  apply py_max_nan; [apply of_datetime_not_nan|].
  unfold con_lineas in Hno.
  destruct (Data.fecha_factura_dtype data); [|by left].
  destruct (Data.inventario data); [right; by left|].
  destruct (Data.importaciones data); [right; right; by left|].
  by destruct Hno.
Qed.

(** The default range covers every dated sale. *)
Lemma min_max_date_cover data lo hi e t :
  min_date data = Ok (pd.ts lo) → max_date data = Ok (pd.ts hi) →
  e ∈ Data.ventas_ext data → VentaExt.fecha e = Some t →
  ts_le lo t ∧ ts_le t hi.
Proof.
  intros Hlo Hhi He Ht.
  destruct (decide (con_lineas data)) as [Hc|Hc];
    [|by rewrite (min_date_Raise _ Hc) in Hlo].
  rewrite (min_date_fechas _ Hc) in Hlo. rewrite (max_date_fechas _ Hc) in Hhi.
  apply Ok_of_datetime_ts in Hlo, Hhi.
  assert (Some t ∈ VentaExt.fecha <$> Data.ventas_ext data) as Hin.
  { rewrite <- Ht. by apply list_elem_of_fmap_2. }
  split.
  - destruct (pd.series_min (VentaExt.fecha <$> Data.ventas_ext data))
      as [m|] eqn:Hm; [|by rewrite min_fechas_None in Hlo].
    destruct (min_fechas_le m
      [pd.series_min (Cartera.fecha_factura <$> Data.cartera data);
       pd.series_min (Inventario.fecha_corte <$> Data.inventario data);
       pd.series_min (Importacion.fecha_orden <$> Data.importaciones data)])
      as (lo' & Hlo' & Hle).
    rewrite Hlo' in Hlo. injection Hlo as ->.
    unfold ts_le in *. eapply ts_leb_trans; [done|].
    by eapply series_min_le.
  - destruct (pd.series_max (VentaExt.fecha <$> Data.ventas_ext data))
      as [m|] eqn:Hm; [|by rewrite max_fechas_None in Hhi].
    destruct (max_fechas_le m
      [pd.series_max (Cartera.fecha_factura <$> Data.cartera data);
       pd.series_max (Inventario.fecha_corte <$> Data.inventario data);
       pd.series_max (Importacion.fecha_orden <$> Data.importaciones data)])
      as (hi' & Hhi' & Hle).
    rewrite Hhi' in Hhi. injection Hhi as ->.
    unfold ts_le in *. eapply ts_leb_trans; [|done].
    by eapply series_max_le.
Qed.

(** Every row [load_data] enriches carries a date, and its derived fields
    come from that date. *)
Lemma int64_id_None c : int64_id c ≠ None ↔ c ≠ None.
Proof. by destruct c as [[z|s]|]. Qed.

Lemma venta_int64_con_clave v :
  venta_con_clave v → venta_con_clave (venta_int64 v).
Proof.
  unfold venta_con_clave. simpl. rewrite !int64_id_None. tauto.
Qed.

Lemma load_data_fecha csv data e :
  load_data csv = Ok data → e ∈ Data.ventas_ext data →
  ∃ v t, v ∈ Csv.ventas_andina csv
         ∧ VentaExt.venta e = venta_int64 v
         ∧ VentaExt.fecha e = Some t
         ∧ Venta.fecha v = Some t
         ∧ VentaExt.anio e = Some (ts_year t)
         ∧ VentaExt.mes e = pd.period_M_str t.
Proof.
  intros (_ & _ & ->)%load_data_Ok. simpl.
  intros (? & -> & (v & -> & Hv)%list_elem_of_fmap)%list_elem_of_fmap.
  unfold limpiar_ventas, pd.dropna in Hv. apply elem_of_loc in Hv as [Hv Hc].
  apply ventas_completa_spec in Hc as (_ & Hf & _).
  destruct (Venta.fecha v) as [t|] eqn:Ht; [|done].
  exists v, t. unfold VentaExt.fecha.
  unfold enriquecer_fila, campos_derivados, join_producto, join_cliente.
  simpl. by rewrite Ht.
Qed.

(** ** The filter *)

Lemma st_date_lo lo t :
  ts_le lo t → ts_nanos t = 0 → ts_le (pd.to_datetime (st_date lo)) t.
Proof.
  unfold ts_le, st_date. simpl. intros Hle Ht. revert Hle.
  ts_cases; simpl in *; first [done | lia].
Qed.

Lemma st_date_hi hi t :
  ts_le t hi → ts_nanos t = 0 → ts_le t (pd.to_datetime (st_date hi)).
Proof.
  unfold ts_le, st_date. simpl. intros Hle Ht. revert Hle.
  ts_cases; simpl in *; first [done | lia].
Qed.

(** X15: the filter returns the rows of the enriched table that satisfy
    the inclusion predicate (dates inclusive at both ends, a date-only
    bound standing for midnight of its day; region and segment only when
    selected), whole and in their original order, and nothing else.  With
    no region or segment selected and a date range that covers the dates
    of the table it returns the whole table; the range the sidebar starts
    with covers them when no sale has a time of day. *)
Theorem ventas_f_mask :
  (∀ ve sel,
     ventas_f ve sel `sublist_of` ve
     ∧ keeps_exactly (λ _ e, cumple sel e) ve (ventas_f ve sel)
     ∧ Forall (cumple sel) (ventas_f ve sel))
  ∧ (∀ ve sel,
       Seleccion.region_sel sel = "Todos" →
       Seleccion.segmento_sel sel = "Todos" →
       Forall (en_rango sel) ve →
       ventas_f ve sel = ve)
  ∧ (∀ csv data lo hi,
       load_data csv = Ok data →
       min_date data = Ok (pd.ts lo) → max_date data = Ok (pd.ts hi) →
       Forall sin_hora (Data.ventas_ext data) →
       ventas_f (Data.ventas_ext data) (por_defecto lo hi)
       = Data.ventas_ext data).
Proof.
  split; [|split].
  - intros ve sel. rewrite ventas_f_loc. split; [apply loc_sublist|]. split.
    + apply keeps_exactly_loc. intros e. apply fila_mask_spec.
    + eapply Forall_impl; [apply loc_Forall|]. intros e. apply fila_mask_spec.
  - intros ve sel Hr Hs Hall. apply ventas_f_all.
    eapply Forall_impl; [done|]. intros e He.
    split; [done|]. split; by left.
  - intros csv data lo hi Hload Hlo Hhi Hdias.
    apply ventas_f_all, Forall_forall.
    intros e He. split; [|split; by left].
    destruct (load_data_fecha _ _ _ Hload He) as (v & t & _ & _ & Hfe & _).
    exists t. split; [done|].
    destruct (min_max_date_cover data lo hi e t) as [Hlot Hthi]; try done.
    eapply Forall_forall in Hdias; [|done].
    split; [apply st_date_lo|apply st_date_hi]; try done; by apply Hdias.
Qed.

Lemma ventas_f_mask_witness :
  ventas_f (Data.ventas_ext Sample.data_dias)
    (por_defecto Sample.enero_15 Sample.febrero_20)
  = Data.ventas_ext Sample.data_dias.
Proof.
  apply (proj2 (proj2 ventas_f_mask) Sample.csv_dias Sample.data_dias
           Sample.enero_15 Sample.febrero_20); try reflexivity.
  repeat (apply Forall_cons_2; [by intros t [= <-]|]). apply Forall_nil_2.
Defined.

(** C2: the identity clause fails.  The date widget hands [main] the two
    days of the default range, and [pd.to_datetime] makes midnight of each
    of them: of files whose latest date is a sale made at 14:30, the
    selection the page starts with, with no region and no segment chosen,
    leaves that sale out of the two the table has; and region South, which
    the region box offers for that sale, gives no sale at all. *)
Theorem ventas_f_omits_last_day :
  load_data Sample.csv_tarde = Ok Sample.data_tarde
  ∧ min_date Sample.data_tarde = Ok (pd.ts Sample.enero_15)
  ∧ max_date Sample.data_tarde = Ok (pd.ts Sample.febrero_3)
  ∧ length (Data.ventas_ext Sample.data_tarde) = 2%nat
  ∧ ventas_f (Data.ventas_ext Sample.data_tarde)
      (por_defecto Sample.enero_15 Sample.febrero_3)
    = [Sample.fila_1]
  ∧ regiones_opciones (Data.ventas_ext Sample.data_tarde)
    = ["Todos"; "North"; "South"]
  ∧ ventas_f (Data.ventas_ext Sample.data_tarde)
      (con_region (por_defecto Sample.enero_15 Sample.febrero_3) "South")
    = [].
Proof. repeat split; reflexivity. Qed.

Lemma elem_of_regiones ve x :
  x ∈ regiones ve ↔ ∃ e, e ∈ ve ∧ VentaExt.region e = Some x.
Proof.
  unfold regiones, pd.sorted.
  by rewrite merge_sort_Permutation, elem_of_remove_dups, list_elem_of_omap.
Qed.

Lemma elem_of_segmentos ve x :
  x ∈ segmentos ve ↔ ∃ e, e ∈ ve ∧ VentaExt.segmento e = Some x.
Proof.
  unfold segmentos, pd.sorted.
  by rewrite merge_sort_Permutation, elem_of_remove_dups, list_elem_of_omap.
Qed.

(** C6: a selection whose start date is after its end date, or that names a
    region or a segment no row has, filters every row out; the KPIs of an
    empty selection are 0 and its grouped summaries are empty, and [main]
    returns them. *)
Theorem filtro_vacio :
  (∀ ve sel,
     ts_ltb (pd.to_datetime (Seleccion.fecha_hasta sel))
            (pd.to_datetime (Seleccion.fecha_desde sel)) = true →
     ventas_f ve sel = [])
  ∧ (∀ ve sel,
       Seleccion.region_sel sel ≠ "Todos" →
       Seleccion.region_sel sel ∉ regiones ve →
       ventas_f ve sel = [])
  ∧ (∀ ve sel,
       Seleccion.segmento_sel sel ≠ "Todos" →
       Seleccion.segmento_sel sel ∉ segmentos ve →
       ventas_f ve sel = [])
  ∧ (total_ventas [] = 0 ∧ margen_total [] = 0 ∧ total_unidades [] = 0
     ∧ ventas_mes [] = [] ∧ ventas_region [] = [] ∧ ventas_ciudad [] = []
     ∧ top_clientes [] = [] ∧ top_productos [] = [])
  ∧ (∀ data sel,
       ventas_f (Data.ventas_ext data) sel = [] →
       main data sel
       = Dashboard.mk 0 0 0
           (cartera_vigente (Data.cartera data))
           (cartera_mora (Data.cartera data))
           [] [] [] [] []).
Proof.
  split; [|split; [|split; [|split]]].
  - intros ve sel Hlt. apply ventas_f_none.
    intros e _ [(t & _ & Hd & Hh) _]. unfold ts_le in *.
    apply ts_ltb_not_leb in Hlt.
    by rewrite (ts_leb_trans _ _ _ Hd Hh) in Hlt.
  - intros ve sel Hsel Hno. apply ventas_f_none.
    intros e He (_ & [Hr|Hr] & _); [done|].
    apply Hno, elem_of_regiones. eauto.
  - intros ve sel Hsel Hno. apply ventas_f_none.
    intros e He (_ & _ & [Hs|Hs]); [done|].
    apply Hno, elem_of_segmentos. eauto.
  - repeat split; reflexivity.
  - intros data sel Hf. unfold main. rewrite Hf. reflexivity.
Qed.

Lemma filtro_vacio_witness :
  ventas_f (Data.ventas_ext Sample.data) Sample.rango_vacio = []
  ∧ ventas_f (Data.ventas_ext Sample.data) Sample.enero_south = [].
Proof.
  split.
  - apply (proj1 filtro_vacio). reflexivity.
  - apply (proj1 (proj2 filtro_vacio)); [done|].
    apply (bool_decide_unpack _). vm_compute. exact I.
Defined.

(** C10: when "Todos" is selected for the region, a row in the date range
    that passes the segment selection is in the result whatever its region
    is, also when some rows have a region called "Todos"; and likewise for
    the segment. *)
Theorem todos_is_no_constraint :
  (∀ ve sel e,
     Seleccion.region_sel sel = "Todos" →
     e ∈ ve → en_rango sel e → cumple_segmento sel e →
     e ∈ ventas_f ve sel)
  ∧ (∀ ve sel e,
       Seleccion.segmento_sel sel = "Todos" →
       e ∈ ve → en_rango sel e → cumple_region sel e →
       e ∈ ventas_f ve sel).
Proof.
  split; intros ve sel e Hsel He Hr Hc; apply elem_of_ventas_f;
    (split; [done|]); unfold cumple, cumple_region, cumple_segmento; auto.
Qed.

Lemma todos_is_no_constraint_witness :
  "Todos" ∈ regiones (Data.ventas_ext Sample.data)
  ∧ VentaExt.region Sample.fila_1 = Some "North"
  ∧ Sample.fila_1 ∈ ventas_f (Data.ventas_ext Sample.data) Sample.todo.
Proof.
  split; [|split; [reflexivity|]].
  - apply (list_elem_of_lookup_2 _ 1%nat). reflexivity.
  - apply (proj1 todos_is_no_constraint); [reflexivity| | |by left].
    + apply (list_elem_of_lookup_2 _ 0%nat). reflexivity.
    + exists Sample.enero_15. repeat split; reflexivity.
Defined.

(** ** Sums in int64 *)

Lemma wrap64_range z : - 2 ^ 63 ≤ pd.wrap64 z < 2 ^ 63.
Proof.
  unfold pd.wrap64. pose proof (Z.mod_pos_bound (z + 2 ^ 63) (2 ^ 64)). lia.
Qed.

Lemma wrap64_small z : - 2 ^ 63 ≤ z < 2 ^ 63 → pd.wrap64 z = z.
Proof. intros Hz. unfold pd.wrap64. rewrite Z.mod_small; lia. Qed.

Lemma wrap64_add_l a b : pd.wrap64 (pd.wrap64 a + b) = pd.wrap64 (a + b).
Proof.
  unfold pd.wrap64. f_equal.
  replace ((a + 2 ^ 63) `mod` 2 ^ 64 - 2 ^ 63 + b + 2 ^ 63)
    with ((a + 2 ^ 63) `mod` 2 ^ 64 + b) by lia.
  rewrite Z.add_mod_idemp_l by lia. f_equal. lia.
Qed.

Lemma wrap64_add_r a b : pd.wrap64 (a + pd.wrap64 b) = pd.wrap64 (a + b).
Proof. by rewrite (Z.add_comm a), wrap64_add_l, (Z.add_comm b). Qed.

Lemma wrap64_add a b :
  pd.wrap64 (pd.wrap64 a + pd.wrap64 b) = pd.wrap64 (a + b).
Proof. by rewrite wrap64_add_l, wrap64_add_r. Qed.

Lemma add64_wrap_l a b : pd.add64 (pd.wrap64 a) b = pd.wrap64 (a + b).
Proof. apply wrap64_add_l. Qed.

Lemma suma_app xs ys : suma (xs ++ ys) = suma xs + suma ys.
Proof. unfold suma. induction xs as [|x xs IH]; simpl; lia. Qed.

Lemma suma_Permutation xs ys : xs ≡ₚ ys → suma xs = suma ys.
Proof. unfold suma. induction 1; simpl; lia. Qed.

Lemma foldl_add64 a s :
  foldl pd.add64 (pd.wrap64 a) s = pd.wrap64 (a + suma s).
Proof.
  revert a. induction s as [|x s IH]; intros a; simpl.
  - by rewrite Z.add_0_r.
  - rewrite add64_wrap_l, IH. f_equal. lia.
Qed.

(** [sum] is the int64 of the sum of the cells. *)
Lemma sum_suma s : pd.sum s = pd.wrap64 (suma s).
Proof.
  unfold pd.sum. replace 0 with (pd.wrap64 0) at 1 by reflexivity.
  by rewrite foldl_add64.
Qed.

Lemma wrap64_suma_wrap xs :
  pd.wrap64 (suma (pd.wrap64 <$> xs)) = pd.wrap64 (suma xs).
Proof.
  induction xs as [|x xs IH]; [done|]. csimpl.
  rewrite wrap64_add_l, <- wrap64_add_r, IH. by rewrite wrap64_add_r.
Qed.

Lemma sum_wrap xs : pd.sum (pd.wrap64 <$> xs) = pd.sum xs.
Proof. by rewrite !sum_suma, wrap64_suma_wrap. Qed.

Lemma sum_fmap_wrap {A} (f : A → Z) (l : list A) :
  pd.sum ((λ x, pd.wrap64 (f x)) <$> l) = pd.sum (f <$> l).
Proof. by rewrite (list_fmap_compose f pd.wrap64), sum_wrap. Qed.

Lemma sum_Permutation xs ys : xs ≡ₚ ys → pd.sum xs = pd.sum ys.
Proof. intros H. by rewrite !sum_suma, (suma_Permutation _ _ H). Qed.

(** A group-by that adds in int64 gives the int64 of the sums a group-by
    that adds numbers gives. *)
Section groupby_wrap.
Context {K V A : Type} (cmp : K → K → comparison).
Context (zero zero' : V) (add add' : V → V → V) (h : V → V).
Hypothesis h_zero : ∀ v, add' zero' v = h (add zero v).
Hypothesis h_add : ∀ a v, add' (h a) v = h (add a v).

Lemma add_group_wrap k v (groups : list (K * V)) :
  pd.add_group cmp zero' add' k v (prod_map id h <$> groups)
  = prod_map id h <$> pd.add_group cmp zero add k v groups.
Proof.
  induction groups as [|[k' v'] groups IH]; csimpl.
  - by rewrite h_zero.
  - destruct (cmp k k'); csimpl.
    + by rewrite h_add.
    + by rewrite h_zero.
    + by rewrite IH.
Qed.

Lemma groupby_sum_wrap (key : A → option K) (val : A → V) (df : list A) :
  pd.groupby_sum cmp zero' add' key val df
  = prod_map id h <$> pd.groupby_sum cmp zero add key val df.
Proof.
  unfold pd.groupby_sum.
  change (@nil (K * V)) with (prod_map id h <$> @nil (K * V)) at 1.
  generalize (@nil (K * V)). induction df as [|r df IH]; intros groups; [done|].
  simpl. destruct (key r) as [k|]; [|apply IH].
  rewrite add_group_wrap. apply IH.
Qed.
End groupby_wrap.

Lemma groupby_sum_int64 {K A} (cmp : K → K → comparison)
    (key : A → option K) (val : A → Z) (df : list A) :
  pd.groupby_sum cmp 0 pd.add64 key val df
  = prod_map id pd.wrap64 <$> pd.groupby_sum cmp 0 Z.add key val df.
Proof. apply groupby_sum_wrap; [done|]. intros a v. apply add64_wrap_l. Qed.

Lemma groupby_sum_int64_2 {K A} (cmp : K → K → comparison)
    (key : A → option K) (val : A → Z * Z) (df : list A) :
  pd.groupby_sum cmp (0, 0) add2 key val df
  = prod_map id (prod_map pd.wrap64 pd.wrap64)
      <$> pd.groupby_sum cmp (0, 0) suma2 key val df.
Proof.
  apply groupby_sum_wrap; [done|].
  intros [a1 a2] [v1 v2]. unfold add2, suma2, prod_map. simpl.
  by rewrite !add64_wrap_l.
Qed.

(** ** Receivables *)

Lemma cartera_estado_saldo estado cartera :
  cartera_estado estado cartera = pd.wrap64 (saldo_de estado cartera).
Proof.
  unfold cartera_estado, saldo_de, pd.eq_str. rewrite sum_suma. f_equal.
  rewrite <- list_fmap_compose.
  induction cartera as [|d cartera IH]; [done|]. csimpl.
  rewrite <- IH. clear IH.
  destruct (Cartera.estado d) as [x|] eqn:Hx; simpl.
  - destruct (decide (x = estado)) as [->|Hne].
    + by rewrite bool_decide_eq_true_2, decide_True.
    + rewrite bool_decide_eq_false_2, decide_False by congruence. done.
  - done.
Qed.

(** C5: the two receivables KPIs of [main] are the balances of the whole
    (cleaned) receivables table by status, as int64 values, whatever the
    selection of dates, region and segment is. *)
Theorem cartera_kpis_unfiltered :
  ∀ data sel1 sel2,
    Dashboard.cartera_vigente (main data sel1)
    = Dashboard.cartera_vigente (main data sel2)
    ∧ Dashboard.cartera_mora (main data sel1)
      = Dashboard.cartera_mora (main data sel2)
    ∧ Dashboard.cartera_vigente (main data sel1)
      = pd.wrap64 (saldo_de "Vigente" (Data.cartera data))
    ∧ Dashboard.cartera_mora (main data sel1)
      = pd.wrap64 (saldo_de "En mora" (Data.cartera data)).
Proof.
  intros data sel1 sel2. simpl. unfold cartera_vigente, cartera_mora.
  by rewrite !cartera_estado_saldo.
Qed.

(** The receivables example of the specification. *)
Example cartera_kpis_example :
  Dashboard.cartera_mora (main Sample.data Sample.enero_north) = 500
  ∧ Dashboard.cartera_vigente (main Sample.data Sample.enero_north) = 300
  ∧ Dashboard.cartera_mora (main Sample.data Sample.rango_vacio) = 500
  ∧ Dashboard.cartera_vigente (main Sample.data Sample.rango_vacio) = 300.
Proof. repeat split; reflexivity. Qed.

(** ** Enrichment *)



(** [load_data] on files it cannot load: a sales file that has only its
    header line, and a customer identifier that is not a number.  A
    customer number one past the largest int64 comes out of the cast as
    the smallest one. *)
Example load_data_raises :
  load_data Sample.csv_sin_lineas = Raise AttributeError
  ∧ load_data
      (Csv.mk [Sample.cliente_10] [Sample.producto_100] [Sample.venta_texto]
         [Sample.inventario_1] [Sample.importacion_1] [Sample.documento_mora])
    = Raise ValueError
  ∧ Venta.cliente_id <$>
      Data.ventas
        (Sample.loaded
           (Csv.mk [Sample.cliente_10] [Sample.producto_100]
              [Sample.venta_grande] [Sample.inventario_1]
              [Sample.importacion_1] [Sample.documento_mora]))
    = [Some (pd.num (-9223372036854775808))].
Proof. repeat split; reflexivity. Qed.

(** The filter example of the specification: one sale in January to a
    customer of region North. *)
Example ventas_f_example :
  ventas_f (Data.ventas_ext Sample.data) Sample.enero_north = [Sample.fila_1]
  ∧ ventas_f (Data.ventas_ext Sample.data) Sample.enero_south = []
  ∧ ventas_mes (ventas_f (Data.ventas_ext Sample.data) Sample.enero_north)
    = [("2024-01", (200, 50))].
Proof. repeat split; reflexivity. Qed.

(** ** Group sums *)

Section groupby_suma.
Context {K V : Type} (cmp : K → K → comparison).
Context (zero : V) (add : V → V → V).
Variable f : V → Z.
Hypothesis f_zero : f zero = 0.
Hypothesis f_add : ∀ a b, f (add a b) = f a + f b.

Lemma add_group_suma k v (groups : list (K * V)) :
  suma ((λ g, f g.2) <$> pd.add_group cmp zero add k v groups)
  = suma ((λ g, f g.2) <$> groups) + f v.
Proof.
  unfold suma. induction groups as [|[k' v'] groups IH]; csimpl.
  { rewrite f_add, f_zero. lia. }
  destruct (cmp k k'); csimpl; rewrite ?f_add, ?f_zero; lia.
Qed.

(** The group sums add up to the sum over the rows that have a key. *)
Lemma groupby_sum_suma {A} (key : A → option K) (val : A → V) (df : list A) :
  suma ((λ g, f g.2) <$> pd.groupby_sum cmp zero add key val df)
  = suma ((λ r, if key r is Some _ then f (val r) else 0) <$> df).
Proof.
  unfold pd.groupby_sum.
  enough (∀ groups,
    suma ((λ g, f g.2) <$>
           foldl (λ groups r, match key r with
                              | Some k =>
                                  pd.add_group cmp zero add k (val r) groups
                              | None => groups
                              end) groups df)
    = suma ((λ g, f g.2) <$> groups)
      + suma ((λ r, if key r is Some _ then f (val r) else 0) <$> df)) as Hgen.
  { rewrite Hgen. unfold suma. simpl. lia. }
  induction df as [|r df IH]; intros groups; csimpl.
  { unfold suma. simpl. lia. }
  rewrite IH. destruct (key r) as [k|].
  - rewrite add_group_suma. unfold suma. csimpl. lia.
  - unfold suma. csimpl. lia.
Qed.
End groupby_suma.

Lemma ventas_mes_groupby2 vf :
  ventas_mes vf
  ≡ₚ prod_map id (prod_map pd.wrap64 pd.wrap64)
       <$> pd.groupby_sum String.compare (0, 0) suma2
             (λ r, Some (VentaExt.mes r))
             (λ r, (VentaExt.subtotal_cop r, VentaExt.margen_total_cop r)) vf.
Proof.
  unfold ventas_mes, pd.sort_values_str.
  by rewrite merge_sort_Permutation, groupby_sum_int64_2.
Qed.

(** C4, for int64 columns: the subtotals of the monthly series add up, in
    int64, to the total-sales KPI of the same filtered table (and the
    margins to the margin KPI), for every filtered table and so for every
    selection in [main]. *)
Theorem ventas_mes_conserves_total :
  (∀ vf, pd.sum ((λ g, g.2.1) <$> ventas_mes vf) = total_ventas vf
         ∧ pd.sum ((λ g, g.2.2) <$> ventas_mes vf) = margen_total vf)
  ∧ (∀ data sel,
       pd.sum ((λ g, g.2.1) <$> Dashboard.ventas_mes (main data sel))
       = Dashboard.total_ventas (main data sel)).
Proof.
  assert (∀ vf, pd.sum ((λ g, g.2.1) <$> ventas_mes vf) = total_ventas vf
                ∧ pd.sum ((λ g, g.2.2) <$> ventas_mes vf) = margen_total vf)
    as Hvf.
  { intros vf. unfold total_ventas, margen_total.
    rewrite !(sum_Permutation _ _
                (fmap_Permutation _ _ _ (ventas_mes_groupby2 vf))).
    rewrite <- !list_fmap_compose. split.
    - etrans; [apply (sum_fmap_wrap (λ g : string * (Z * Z), g.2.1))|].
      rewrite !sum_suma. f_equal.
      by rewrite (groupby_sum_suma String.compare (0, 0) suma2 fst).
    - etrans; [apply (sum_fmap_wrap (λ g : string * (Z * Z), g.2.2))|].
      rewrite !sum_suma. f_equal.
      by rewrite (groupby_sum_suma String.compare (0, 0) suma2 snd). }
  split; [done|]. intros data sel. simpl. apply Hvf.
Qed.

(** C4, as stated: on a float64 column the sums differ.  Of three sales
    with subtotals 0.1 in January and 0.2 and 0.3 in February, the KPI is
    0.1 + 0.2 + 0.3 added from the left, 0.6000000000000001, and the
    monthly series has 0.1 and 0.5, which add up to 0.6. *)
Lemma ventas_mes_float64_differs :
  Float64.ventas_mes Sample.ventas_decimales
  = [("2024-01", 0.1%float); ("2024-02", 0.5%float)]
  ∧ Float64.sum (snd <$> Float64.ventas_mes Sample.ventas_decimales)
    = Some 0.6%float
  ∧ Float64.total_ventas Sample.ventas_decimales
    = Some 0.6000000000000001%float
  ∧ PrimFloat.eqb 0.6%float 0.6000000000000001%float = false.
Proof. repeat split; reflexivity. Qed.

(** ** Rankings *)

Global Instance sum_ge_total {K} : Total (@pd.sum_ge K).
Proof. intros a b. unfold pd.sum_ge. lia. Qed.

Global Instance sum_ge_trans {K} : Transitive (@pd.sum_ge K).
Proof. intros a b c. unfold pd.sum_ge. lia. Qed.

Lemma head_sort_values_desc {K} (n : nat) (df : list (K * Z)) :
  (length (pd.head n (pd.sort_values_desc df)) ≤ n)%nat
  ∧ StronglySorted (λ a b, b.2 ≤ a.2) (pd.head n (pd.sort_values_desc df)).
Proof.
  unfold pd.head, pd.sort_values_desc. split.
  - rewrite length_take. lia.
  - apply (StronglySorted_app_1_l _ _ (drop n (merge_sort pd.sum_ge df))).
    rewrite take_drop. apply (StronglySorted_merge_sort pd.sum_ge).
Qed.

(** C7: the top-customers and the top-products rankings have at most 15
    rows, and in each the summed subtotal never increases from a row to any
    later row. *)
Theorem top_15_descending :
  ∀ vf,
    (length (top_clientes vf) ≤ 15)%nat
    ∧ StronglySorted (λ a b, b.2 ≤ a.2) (top_clientes vf)
    ∧ (length (top_productos vf) ≤ 15)%nat
    ∧ StronglySorted (λ a b, b.2 ≤ a.2) (top_productos vf).
Proof.
  intros vf. unfold top_clientes, top_productos.
  split; [apply head_sort_values_desc|]. split; [apply head_sort_values_desc|].
  split; apply head_sort_values_desc.
Qed.

(** ** Month buckets *)

Lemma digit_compare a b :
  0 ≤ a < 10 → 0 ≤ b < 10 → Ascii.compare (pd.digit a) (pd.digit b) = (a ?= b).
Proof.
  intros Ha Hb. unfold pd.digit, Ascii.compare.
  rewrite !Z.mod_small by lia.
  rewrite !N_ascii_embedding by lia.
  rewrite <- N2Z.inj_compare. rewrite !N2Z.inj_add, !Z2N.id by lia.
  apply Z.add_compare_mono_l.
Qed.

Lemma digit_value_digit a : 0 ≤ a < 10 → digit_value (pd.digit a) = a.
Proof.
  intros Ha. unfold digit_value, pd.digit.
  rewrite Z.mod_small by lia. rewrite N_ascii_embedding by lia. lia.
Qed.

Lemma digit_mod n : pd.digit n = pd.digit (n `mod` 10).
Proof. unfold pd.digit. by rewrite Z.mod_mod. Qed.

Lemma string_compare_cons c1 c2 s1 s2 :
  String.compare (String c1 s1) (String c2 s2)
  = match Ascii.compare c1 c2 with
    | Eq => String.compare s1 s2
    | Lt => Lt
    | Gt => Gt
    end.
Proof. done. Qed.

Lemma append_cons c s1 s2 : String c s1 +:+ s2 = String c (s1 +:+ s2).
Proof. done. Qed.

Lemma append_nil_l s : "" +:+ s = s.
Proof. done. Qed.

Lemma append_assoc s1 s2 s3 : (s1 +:+ s2) +:+ s3 = s1 +:+ (s2 +:+ s3).
Proof.
  induction s1 as [|c s1 IH]; [done|]. by rewrite !append_cons, IH.
Qed.

(** Two digits compare as the numbers they spell. *)
Lemma zfill2_compare a b s t :
  0 ≤ a < 100 → 0 ≤ b < 100 →
  String.compare (pd.zfill2 a +:+ s) (pd.zfill2 b +:+ t)
  = match a ?= b with Eq => String.compare s t | c => c end.
Proof.
  intros Ha Hb. unfold pd.zfill2. rewrite ?append_cons, ?append_nil_l.
  rewrite !string_compare_cons.
  rewrite (digit_mod a), (digit_mod b).
  rewrite !digit_compare by (Z.to_euclidean_division_equations; lia).
  destruct (Z.compare_spec (a / 10) (b / 10));
    destruct (Z.compare_spec (a `mod` 10) (b `mod` 10));
    destruct (Z.compare_spec a b);
    try done; exfalso; Z.to_euclidean_division_equations; lia.
Qed.

Lemma zfill4_split n :
  0 ≤ n → pd.zfill4 n = pd.zfill2 (n / 100) +:+ pd.zfill2 (n `mod` 100).
Proof.
  intros Hn. unfold pd.zfill4, pd.zfill2. rewrite ?append_cons, ?append_nil_l.
  rewrite (digit_mod (n / 1000)), (digit_mod (n / 100 / 10)).
  rewrite (digit_mod (n / 10)), (digit_mod (n `mod` 100 / 10)).
  rewrite (digit_mod n), (digit_mod (n `mod` 100)).
  replace ((n / 1000) `mod` 10) with ((n / 100 / 10) `mod` 10)
    by (Z.to_euclidean_division_equations; lia).
  replace ((n / 10) `mod` 10) with ((n `mod` 100 / 10) `mod` 10)
    by (Z.to_euclidean_division_equations; lia).
  replace (n `mod` 10) with ((n `mod` 100) `mod` 10)
    by (Z.to_euclidean_division_equations; lia).
  done.
Qed.

(** Four digits compare as the numbers they spell. *)
Lemma zfill4_compare a b s t :
  0 ≤ a < 10000 → 0 ≤ b < 10000 →
  String.compare (pd.zfill4 a +:+ s) (pd.zfill4 b +:+ t)
  = match a ?= b with Eq => String.compare s t | c => c end.
Proof.
  intros Ha Hb. rewrite !zfill4_split by lia.
  rewrite !append_assoc.
  rewrite zfill2_compare by (Z.to_euclidean_division_equations; lia).
  rewrite zfill2_compare by (Z.to_euclidean_division_equations; lia).
  destruct (Z.compare_spec (a / 100) (b / 100));
    destruct (Z.compare_spec (a `mod` 100) (b `mod` 100));
    destruct (Z.compare_spec a b);
    try done; exfalso; Z.to_euclidean_division_equations; lia.
Qed.

Lemma append_empty_r s : s +:+ "" = s.
Proof. induction s as [|c s IH]; [done|]. by rewrite append_cons, IH. Qed.

Lemma string_compare_same_head c s t :
  String.compare (String c s) (String c t) = String.compare s t.
Proof.
  rewrite string_compare_cons. unfold Ascii.compare.
  by rewrite N.compare_refl.
Qed.

(** The order of two buckets is the order of their months. *)
Lemma period_M_str_compare a b :
  ts_valid a → ts_valid b →
  String.compare (pd.period_M_str a) (pd.period_M_str b)
  = month_compare (month_of a) (month_of b).
Proof.
  intros [Hya Hma] [Hyb Hmb]. unfold pd.period_M_str, month_compare, month_of.
  rewrite zfill4_compare by lia. cbn [fst snd].
  destruct (ts_year a ?= ts_year b); try done.
  rewrite !append_cons, !append_nil_l, string_compare_same_head.
  rewrite <- (append_empty_r (pd.zfill2 (ts_month a))).
  rewrite <- (append_empty_r (pd.zfill2 (ts_month b))).
  rewrite zfill2_compare by lia. by destruct (ts_month a ?= ts_month b).
Qed.

(** A bucket reads back as the month it was made from. *)
Lemma month_of_bucket_period t :
  ts_valid t →
  String.length (pd.period_M_str t) = 7%nat
  ∧ String.get 4 (pd.period_M_str t) = Some "-"%char
  ∧ month_of_bucket (pd.period_M_str t) = month_of t.
Proof.
  intros [Hy Hm]. unfold pd.period_M_str, pd.zfill4, pd.zfill2.
  split; [done|]. split; [done|].
  unfold month_of_bucket, month_of, decimal_value. simpl.
  rewrite (digit_mod (ts_year t / 1000)), (digit_mod (ts_year t / 100)).
  rewrite (digit_mod (ts_year t / 10)), (digit_mod (ts_year t)).
  rewrite (digit_mod (ts_month t / 10)), (digit_mod (ts_month t)).
  rewrite !digit_value_digit by (Z.to_euclidean_division_equations; lia).
  apply pair_equal_spec; split; Z.to_euclidean_division_equations; lia.
Qed.

(** ** The order of the groups *)

Lemma string_compare_refl s : String.compare s s = Eq.
Proof.
  induction s as [|c s IH]; [done|]. by rewrite string_compare_same_head.
Qed.

Lemma string_le_compare a b : String.le a b ↔ String.compare a b ≠ Gt.
Proof.
  unfold String.le, String.leb. destruct (String.compare a b); simpl; split; done.
Qed.

Lemma bucket_lt_le a b : bucket_lt a b ↔ String.le a b ∧ a ≠ b.
Proof.
  unfold bucket_lt. rewrite string_le_compare. split.
  - intros Hlt. split; [by rewrite Hlt|]. intros ->.
    by rewrite string_compare_refl in Hlt.
  - intros [Hle Hne]. destruct (String.compare a b) eqn:Hc; [|done..].
    by apply String.compare_eq_iff in Hc.
Qed.

Lemma bucket_lt_trans a b c : bucket_lt a b → bucket_lt b c → bucket_lt a c.
Proof.
  rewrite !bucket_lt_le. intros [Hab Hne] [Hbc _]. split; [by etrans|].
  intros ->. apply Hne. by apply (anti_symm String.le).
Qed.

Lemma bucket_gt_lt a b : String.compare a b = Gt → bucket_lt b a.
Proof.
  unfold bucket_lt. rewrite (String.compare_antisym b a). by intros ->.
Qed.

Section groupby_order.
Context {V : Type} (zero : V) (add : V → V → V).
Implicit Types (groups : list (string * V)).

Lemma elem_of_add_group k v groups g :
  g ∈ pd.add_group String.compare zero add k v groups →
  g.1 = k ∨ ∃ g', g' ∈ groups ∧ g.1 = g'.1.
Proof.
  induction groups as [|[k' v'] groups IH]; csimpl.
  { intros ->%list_elem_of_singleton. by left. }
  destruct (String.compare k k') eqn:Hc.
  - intros [->|Hg]%elem_of_cons; right.
    + exists (k', v'). split; [left|done].
    + exists g. split; [by right|done].
  - intros [->|Hg]%elem_of_cons; [by left|]. right. by exists g.
  - intros [->|Hg]%elem_of_cons.
    + right. exists (k', v'). split; [left|done].
    + destruct (IH Hg) as [?|(g' & ? & ?)]; [by left|].
      right. exists g'. split; [by right|done].
Qed.

Lemma add_group_increasing k v groups :
  increasing groups → increasing (pd.add_group String.compare zero add k v groups).
Proof.
  unfold increasing.
  induction groups as [|[k' v'] groups IH]; csimpl; intros Hs.
  { repeat constructor. }
  apply StronglySorted_cons in Hs as [Hall Hs].
  destruct (String.compare k k') eqn:Hc.
  - constructor; [done|].
    apply String.compare_eq_iff in Hc as ->. done.
  - constructor; [by constructor|]. constructor; [done|].
    eapply Forall_impl; [done|]. intros g Hg. by eapply bucket_lt_trans.
  - constructor; [by apply IH|]. apply Forall_forall. intros g Hg.
    apply elem_of_add_group in Hg as [->|(g' & Hg' & ->)].
    + by apply bucket_gt_lt.
    + by eapply Forall_forall in Hall.
Qed.

Lemma groupby_sum_increasing {A} (key : A → option string) (val : A → V) df :
  increasing (pd.groupby_sum String.compare zero add key val df).
Proof.
  unfold pd.groupby_sum.
  enough (∀ groups, increasing groups →
    increasing (foldl (λ groups r,
                         match key r with
                         | Some k => pd.add_group String.compare zero add k (val r) groups
                         | None => groups
                         end) groups df)) as Hgen.
  { apply Hgen. constructor. }
  induction df as [|r df IH]; intros groups Hs; [done|]. simpl. apply IH.
  destruct (key r); [by apply add_group_increasing|done].
Qed.

(** Every group has the key of some row. *)
Lemma groupby_sum_key {A} (key : A → option string) (val : A → V) df g :
  g ∈ pd.groupby_sum String.compare zero add key val df →
  ∃ r, r ∈ df ∧ key r = Some g.1.
Proof.
  unfold pd.groupby_sum.
  enough (∀ groups,
    g ∈ foldl (λ groups r,
                 match key r with
                 | Some k => pd.add_group String.compare zero add k (val r) groups
                 | None => groups
                 end) groups df →
    (∃ g', g' ∈ groups ∧ g.1 = g'.1) ∨ ∃ r, r ∈ df ∧ key r = Some g.1) as Hgen.
  { intros Hg. destruct (Hgen [] Hg) as [(g' & Hg' & _)|?]; [|done].
    by apply elem_of_nil in Hg'. }
  induction df as [|r df IH]; intros groups Hg; simpl in Hg.
  { left. by exists g. }
  destruct (IH _ Hg) as [(g' & Hg' & Heq)|(r' & Hr' & Hk)].
  - destruct (key r) as [k|] eqn:Hk; [|left; by exists g'].
    apply elem_of_add_group in Hg' as [Hk'|(g'' & ? & ?)].
    + right. exists r. split; [left|]. by rewrite Hk, Heq, Hk'.
    + left. exists g''. split; [done|congruence].
  - right. exists r'. split; [by right|done].
Qed.

Lemma increasing_key_inj groups g1 g2 :
  increasing groups → g1 ∈ groups → g2 ∈ groups → g1.1 = g2.1 → g1 = g2.
Proof.
  unfold increasing. induction 1 as [|g groups Hs IH Hall]; intros H1 H2 Heq.
  { by apply elem_of_nil in H1. }
  assert (∀ x, x ∈ groups → g.1 ≠ x.1) as Hne.
  { intros x Hx Hk. eapply Forall_forall in Hall; [|done].
    apply bucket_lt_le in Hall as [_ ?]. done. }
  apply elem_of_cons in H1 as [->|H1]; apply elem_of_cons in H2 as [->|H2];
    try done.
  - by destruct (Hne g2 H2).
  - by destruct (Hne g1 H1).
  - by apply IH.
Qed.

Global Instance key_le_trans : Transitive (@pd.key_le V).
Proof. intros a b c. unfold pd.key_le. apply transitivity. Qed.

Global Instance key_le_total : Total (@pd.key_le V).
Proof. intros a b. unfold pd.key_le. apply total, _. Qed.

(** Sorting groups that are already in key order changes nothing. *)
Lemma sort_values_str_increasing groups :
  increasing groups → pd.sort_values_str groups = groups.
Proof.
  intros Hinc. unfold pd.sort_values_str.
  apply (StronglySorted_unique_strong pd.key_le).
  - intros g1 g2 H1 H2 H12 H21.
    rewrite merge_sort_Permutation in H1.
    apply (increasing_key_inj groups); [done..|].
    by apply (anti_symm String.le).
  - apply StronglySorted_merge_sort; apply _.
  - unfold increasing in Hinc. clear -Hinc.
    induction Hinc as [|g groups Hs IH Hall]; constructor; [done|].
    eapply Forall_impl; [done|]. intros g' Hg'.
    apply bucket_lt_le in Hg' as [? _]. done.
  - apply merge_sort_Permutation.
Qed.
End groupby_order.

Lemma ventas_mes_groupby vf :
  ventas_mes vf
  = pd.groupby_sum String.compare (0, 0) add2
      (λ r, Some (VentaExt.mes r))
      (λ r, (VentaExt.subtotal_cop r, VentaExt.margen_total_cop r))
      vf.
Proof.
  unfold ventas_mes. apply sort_values_str_increasing, groupby_sum_increasing.
Qed.

Lemma StronglySorted_elem_impl {A} (R R' : relation A) (l : list A) :
  (∀ x y, x ∈ l → y ∈ l → R x y → R' x y) →
  StronglySorted R l → StronglySorted R' l.
Proof.
  intros Himpl Hs. induction Hs as [|x l Hs IH Hall]; constructor.
  - apply IH. intros y z Hy Hz. apply Himpl; by right.
  - apply Forall_forall. intros y Hy. apply Himpl; [left|by right|].
    by eapply Forall_forall in Hall.
Qed.

(** C8: the [mes] of an enriched row is the "YYYY-MM" bucket of the year
    and month of its date (seven characters, a hyphen in the middle, and
    the two numbers read back from it); two buckets compare as strings the
    way their months compare in time; and the monthly series is in
    strictly increasing bucket order, which is chronological order. *)
Theorem mes_chronological :
  (∀ csv data e,
     load_data csv = Ok data → e ∈ Data.ventas_ext data →
     ∃ t, VentaExt.fecha e = Some t
          ∧ VentaExt.anio e = Some (ts_year t)
          ∧ VentaExt.mes e = pd.period_M_str t)
  ∧ (∀ t, ts_valid t →
       String.length (pd.period_M_str t) = 7%nat
       ∧ String.get 4 (pd.period_M_str t) = Some "-"%char
       ∧ month_of_bucket (pd.period_M_str t) = month_of t)
  ∧ (∀ a b, ts_valid a → ts_valid b →
       String.compare (pd.period_M_str a) (pd.period_M_str b)
       = month_compare (month_of a) (month_of b))
  ∧ (∀ csv data sel,
       load_data csv = Ok data →
       Forall (λ v, ∀ t, Venta.fecha v = Some t → ts_valid t)
         (Csv.ventas_andina csv) →
       StronglySorted
         (λ g1 g2, bucket_lt g1.1 g2.1
                   ∧ month_lt (month_of_bucket g1.1) (month_of_bucket g2.1))
         (ventas_mes (ventas_f (Data.ventas_ext data) sel))
       ∧ ∀ g, g ∈ ventas_mes (ventas_f (Data.ventas_ext data) sel) →
           ∃ e t, e ∈ ventas_f (Data.ventas_ext data) sel
                  ∧ VentaExt.fecha e = Some t
                  ∧ g.1 = pd.period_M_str t
                  ∧ month_of_bucket g.1 = month_of t).
Proof.
  split; [|split; [|split]].
  - intros csv data e Hload He.
    destruct (load_data_fecha _ _ _ Hload He) as (v & t & _ & _ & Hf & _ & Ha & Hm).
    by exists t.
  - apply month_of_bucket_period.
  - apply period_M_str_compare.
  - intros csv data sel Hload Hvalid.
    assert (∀ g, g ∈ ventas_mes (ventas_f (Data.ventas_ext data) sel) →
              ∃ e t, e ∈ ventas_f (Data.ventas_ext data) sel
                     ∧ VentaExt.fecha e = Some t ∧ ts_valid t
                     ∧ g.1 = pd.period_M_str t) as Hkey.
    { intros g Hg. rewrite ventas_mes_groupby in Hg.
      apply groupby_sum_key in Hg as (e & He & [= Hmes]).
      pose proof He as [He' _]%elem_of_ventas_f.
      destruct (load_data_fecha _ _ _ Hload He')
        as (v & t & Hv & _ & Hfe & Ht & _ & Hm).
      exists e, t. split; [done|].
      split; [done|].
      split; [|congruence].
      eapply Forall_forall in Hvalid; [|done]. by apply Hvalid. }
    split.
    + apply (StronglySorted_elem_impl (λ g1 g2, bucket_lt g1.1 g2.1));
        [|rewrite ventas_mes_groupby; apply groupby_sum_increasing].
      intros g1 g2 Hg1 Hg2 Hlt. split; [done|].
      destruct (Hkey g1 Hg1) as (_ & t1 & _ & _ & Hv1 & Hk1).
      destruct (Hkey g2 Hg2) as (_ & t2 & _ & _ & Hv2 & Hk2).
      unfold month_lt, bucket_lt in *. rewrite Hk1, Hk2 in Hlt |- *.
      rewrite (proj2 (proj2 (month_of_bucket_period t1 Hv1))).
      rewrite (proj2 (proj2 (month_of_bucket_period t2 Hv2))).
      by rewrite <- period_M_str_compare.
    + intros g Hg. destruct (Hkey g Hg) as (e & t & He & Hf & Hv & Hk).
      exists e, t. repeat split; try done.
      rewrite Hk. by apply month_of_bucket_period.
Qed.

Lemma mes_chronological_witness :
  String.compare (pd.period_M_str Sample.enero_15)
                 (pd.period_M_str Sample.febrero_3) = Lt
  ∧ month_of_bucket (pd.period_M_str Sample.febrero_3) = (2024, 2)
  ∧ StronglySorted
      (λ g1 g2, bucket_lt g1.1 g2.1
                ∧ month_lt (month_of_bucket g1.1) (month_of_bucket g2.1))
      (ventas_mes (ventas_f (Data.ventas_ext Sample.data) Sample.todo)).
Proof.
  split; [|split].
  - rewrite (proj1 (proj2 (proj2 mes_chronological))); [reflexivity| |];
      unfold ts_valid; simpl; lia.
  - apply (proj1 (proj2 mes_chronological) Sample.febrero_3).
    unfold ts_valid; simpl; lia.
  - apply (proj2 (proj2 (proj2 mes_chronological)) Sample.csv Sample.data
             Sample.todo); [reflexivity|].
    repeat (apply Forall_cons_2;
            [intros t Ht; simplify_eq/=; unfold ts_valid; simpl; lia|]).
    apply Forall_nil_2.
Defined.

(** The series of the sample, month by month. *)
Example ventas_mes_example :
  ventas_mes (ventas_f (Data.ventas_ext Sample.data) Sample.todo)
  = [("2024-01", (200, 50)); ("2024-02", (100, 25))].
Proof. reflexivity. Qed.

(** ** Conditional sums *)

Section suma_si_facts.
Context {A : Type}.
Implicit Types (P Q : A → Prop) (f : A → Z) (df : list A).

Lemma suma_si_nil P `{∀ r, Decision (P r)} f : suma_si P f [] = 0.
Proof. done. Qed.

Lemma suma_si_cons P `{∀ r, Decision (P r)} f r df :
  suma_si P f (r :: df) = (if decide (P r) then f r else 0) + suma_si P f df.
Proof. done. Qed.

Lemma suma_si_app P `{∀ r, Decision (P r)} f df1 df2 :
  suma_si P f (df1 ++ df2) = suma_si P f df1 + suma_si P f df2.
Proof. unfold suma_si. by rewrite fmap_app, suma_app. Qed.

Lemma suma_si_ext P Q `{∀ r, Decision (P r)} `{∀ r, Decision (Q r)} f g df :
  (∀ r, r ∈ df → (P r ↔ Q r)) → (∀ r, r ∈ df → P r → f r = g r) →
  suma_si P f df = suma_si Q g df.
Proof.
  intros HPQ Hfg. induction df as [|r df IH]; [done|].
  rewrite !suma_si_cons, IH.
  - assert (r ∈ r :: df) as Hr by left.
    destruct (decide (P r)) as [HP|HP], (decide (Q r)) as [HQ|HQ];
      try done; [by rewrite Hfg| |]; exfalso; by apply (HPQ r Hr) in HQ + apply (HPQ r Hr) in HP.
  - intros r' Hr'. apply HPQ. by right.
  - intros r' Hr'. apply Hfg. by right.
Qed.

Lemma suma_si_True P `{∀ r, Decision (P r)} f df :
  (∀ r, r ∈ df → P r) → suma_si P f df = suma (f <$> df).
Proof.
  intros HP. induction df as [|r df IH]; [done|].
  rewrite suma_si_cons, decide_True by (apply HP; left).
  rewrite IH; [done|]. intros r' Hr'. apply HP. by right.
Qed.

Lemma suma_si_False P `{∀ r, Decision (P r)} f df :
  (∀ r, r ∈ df → ¬ P r) → suma_si P f df = 0.
Proof.
  intros HP. induction df as [|r df IH]; [done|].
  rewrite suma_si_cons, decide_False by (apply HP; left).
  rewrite IH; [done|]. intros r' Hr'. apply HP. by right.
Qed.

(** Summing what a row-wise mask selects. *)
Lemma suma_loc (p : A → bool) f df :
  suma (f <$> pd.loc (p <$> df) df) = suma_si (λ r, p r = true) f df.
Proof.
  induction df as [|r df IH]; [done|]. rewrite suma_si_cons. csimpl.
  destruct (p r) eqn:Hp; csimpl.
  - by rewrite IH.
  - by rewrite IH.
Qed.
End suma_si_facts.

(** ** The groups of a groupby *)

Lemma Z_compare_order : cmp_order Z.compare.
Proof.
  split.
  - apply Z.compare_eq.
  - apply Z.compare_refl.
  - intros a b. rewrite Z.compare_gt_iff, Z.compare_lt_iff. done.
  - intros a b c. rewrite !Z.compare_lt_iff. lia.
Qed.

Lemma string_compare_order : cmp_order String.compare.
Proof.
  split.
  - apply String.compare_eq_iff.
  - apply string_compare_refl.
  - apply bucket_gt_lt.
  - apply bucket_lt_trans.
Qed.

Lemma lex_compare_order {A B} (ca : A → A → comparison) (cb : B → B → comparison) :
  cmp_order ca → cmp_order cb → cmp_order (pd.lex_compare ca cb).
Proof.
  intros Ha Hb. split; unfold pd.lex_compare.
  - intros [a1 b1] [a2 b2]. simpl.
    destruct (ca a1 a2) eqn:Hc; try done. intros Hd.
    by rewrite (cmp_eq ca Ha _ _ Hc), (cmp_eq cb Hb _ _ Hd).
  - intros [a b]. simpl. by rewrite (cmp_refl ca Ha), (cmp_refl cb Hb).
  - intros [a1 b1] [a2 b2]. simpl.
    destruct (ca a1 a2) eqn:Hc; try done.
    + apply (cmp_eq ca Ha) in Hc as ->. rewrite (cmp_refl ca Ha).
      apply (cmp_gt_lt cb Hb).
    + by rewrite (cmp_gt_lt ca Ha _ _ Hc).
  - intros [a1 b1] [a2 b2] [a3 b3]. simpl.
    destruct (ca a1 a2) eqn:H12; try done;
      destruct (ca a2 a3) eqn:H23; try done.
    + apply (cmp_eq ca Ha) in H12 as ->. rewrite H23.
      apply (cmp_lt_trans cb Hb).
    + apply (cmp_eq ca Ha) in H12 as ->. by rewrite H23.
    + apply (cmp_eq ca Ha) in H23 as <-. by rewrite H12.
    + by rewrite (cmp_lt_trans ca Ha _ _ _ H12 H23).
Qed.

Section groupby_groups.
Context {K V A : Type} `{EqDecision K}.
Context (cmp : K → K → comparison) (zero : V) (add : V → V → V).
Context (key : A → option K) (val : A → V).
Hypothesis Hcmp : cmp_order cmp.
Implicit Types (groups : list (K * V)) (df : list A).

Lemma groupby_sum_snoc df r :
  pd.groupby_sum cmp zero add key val (df ++ [r])
  = match key r with
    | Some k => pd.add_group cmp zero add k (val r) (pd.groupby_sum cmp zero add key val df)
    | None => pd.groupby_sum cmp zero add key val df
    end.
Proof. unfold pd.groupby_sum. by rewrite foldl_app. Qed.

Lemma elem_of_add_group_inv k v groups g :
  g ∈ pd.add_group cmp zero add k v groups → g.1 = k ∨ g ∈ groups.
Proof.
  induction groups as [|[k' v'] groups IH]; csimpl.
  { intros ->%list_elem_of_singleton. by left. }
  destruct (cmp k k') eqn:Hc.
  - apply (cmp_eq cmp Hcmp) in Hc as ->.
    intros [->|Hg]%elem_of_cons; [by left|]. right. by right.
  - intros [->|Hg]%elem_of_cons; [by left|by right].
  - intros [->|Hg]%elem_of_cons; [right; left|].
    destruct (IH Hg) as [?|?]; [by left|]. right. by right.
Qed.

Lemma add_group_keeps k v groups g :
  g ∈ groups → g.1 ≠ k → g ∈ pd.add_group cmp zero add k v groups.
Proof.
  intros Hg Hk. induction groups as [|[k' v'] groups IH]; csimpl.
  { by apply elem_of_nil in Hg. }
  destruct (cmp k k') eqn:Hc.
  - apply (cmp_eq cmp Hcmp) in Hc as ->.
    apply elem_of_cons in Hg as [->|Hg]; [done|by right].
  - by right.
  - apply elem_of_cons in Hg as [->|Hg]; [left|]. right. by apply IH.
Qed.

Lemma add_group_has_key k v groups :
  ∃ g, g ∈ pd.add_group cmp zero add k v groups ∧ g.1 = k.
Proof.
  induction groups as [|[k' v'] groups IH]; csimpl.
  { eexists. split; [left|done]. }
  destruct (cmp k k') eqn:Hc.
  - apply (cmp_eq cmp Hcmp) in Hc as ->. eexists. split; [left|done].
  - eexists. split; [left|done].
  - destruct IH as (g & Hg & Hk). exists g. split; [by right|done].
Qed.

Lemma add_group_ascending k v groups :
  ascending cmp groups → ascending cmp (pd.add_group cmp zero add k v groups).
Proof.
  unfold ascending.
  induction groups as [|[k' v'] groups IH]; csimpl; intros Hs.
  { repeat constructor. }
  apply StronglySorted_cons in Hs as [Hall Hs].
  destruct (cmp k k') eqn:Hc.
  - by constructor.
  - constructor; [by constructor|]. constructor; [done|].
    eapply Forall_impl; [done|]. intros g Hg. simpl in *.
    by eapply (cmp_lt_trans cmp Hcmp).
  - constructor; [by apply IH|]. apply Forall_forall. intros g Hg.
    apply elem_of_add_group_inv in Hg as [->|Hg].
    + by apply (cmp_gt_lt cmp Hcmp).
    + by eapply Forall_forall in Hall.
Qed.

(** A groupby yields its groups in strictly increasing key order. *)
Lemma groupby_sum_ascending df :
  ascending cmp (pd.groupby_sum cmp zero add key val df).
Proof.
  induction df as [|r df IH] using rev_ind; [constructor|].
  rewrite groupby_sum_snoc. destruct (key r); [|done].
  by apply add_group_ascending.
Qed.

Lemma ascending_NoDup groups : ascending cmp groups → NoDup groups.*1.
Proof.
  unfold ascending. induction 1 as [|g groups Hs IH Hall]; csimpl.
  { constructor. }
  constructor; [|done]. intros (g' & Hk & Hg')%list_elem_of_fmap.
  eapply Forall_forall in Hall; [|done]. rewrite <- Hk in Hall.
  by rewrite (cmp_refl cmp Hcmp) in Hall.
Qed.

(** Every group has the key of some row. *)
Lemma groupby_sum_key_sound df g :
  g ∈ pd.groupby_sum cmp zero add key val df → ∃ r, r ∈ df ∧ key r = Some g.1.
Proof.
  revert g. induction df as [|r df IH] using rev_ind; intros g Hg.
  { by apply elem_of_nil in Hg. }
  rewrite groupby_sum_snoc in Hg.
  assert (g ∈ pd.groupby_sum cmp zero add key val df →
          ∃ r0, r0 ∈ df ++ [r] ∧ key r0 = Some g.1) as Hold.
  { intros (r0 & ? & ?)%IH. exists r0. split; [|done].
    apply elem_of_app. by left. }
  destruct (key r) as [k|] eqn:Hk; [|by apply Hold].
  apply elem_of_add_group_inv in Hg as [->|Hg]; [|by apply Hold].
  exists r. split; [|done]. apply elem_of_app. right. left.
Qed.

(** Every keyed row has its group. *)
Lemma groupby_sum_key_complete df r k :
  r ∈ df → key r = Some k →
  ∃ g, g ∈ pd.groupby_sum cmp zero add key val df ∧ g.1 = k.
Proof.
  induction df as [|r' df IH] using rev_ind; intros Hr Hk.
  { by apply elem_of_nil in Hr. }
  rewrite groupby_sum_snoc.
  apply elem_of_app in Hr as [Hr|Hr].
  2:{ apply list_elem_of_singleton in Hr as ->. rewrite Hk.
      apply add_group_has_key. }
  - destruct (IH Hr Hk) as (g & Hg & Hgk).
    destruct (key r') as [k'|]; [|by exists g].
    destruct (decide (k' = k)) as [->|Hne]; [apply add_group_has_key|].
    exists g. split; [|done]. apply add_group_keeps; congruence.
Qed.

Section group_sums.
Variable f : V → Z.
Hypothesis f_zero : f zero = 0.
Hypothesis f_add : ∀ a b, f (add a b) = f a + f b.

Lemma add_group_suma_si k v k0 groups :
  suma_si (λ g, g.1 = k0) (λ g, f g.2) (pd.add_group cmp zero add k v groups)
  = suma_si (λ g, g.1 = k0) (λ g, f g.2) groups
    + (if decide (k = k0) then f v else 0).
Proof.
  induction groups as [|[k' v'] groups IH]; csimpl.
  { rewrite suma_si_cons, suma_si_nil. simpl. rewrite f_add, f_zero.
    destruct (decide (k = k0)); lia. }
  destruct (cmp k k') eqn:Hc.
  - apply (cmp_eq cmp Hcmp) in Hc as ->. rewrite !suma_si_cons. simpl.
    destruct (decide (k' = k0)); rewrite ?f_add; lia.
  - rewrite (suma_si_cons _ _ (k, add zero v)). simpl.
    rewrite f_add, f_zero. destruct (decide (k = k0)); lia.
  - rewrite !suma_si_cons, IH. lia.
Qed.

Lemma groupby_sum_suma_si k0 df :
  suma_si (λ g, g.1 = k0) (λ g, f g.2) (pd.groupby_sum cmp zero add key val df)
  = suma_si (λ r, key r = Some k0) (λ r, f (val r)) df.
Proof.
  induction df as [|r df IH] using rev_ind; [done|].
  rewrite groupby_sum_snoc, suma_si_app, suma_si_cons, suma_si_nil, <- IH.
  destruct (key r) as [k|] eqn:Hk.
  - rewrite add_group_suma_si.
    destruct (decide (k = k0)) as [->|Hne].
    + rewrite decide_True by done. lia.
    + rewrite decide_False by congruence. lia.
  - rewrite decide_False by done. lia.
Qed.

Lemma ascending_suma_si groups g :
  ascending cmp groups → g ∈ groups →
  suma_si (λ g', g'.1 = g.1) (λ g', f g'.2) groups = f g.2.
Proof.
  unfold ascending. induction 1 as [|x groups Hs IH Hall]; intros Hg.
  { by apply elem_of_nil in Hg. }
  assert (∀ y, y ∈ groups → y.1 ≠ x.1) as Hne.
  { intros y Hy Hk. eapply Forall_forall in Hall; [|done].
    rewrite Hk in Hall. by rewrite (cmp_refl cmp Hcmp) in Hall. }
  rewrite suma_si_cons. apply elem_of_cons in Hg as [->|Hg].
  - rewrite decide_True by done. rewrite suma_si_False; [lia|done].
  - rewrite decide_False by (intros Hk; by apply (Hne g)). rewrite IH by done. lia.
Qed.

(** The sum of a group is the sum over the rows that have its key. *)
Lemma groupby_sum_group df g :
  g ∈ pd.groupby_sum cmp zero add key val df →
  f g.2 = suma_si (λ r, key r = Some g.1) (λ r, f (val r)) df.
Proof.
  intros Hg. rewrite <- groupby_sum_suma_si.
  symmetry. apply ascending_suma_si; [apply groupby_sum_ascending|done].
Qed.
End group_sums.
End groupby_groups.

(** ** The grouped summaries, group by group *)

Lemma key2_Some {A B} (a : option A) (b : option B) (k : A * B) :
  key2 a b = Some k ↔ a = Some k.1 ∧ b = Some k.2.
Proof.
  destruct a as [x|], b as [y|], k as [k1 k2]; simpl; split;
    try done; try (by intros [??]).
  - by intros [= -> ->].
  - by intros [[= ->] [= ->]].
Qed.

Lemma suma_key_some {A K} (key : A → option K) (h : A → Z) (df : list A) :
  suma ((λ r, if key r is Some _ then h r else 0) <$> df)
  = suma_si (λ r, key r ≠ None) h df.
Proof.
  unfold suma_si. f_equal. apply list_fmap_ext. intros _ r _.
  destruct (key r); [by rewrite decide_True|by rewrite decide_False by tauto].
Qed.

(** The groups of a group-by that adds an int64 column. *)
Section groupby_int64.
Context {K A : Type} `{EqDecision K}.
Context (cmp : K → K → comparison) (key : A → option K) (val : A → Z).
Hypothesis Hcmp : cmp_order cmp.
Implicit Types (df : list A).

Lemma ascending_fmap {V} (h : V → V) (groups : list (K * V)) :
  ascending cmp groups → ascending cmp (prod_map id h <$> groups).
Proof.
  unfold ascending. induction 1 as [|g groups Hs IH Hall]; csimpl.
  { constructor. }
  constructor; [done|]. apply Forall_fmap.
  eapply Forall_impl; [done|]. by intros g'.
Qed.

Lemma groupby_int64_ascending df :
  ascending cmp (pd.groupby_sum cmp 0 pd.add64 key val df).
Proof.
  rewrite groupby_sum_int64. by apply ascending_fmap, groupby_sum_ascending.
Qed.

Lemma groupby_int64_NoDup df :
  NoDup (pd.groupby_sum cmp 0 pd.add64 key val df).*1.
Proof. eapply ascending_NoDup; [done|]. apply groupby_int64_ascending. Qed.

Lemma groupby_int64_key_complete df r k :
  r ∈ df → key r = Some k →
  ∃ g, g ∈ pd.groupby_sum cmp 0 pd.add64 key val df ∧ g.1 = k.
Proof.
  intros Hr Hk. rewrite groupby_sum_int64.
  destruct (groupby_sum_key_complete cmp 0 Z.add key val Hcmp df r k Hr Hk)
    as (g & Hg & Hgk).
  exists (prod_map id pd.wrap64 g). split; [|done].
  by apply list_elem_of_fmap_2.
Qed.

(** Every group has the key of some row, and the int64 of the sum of the
    cells of the rows that have its key. *)
Lemma groupby_int64_group df g :
  g ∈ pd.groupby_sum cmp 0 pd.add64 key val df →
  (∃ r, r ∈ df ∧ key r = Some g.1)
  ∧ g.2 = pd.wrap64 (suma_si (λ r, key r = Some g.1) val df).
Proof.
  rewrite groupby_sum_int64. intros (g' & -> & Hg')%list_elem_of_fmap.
  split.
  - apply (groupby_sum_key_sound cmp 0 Z.add key val Hcmp df g' Hg').
  - change (pd.wrap64 g'.2
            = pd.wrap64 (suma_si (λ r, key r = Some g'.1) val df)).
    f_equal.
    apply (groupby_sum_group cmp 0 Z.add key val Hcmp
             (λ z, z) eq_refl (λ _ _, eq_refl) df g' Hg').
Qed.
End groupby_int64.

Lemma suma2_fst a b : (suma2 a b).1 = a.1 + b.1.
Proof. done. Qed.

Lemma suma2_snd a b : (suma2 a b).2 = a.2 + b.2.
Proof. done. Qed.

(** X1: the monthly series has one row for each month in which the
    filtered table has a sale, and no other row; the subtotal and the
    margin of a row are the sums over the sales of its month, as int64
    values. *)
Theorem ventas_mes_groups :
  ∀ vf,
    NoDup (ventas_mes vf).*1
    ∧ (∀ e, e ∈ vf → ∃ g, g ∈ ventas_mes vf ∧ g.1 = VentaExt.mes e)
    ∧ (∀ g, g ∈ ventas_mes vf →
         (∃ e, e ∈ vf ∧ VentaExt.mes e = g.1)
         ∧ g.2.1 = pd.wrap64
                     (suma_si (λ e, VentaExt.mes e = g.1)
                        VentaExt.subtotal_cop vf)
         ∧ g.2.2 = pd.wrap64
                     (suma_si (λ e, VentaExt.mes e = g.1)
                        VentaExt.margen_total_cop vf)).
Proof.
  intros vf. rewrite ventas_mes_groupby, groupby_sum_int64_2.
  split; [|split].
  - eapply ascending_NoDup; [apply string_compare_order|].
    apply ascending_fmap.
    by apply groupby_sum_ascending, string_compare_order.
  - intros e He.
    destruct (groupby_sum_key_complete String.compare (0, 0) suma2
                (λ r, Some (VentaExt.mes r))
                (λ r, (VentaExt.subtotal_cop r, VentaExt.margen_total_cop r))
                string_compare_order vf e (VentaExt.mes e) He eq_refl)
      as (g & Hg & Hgk).
    exists (prod_map id (prod_map pd.wrap64 pd.wrap64) g).
    split; [by apply list_elem_of_fmap_2|done].
  - intros g (g' & -> & Hg)%list_elem_of_fmap. simpl. split; [|split].
    + apply (groupby_sum_key_sound _ _ _ _ _ string_compare_order) in Hg
        as (e & He & [= Hk]). by exists e.
    + f_equal.
      rewrite (groupby_sum_group String.compare (0, 0) suma2 _ _
                 string_compare_order fst eq_refl suma2_fst vf g' Hg).
      apply suma_si_ext; [|done].
      intros e _. split; [by intros [= ->]|by intros ->].
    + f_equal.
      rewrite (groupby_sum_group String.compare (0, 0) suma2 _ _
                 string_compare_order snd eq_refl suma2_snd vf g' Hg).
      apply suma_si_ext; [|done].
      intros e _. split; [by intros [= ->]|by intros ->].
Qed.

Lemma pair_order : cmp_order (pd.lex_compare String.compare String.compare).
Proof. apply lex_compare_order; apply string_compare_order. Qed.

Lemma desglose_groups col vf :
  desglose_de col vf
    (pd.groupby_sum (pd.lex_compare String.compare String.compare) 0 pd.add64
       (λ r, key2 (VentaExt.region r) (col r))
       VentaExt.subtotal_cop vf).
Proof.
  unfold desglose_de. split; [|split].
  - apply groupby_int64_NoDup, pair_order.
  - intros e a b He Ha Hb.
    apply (groupby_int64_key_complete _ _ _ pair_order vf e); [done|].
    by apply key2_Some.
  - intros g Hg.
    apply (groupby_int64_group _ _ _ pair_order) in Hg as [(e & He & Hk) ->].
    split.
    + exists e. split; [done|]. by apply key2_Some in Hk.
    + f_equal. apply suma_si_ext; [|done]. intros e' _. apply key2_Some.
Qed.

(** X2: the breakdown by region and segment, and the one by region and
    city, have one row for each pair of values some filtered sale has, and
    no other row, with the subtotal of the sales of that pair as an int64.
    A sale with a null region or a null segment (city) is in no row. *)
Theorem ventas_region_ciudad_groups :
  ∀ vf,
    desglose_de VentaExt.segmento vf (ventas_region vf)
    ∧ desglose_de VentaExt.ciudad vf (ventas_ciudad vf).
Proof. intros vf. split; apply desglose_groups. Qed.

(** ** The rankings, row by row *)

Section ranking.
Context {K : Type}.
Implicit Types (df : list (K * Z)).

Lemma elem_of_head_sort n df g :
  g ∈ pd.head n (pd.sort_values_desc df) → g ∈ df.
Proof.
  unfold pd.head, pd.sort_values_desc. intros Hg.
  pose proof (elem_of_sublist _ _ _ Hg
                (sublist_take (merge_sort pd.sum_ge df) n)) as Hs.
  by rewrite merge_sort_Permutation in Hs.
Qed.

Lemma head_sort_NoDup n df :
  NoDup df.*1 → NoDup (pd.head n (pd.sort_values_desc df)).*1.
Proof.
  unfold pd.head, pd.sort_values_desc. intros Hnd.
  apply (sublist_NoDup _ (merge_sort pd.sum_ge df).*1).
  - by rewrite merge_sort_Permutation.
  - apply fmap_sublist, sublist_take.
Qed.

(** A row that is not among the first [n] has a sum no larger than any of
    them, and they are [n]. *)
Lemma head_sort_rank n df g :
  g ∈ df →
  g ∈ pd.head n (pd.sort_values_desc df)
  ∨ (length (pd.head n (pd.sort_values_desc df)) = n
     ∧ ∀ x, x ∈ pd.head n (pd.sort_values_desc df) → g.2 ≤ x.2).
Proof.
  unfold pd.head, pd.sort_values_desc. set (s := merge_sort pd.sum_ge df).
  intros Hg. assert (g ∈ take n s ++ drop n s) as Hin.
  { rewrite take_drop. unfold s. by rewrite merge_sort_Permutation. }
  apply elem_of_app in Hin as [Hin|Hin]; [by left|]. right.
  assert (StronglySorted pd.sum_ge (take n s ++ drop n s)) as Hs.
  { rewrite take_drop. apply (StronglySorted_merge_sort pd.sum_ge). }
  apply StronglySorted_app in Hs as (Hcross & _ & _). split.
  - destruct (decide (length s ≤ n)%nat) as [Hle|Hgt].
    + rewrite drop_ge in Hin by done. by apply elem_of_nil in Hin.
    + rewrite length_take. lia.
  - intros x Hx. by apply (Hcross x g).
Qed.
End ranking.

Lemma top_de_head_sort {K} `{EqDecision K} (cmp : K → K → comparison)
    (key : VentaExt.t → option K) vf :
  cmp_order cmp →
  top_de key vf
    (pd.head 15
       (pd.sort_values_desc
          (pd.groupby_sum cmp 0 pd.add64 key VentaExt.subtotal_cop vf))).
Proof.
  intros Hcmp. set (groups := pd.groupby_sum _ _ _ _ _ vf).
  split; [|split].
  - apply head_sort_NoDup. by apply (groupby_int64_NoDup cmp).
  - intros g Hg%elem_of_head_sort. by apply (groupby_int64_group cmp).
  - intros e k He Hk.
    destruct (groupby_int64_key_complete cmp key VentaExt.subtotal_cop
                Hcmp vf e k He Hk) as (g & Hg & <-).
    destruct (head_sort_rank 15 groups g Hg) as [Hin|[Hlen Hle]].
    + left. by exists g.
    + right. split; [done|]. intros x Hx.
      apply (groupby_int64_group _ _ _ Hcmp) in Hg as [_ <-]. by apply Hle.
Qed.

Lemma id_compare_order : cmp_order pd.id_compare.
Proof.
  split.
  - intros [x|x] [y|y]; simpl; try done.
    + by intros ->%Z.compare_eq.
    + by intros ->%(cmp_eq _ string_compare_order).
  - intros [x|x]; simpl; [apply Z.compare_refl|].
    apply (cmp_refl _ string_compare_order).
  - intros [x|x] [y|y]; simpl; try done.
    + apply (cmp_gt_lt _ Z_compare_order).
    + apply (cmp_gt_lt _ string_compare_order).
  - intros [x|x] [y|y] [z|z]; simpl; try done.
    + apply (cmp_lt_trans _ Z_compare_order).
    + apply (cmp_lt_trans _ string_compare_order).
Qed.

(** X3: every row of the top-customers ranking is a (customer, name) pair
    of the filtered table with the subtotal of its sales as an int64, each
    pair at most once; a pair that is not ranked has a subtotal no larger
    than any ranked one, and then the ranking has 15 rows.  The top-products
    ranking is the same over (product, sku, description).  A sale with a
    null cell in one of these columns is in no group. *)
Theorem top_rankings :
  ∀ vf,
    top_de (λ e, key2 (VentaExt.cliente_id e) (VentaExt.nombre_cliente e))
      vf (top_clientes vf)
    ∧ top_de (λ e, key2 (key2 (VentaExt.producto_id e) (VentaExt.sku e))
                     (VentaExt.descripcion e))
        vf (top_productos vf).
Proof.
  intros vf. split; apply top_de_head_sort.
  - apply lex_compare_order; [apply id_compare_order|apply string_compare_order].
  - apply lex_compare_order; [|apply string_compare_order].
    apply lex_compare_order; [apply id_compare_order|apply string_compare_order].
Qed.

(** ** Filters, one after another *)

Lemma loc_loc_and {A} (p q : A → bool) (t : list A) :
  pd.loc (q <$> pd.loc (p <$> t) t) (pd.loc (p <$> t) t)
  = pd.loc ((λ r, p r && q r) <$> t) t.
Proof.
  induction t as [|r t IH]; [done|]. csimpl.
  destruct (p r) eqn:Hp; csimpl; [|done].
  destruct (q r); by rewrite IH.
Qed.

Lemma loc_ext {A} (p q : A → bool) (t : list A) :
  (∀ r, r ∈ t → p r = q r) → pd.loc (p <$> t) t = pd.loc (q <$> t) t.
Proof.
  intros Hpq. f_equal. apply list_fmap_ext. intros i r Hr.
  apply Hpq. by eapply list_elem_of_lookup_2.
Qed.

Lemma loc_sublist_mono {A} (p q : A → bool) (t : list A) :
  (∀ r, p r = true → q r = true) →
  pd.loc (p <$> t) t `sublist_of` pd.loc (q <$> t) t.
Proof.
  intros Hpq. induction t as [|r t IH]; [constructor|]. csimpl.
  destruct (p r) eqn:Hp.
  - rewrite (Hpq r Hp). by constructor.
  - destruct (q r); [by constructor|done].
Qed.

Lemma bool_eq_iff (a b : bool) : (a = true ↔ b = true) → a = b.
Proof. destruct a, b; intros [H1 H2]; try done; [by rewrite H1|by rewrite H2]. Qed.

Lemma ventas_f_ventas_f ve s1 s2 :
  ventas_f (ventas_f ve s1) s2
  = pd.loc ((λ e, fila_mask s1 e && fila_mask s2 e) <$> ve) ve.
Proof. by rewrite (ventas_f_loc _ s2), (ventas_f_loc ve s1), loc_loc_and. Qed.

(** X4: filtering a filtered table again with the same selection changes
    nothing; two selections can be applied in either order; and filtering
    by region alone and then by segment alone, over the same dates, is
    filtering by both at once. *)
Theorem ventas_f_compose :
  (∀ ve sel, ventas_f (ventas_f ve sel) sel = ventas_f ve sel)
  ∧ (∀ ve s1 s2, ventas_f (ventas_f ve s1) s2 = ventas_f (ventas_f ve s2) s1)
  ∧ (∀ ve desde hasta region segmento,
       ventas_f (ventas_f ve (Seleccion.mk desde hasta region "Todos"))
         (Seleccion.mk desde hasta "Todos" segmento)
       = ventas_f ve (Seleccion.mk desde hasta region segmento)).
Proof.
  split; [|split].
  - intros ve sel. rewrite ventas_f_ventas_f, ventas_f_loc.
    apply loc_ext. intros e _. by destruct (fila_mask sel e).
  - intros ve s1 s2. rewrite !ventas_f_ventas_f.
    apply loc_ext. intros e _. apply andb_comm.
  - intros ve desde hasta region segmento.
    rewrite ventas_f_ventas_f, ventas_f_loc. apply loc_ext. intros e _.
    apply bool_eq_iff. rewrite andb_true_iff, !fila_mask_spec.
    unfold cumple, en_rango, cumple_region, cumple_segmento. simpl. tauto.
Qed.

(** X5: selecting a region never adds a row to what "Todos" returns with
    the same dates and segment, and neither does selecting a segment;
    moving the start date earlier or the end date later never removes a
    row.  Each time the smaller result is the larger one with rows left
    out, in the same order. *)
Theorem ventas_f_monotone :
  (∀ ve desde hasta region segmento,
     ventas_f ve (Seleccion.mk desde hasta region segmento)
       `sublist_of` ventas_f ve (Seleccion.mk desde hasta "Todos" segmento)
     ∧ ventas_f ve (Seleccion.mk desde hasta region segmento)
         `sublist_of` ventas_f ve (Seleccion.mk desde hasta region "Todos"))
  ∧ (∀ ve desde hasta desde' hasta' region segmento,
       ts_le (pd.to_datetime desde') (pd.to_datetime desde) →
       ts_le (pd.to_datetime hasta) (pd.to_datetime hasta') →
       ventas_f ve (Seleccion.mk desde hasta region segmento)
         `sublist_of` ventas_f ve (Seleccion.mk desde' hasta' region segmento)).
Proof.
  split.
  - intros ve desde hasta region segmento. rewrite !ventas_f_loc.
    split; apply loc_sublist_mono; intros e; rewrite !fila_mask_spec;
      unfold cumple, en_rango, cumple_region, cumple_segmento; simpl; tauto.
  - intros ve desde hasta desde' hasta' region segmento Hd Hh.
    rewrite !ventas_f_loc. apply loc_sublist_mono. intros e.
    rewrite !fila_mask_spec. unfold cumple, en_rango. simpl.
    intros [(t & Ht & H1 & H2) Hrest]. split; [|done].
    exists t. unfold ts_le in *. split; [done|].
    split; eapply ts_leb_trans; done.
Qed.

(** ** The regions share the total *)

Lemma suma_fmap_add {A} (f g : A → Z) (xs : list A) :
  suma ((λ x, f x + g x) <$> xs) = suma (f <$> xs) + suma (g <$> xs).
Proof. unfold suma. induction xs as [|x xs IH]; csimpl; lia. Qed.

Lemma suma_fmap_zero {A} (xs : list A) : suma ((λ _, 0) <$> xs) = 0.
Proof. unfold suma. induction xs as [|x xs IH]; csimpl; lia. Qed.

Lemma suma_indicator {A} `{EqDecision A} (y : A) (a : Z) (xs : list A) :
  NoDup xs →
  suma ((λ x, if decide (x = y) then a else 0) <$> xs)
  = if decide (y ∈ xs) then a else 0.
Proof.
  unfold suma. induction 1 as [|x xs Hx Hnd IH]; csimpl.
  { done. }
  rewrite IH. clear IH.
  destruct (decide (x = y)) as [->|Hne], (decide (y ∈ xs)) as [Hy|Hy];
    try done; case_decide as Hin; try lia.
  - exfalso. apply Hin. left.
  - exfalso. apply Hin. by right.
  - exfalso. apply elem_of_cons in Hin as [->|?]; done.
Qed.

Lemma suma_si_split_and {A} (P Q : A → Prop)
    `{∀ r, Decision (P r)} `{∀ r, Decision (Q r)} (f : A → Z) (df : list A) :
  suma_si P f df
  = suma_si (λ r, P r ∧ Q r) f df + suma_si (λ r, P r ∧ ¬ Q r) f df.
Proof.
  induction df as [|r df IH]; [done|]. rewrite !suma_si_cons, IH.
  destruct (decide (P r)), (decide (Q r)); repeat case_decide;
    solve [lia|tauto].
Qed.

Lemma suma_si_loc {A} (P : A → Prop) `{∀ r, Decision (P r)} (p : A → bool)
    (f : A → Z) (t : list A) :
  suma_si P f (pd.loc (p <$> t) t) = suma_si (λ r, p r = true ∧ P r) f t.
Proof.
  induction t as [|r t IH]; [done|]. csimpl. rewrite suma_si_cons.
  destruct (p r) eqn:Hp.
  - rewrite suma_si_cons, IH.
    destruct (decide (P r));
      [rewrite decide_True by done|rewrite decide_False by tauto]; done.
  - rewrite IH, decide_False; [lia|]. by intros [? _].
Qed.

Lemma sum_ventas_f (col : VentaExt.t → Z) ve sel :
  pd.sum (col <$> ventas_f ve sel)
  = pd.wrap64 (suma_si (λ e, fila_mask sel e = true) col ve).
Proof. by rewrite sum_suma, ventas_f_loc, <- suma_loc. Qed.

Lemma suma_filter {A} (P : A → Prop) `{∀ r, Decision (P r)} (f : A → Z)
    (df : list A) :
  suma (f <$> filter P df) = suma_si P f df.
Proof.
  induction df as [|r df IH]; [done|]. rewrite suma_si_cons, filter_cons.
  destruct (decide (P r)); csimpl; by rewrite IH.
Qed.

Lemma fila_mask_con_region sel r e :
  r ≠ "Todos" →
  fila_mask (con_region sel r) e
  = fila_mask (con_region sel "Todos") e
    && bool_decide (VentaExt.region e = Some r).
Proof.
  intros Hr. apply bool_eq_iff.
  rewrite andb_true_iff, bool_decide_eq_true, !fila_mask_spec.
  unfold cumple, en_rango, cumple_region, cumple_segmento. simpl. tauto.
Qed.

Lemma NoDup_regiones ve : NoDup (regiones ve).
Proof.
  unfold regiones, pd.sorted. rewrite merge_sort_Permutation.
  apply NoDup_remove_dups.
Qed.

(** The rows one selection keeps, summed over the regions of a list. *)
Lemma suma_regiones (f : VentaExt.t → Z) sel (regs : list string) ve :
  NoDup regs → "Todos" ∉ regs →
  (∀ e x, e ∈ ve → VentaExt.region e = Some x → x ∈ regs) →
  suma ((λ r, suma_si (λ e, fila_mask (con_region sel r) e = true)
                f ve) <$> regs)
  = suma_si (λ e, fila_mask (con_region sel "Todos") e = true
                  ∧ VentaExt.region e ≠ None)
      f ve.
Proof.
  intros Hnd Htodos. induction ve as [|e ve IH]; intros Hregs.
  { rewrite suma_si_nil. apply suma_fmap_zero. }
  transitivity
    (suma ((λ r, (if decide (fila_mask (con_region sel r) e = true)
                  then f e else 0)
                 + suma_si (λ e, fila_mask (con_region sel r) e = true)
                     f ve) <$> regs)).
  { f_equal. }
  rewrite (suma_fmap_add
             (λ r, if decide (fila_mask (con_region sel r) e = true)
                   then f e else 0)).
  rewrite IH by (intros e' x He'; apply Hregs; by right).
  rewrite (suma_si_cons _ _ e). f_equal. clear IH.
  transitivity
    (suma ((λ r, if decide (VentaExt.region e = Some r)
                 then (if fila_mask (con_region sel "Todos") e
                       then f e else 0)
                 else 0) <$> regs)).
  { f_equal. apply list_fmap_ext. intros _ r Hr%list_elem_of_lookup_2.
    rewrite fila_mask_con_region by (by intros ->).
    destruct (fila_mask (con_region sel "Todos") e); simpl.
    - destruct (decide (VentaExt.region e = Some r)) as [Heq|Hne].
      + by rewrite bool_decide_eq_true_2.
      + by rewrite bool_decide_eq_false_2.
    - by destruct (decide (VentaExt.region e = Some r)). }
  destruct (VentaExt.region e) as [x|] eqn:Hx.
  - transitivity
      (suma ((λ r, if decide (r = x)
                   then (if fila_mask (con_region sel "Todos") e
                         then f e else 0)
                   else 0) <$> regs)).
    { f_equal. apply list_fmap_ext. intros _ r _.
      destruct (decide (r = x)) as [->|Hne];
        [by rewrite decide_True|by rewrite decide_False by congruence]. }
    rewrite suma_indicator by done.
    rewrite decide_True by (apply (Hregs e); [left|done]).
    destruct (fila_mask (con_region sel "Todos") e);
      [by rewrite decide_True|by rewrite decide_False by (by intros [? _])].
  - rewrite decide_False by (by intros [_ ?]).
    transitivity (suma ((λ _, 0) <$> regs)); [|apply suma_fmap_zero].
    f_equal.
Qed.

Lemma reparte_por_region_sum (col : VentaExt.t → Z) ve sel :
  "Todos" ∉ regiones ve →
  reparte_por_region (λ vf, pd.sum (col <$> vf)) col ve sel.
Proof.
  intros Htodos. unfold reparte_por_region.
  rewrite (list_fmap_ext
             (λ r, pd.sum (col <$> ventas_f ve (con_region sel r)))
             (λ r, pd.wrap64
                     (suma_si (λ e, fila_mask (con_region sel r) e = true)
                        col ve)) (regiones ve))
    by (intros _ r _; apply sum_ventas_f).
  rewrite sum_fmap_wrap, sum_ventas_f. unfold pd.add64.
  rewrite !sum_suma, wrap64_add. f_equal.
  rewrite (suma_si_split_and _ (λ e, VentaExt.region e ≠ None)).
  f_equal.
  - rewrite <- (suma_regiones _ sel (regiones ve) ve);
      [done|apply NoDup_regiones|done|].
    intros e x He Hx. apply elem_of_regiones. eauto.
  - rewrite suma_filter, ventas_f_loc, suma_si_loc. apply suma_si_ext; [|done].
    intros e _. split; intros [Hm Hr]; (split; [done|]).
    + destruct (VentaExt.region e); [|done]. exfalso. by apply Hr.
    + by intros Hne.
Qed.

(** X6: when no row has a region called "Todos", each of the three sales
    KPIs (total sales, total margin, units; sums of int64 columns) of a
    selection with "Todos" in the region box is the sum of its values for
    the same selection with each region of [regiones] chosen instead, plus
    the sum over the selected sales that have no region, added in int64. *)
Theorem kpis_by_region :
  ∀ ve sel,
    "Todos" ∉ regiones ve →
    reparte_por_region total_ventas VentaExt.subtotal_cop ve sel
    ∧ reparte_por_region margen_total VentaExt.margen_total_cop ve sel
    ∧ reparte_por_region total_unidades VentaExt.cantidad ve sel.
Proof.
  intros ve sel Htodos. split; [|split]; by apply reparte_por_region_sum.
Qed.

Lemma kpis_by_region_witness :
  reparte_por_region total_ventas VentaExt.subtotal_cop
    (Data.ventas_ext Sample.data_sur) Sample.todo
  ∧ regiones (Data.ventas_ext Sample.data_sur) = ["North"; "South"].
Proof.
  split; [|reflexivity].
  apply (kpis_by_region (Data.ventas_ext Sample.data_sur) Sample.todo).
  apply (bool_decide_unpack _). vm_compute. exact I.
Defined.

(** ** The options of the select boxes *)

Lemma StronglySorted_le_lt (xs : list string) :
  StronglySorted String.le xs → NoDup xs →
  StronglySorted (λ a b, String.compare a b = Lt) xs.
Proof.
  induction 1 as [|x xs Hs IH Hall]; intros Hnd; [constructor|].
  apply NoDup_cons in Hnd as [Hx Hnd]. constructor; [by apply IH|].
  apply Forall_forall. intros y Hy. apply bucket_lt_le. split.
  - by eapply Forall_forall in Hall.
  - by intros ->.
Qed.

Lemma opciones_de_sorted col ve :
  opciones_de col ve
    (pd.sorted (remove_dups (omap col ve)))
    ("Todos" :: pd.sorted (remove_dups (omap col ve))).
Proof.
  assert (∀ x, x ∈ pd.sorted (remove_dups (omap col ve))
               ↔ ∃ e, e ∈ ve ∧ col e = Some x) as Hin.
  { intros x. unfold pd.sorted.
    by rewrite merge_sort_Permutation, elem_of_remove_dups, list_elem_of_omap. }
  assert (NoDup (pd.sorted (remove_dups (omap col ve)))) as Hnd.
  { unfold pd.sorted. rewrite merge_sort_Permutation. apply NoDup_remove_dups. }
  split; [|split; [done|split; [done|]]].
  - apply StronglySorted_le_lt; [|done].
    unfold pd.sorted. apply StronglySorted_merge_sort; apply _.
  - rewrite NoDup_cons. split.
    + intros [Hno _] e He Hcol. apply Hno, Hin. eauto.
    + intros Hno. split; [|done]. intros (e & He & Hcol)%Hin. by apply (Hno e).
Qed.

(** X7: the region box offers "Todos" first and then the regions of the
    enriched table, each once, in increasing order, nulls left out; no
    option is there twice unless some row has the region "Todos" itself.
    The segment box is built the same way. *)
Theorem opciones_de_filtros :
  ∀ ve,
    opciones_de VentaExt.region ve (regiones ve) (regiones_opciones ve)
    ∧ opciones_de VentaExt.segmento ve (segmentos ve) (segmentos_opciones ve).
Proof. intros ve. split; apply opciones_de_sorted. Qed.

(** ** The default date range, exactly *)

Lemma ts_ltb_false a b : ts_ltb a b = false → ts_leb b a = true.
Proof. ts_cases. Qed.

Lemma series_min_in s m : pd.series_min s = Some m → Some m ∈ s.
Proof.
  revert m. induction s as [|[x|] s IH]; intros m Hm; csimpl in Hm; [done| |].
  - destruct (pd.series_min s) as [m'|]; simplify_eq/=; [|left].
    unfold pd.ts_min. destruct (ts_leb x m'); [left|right; by apply IH].
  - right. by apply IH.
Qed.

Lemma series_max_in s m : pd.series_max s = Some m → Some m ∈ s.
Proof.
  revert m. induction s as [|[x|] s IH]; intros m Hm; csimpl in Hm; [done| |].
  - destruct (pd.series_max s) as [m'|]; simplify_eq/=; [|left].
    unfold pd.ts_max. destruct (ts_leb x m'); [right; by apply IH|left].
  - right. by apply IH.
Qed.

Lemma series_min_is_Some s t : Some t ∈ s → is_Some (pd.series_min s).
Proof.
  intros Hin. destruct (pd.series_min s) eqn:Hs; [done|].
  apply series_min_None in Hs. by eapply Forall_forall in Hs.
Qed.

Lemma series_max_is_Some s t : Some t ∈ s → is_Some (pd.series_max s).
Proof.
  intros Hin. destruct (pd.series_max s) eqn:Hs; [done|].
  apply series_max_None in Hs. by eapply Forall_forall in Hs.
Qed.

(** Python's [min] started on a timestamp: the least of the timestamps. *)
Lemma min_fechas_spec m xs :
  ∃ lo, min_fechas (Some m) xs = Some lo
        ∧ (lo = m ∨ Some lo ∈ xs)
        ∧ ts_le lo m ∧ ∀ y, Some y ∈ xs → ts_le lo y.
Proof.
  unfold min_fechas, ts_le. revert m. induction xs as [|y xs IH]; intros m; simpl.
  { exists m. split; [done|]. split; [by left|]. split; [apply ts_leb_refl|].
    by intros y ?%elem_of_nil. }
  assert (∀ b lo, foldl (λ best y, if lt_fechas y best then y else best) (Some b) xs
                  = Some lo →
            (lo = b ∨ Some lo ∈ xs) → ts_leb lo b = true →
            (∀ z, Some z ∈ xs → ts_leb lo z = true) →
            ts_leb b m = true → (b = m ∨ Some b = y) →
            (∀ z, y = Some z → ts_leb b z = true) →
            ∃ lo, foldl (λ best y, if lt_fechas y best then y else best) (Some b) xs
                  = Some lo
                  ∧ (lo = m ∨ Some lo ∈ y :: xs)
                  ∧ ts_leb lo m = true
                  ∧ ∀ z, Some z ∈ y :: xs → ts_leb lo z = true) as Hstep.
  { intros b lo Hfold Hlo Hlob Hrest Hbm Hb Hby. exists lo. split; [done|].
    split; [|split].
    - destruct Hlo as [-> | ?]; [|right; by right].
      destruct Hb as [-> | ->]; [by left|right; left].
    - by eapply ts_leb_trans.
    - intros z [Hzy|Hz]%elem_of_cons; [|by apply Hrest].
      eapply ts_leb_trans; [done|]. by apply Hby. }
  destruct y as [y|]; simpl.
  - destruct (ts_ltb y m) eqn:Hlt.
    + destruct (IH y) as (lo & Hfold & Hlo & Hloy & Hrest).
      apply (Hstep y lo); try done.
      * by apply ts_ltb_leb.
      * by right.
      * intros z [= ->]. apply ts_leb_refl.
    + destruct (IH m) as (lo & Hfold & Hlo & Hlom & Hrest).
      apply (Hstep m lo); try done.
      * apply ts_leb_refl.
      * by left.
      * intros z [= ->]. by apply ts_ltb_false.
  - destruct (IH m) as (lo & Hfold & Hlo & Hlom & Hrest).
    apply (Hstep m lo); try done; [apply ts_leb_refl|by left].
Qed.

Lemma max_fechas_spec m xs :
  ∃ hi, max_fechas (Some m) xs = Some hi
        ∧ (hi = m ∨ Some hi ∈ xs)
        ∧ ts_le m hi ∧ ∀ y, Some y ∈ xs → ts_le y hi.
Proof.
  unfold max_fechas, ts_le. revert m. induction xs as [|y xs IH]; intros m; simpl.
  { exists m. split; [done|]. split; [by left|]. split; [apply ts_leb_refl|].
    by intros y ?%elem_of_nil. }
  assert (∀ b hi, foldl (λ best y, if lt_fechas best y then y else best) (Some b) xs
                  = Some hi →
            (hi = b ∨ Some hi ∈ xs) → ts_leb b hi = true →
            (∀ z, Some z ∈ xs → ts_leb z hi = true) →
            ts_leb m b = true → (b = m ∨ Some b = y) →
            (∀ z, y = Some z → ts_leb z b = true) →
            ∃ hi, foldl (λ best y, if lt_fechas best y then y else best) (Some b) xs
                  = Some hi
                  ∧ (hi = m ∨ Some hi ∈ y :: xs)
                  ∧ ts_leb m hi = true
                  ∧ ∀ z, Some z ∈ y :: xs → ts_leb z hi = true) as Hstep.
  { intros b hi Hfold Hhi Hbhi Hrest Hmb Hb Hby. exists hi. split; [done|].
    split; [|split].
    - destruct Hhi as [-> | ?]; [|right; by right].
      destruct Hb as [-> | ->]; [by left|right; left].
    - by eapply ts_leb_trans.
    - intros z [Hzy|Hz]%elem_of_cons; [|by apply Hrest].
      eapply ts_leb_trans; [|done]. by apply Hby. }
  destruct y as [y|]; simpl.
  - destruct (ts_ltb m y) eqn:Hlt.
    + destruct (IH y) as (hi & Hfold & Hhi & Hyhi & Hrest).
      apply (Hstep y hi); try done.
      * by apply ts_ltb_leb.
      * by right.
      * intros z [= ->]. apply ts_leb_refl.
    + destruct (IH m) as (hi & Hfold & Hhi & Hmhi & Hrest).
      apply (Hstep m hi); try done.
      * apply ts_leb_refl.
      * by left.
      * intros z [= ->]. by apply ts_ltb_false.
  - destruct (IH m) as (hi & Hfold & Hhi & Hmhi & Hrest).
    apply (Hstep m hi); try done; [apply ts_leb_refl|by left].
Qed.

Lemma min_fechas_columns m (cols : list (list (option Timestamp))) :
  ∃ lo, min_fechas (Some m) (pd.series_min <$> cols) = Some lo
        ∧ (lo = m ∨ ∃ c, c ∈ cols ∧ Some lo ∈ c)
        ∧ ts_le lo m
        ∧ ∀ c t, c ∈ cols → Some t ∈ c → ts_le lo t.
Proof.
  destruct (min_fechas_spec m (pd.series_min <$> cols)) as (lo & Hlo & Hin & Hm & Hle).
  exists lo. split; [done|]. split; [|split; [done|]].
  - destruct Hin as [?|(c & Hc & ?)%list_elem_of_fmap]; [by left|].
    right. exists c. split; [done|]. by apply series_min_in.
  - intros c t Hc Ht.
    destruct (series_min_is_Some c t Ht) as [mc Hmc].
    unfold ts_le in *. eapply ts_leb_trans; [|by eapply series_min_le].
    apply Hle. rewrite <- Hmc. by apply list_elem_of_fmap_2.
Qed.

Lemma max_fechas_columns m (cols : list (list (option Timestamp))) :
  ∃ hi, max_fechas (Some m) (pd.series_max <$> cols) = Some hi
        ∧ (hi = m ∨ ∃ c, c ∈ cols ∧ Some hi ∈ c)
        ∧ ts_le m hi
        ∧ ∀ c t, c ∈ cols → Some t ∈ c → ts_le t hi.
Proof.
  destruct (max_fechas_spec m (pd.series_max <$> cols)) as (hi & Hhi & Hin & Hm & Hle).
  exists hi. split; [done|]. split; [|split; [done|]].
  - destruct Hin as [?|(c & Hc & ?)%list_elem_of_fmap]; [by left|].
    right. exists c. split; [done|]. by apply series_max_in.
  - intros c t Hc Ht.
    destruct (series_max_is_Some c t Ht) as [mc Hmc].
    unfold ts_le in *. eapply ts_leb_trans; [by eapply series_max_le|].
    apply Hle. rewrite <- Hmc. by apply list_elem_of_fmap_2.
Qed.

Lemma elem_of_fechas_de data c :
  Some c ∈ fechas_de data ↔
  Some c ∈ VentaExt.fecha <$> Data.ventas_ext data
  ∨ ∃ col, col ∈ [Cartera.fecha_factura <$> Data.cartera data;
                  Inventario.fecha_corte <$> Data.inventario data;
                  Importacion.fecha_orden <$> Data.importaciones data]
           ∧ Some c ∈ col.
Proof.
  unfold fechas_de. rewrite !elem_of_app. split.
  - intros [?|[?|[?|?]]]; [by left|right..]; eexists; (split; [|done]).
    + left.
    + right; left.
    + right; right; left.
  - intros [?|(col & Hcol & ?)]; [by left|]. right.
    repeat (apply elem_of_cons in Hcol as [->|Hcol]; [tauto|]).
    by apply elem_of_nil in Hcol.
Qed.

(** X8: when the receivables, the inventory or the imports file has only
    its header line, [min] and [max] of the four values raise TypeError (a
    float nan does not compare with a timestamp or NaT).  Otherwise: when
    no sale has a date, [min_date] and [max_date] are both NaT, whatever
    dates the other three tables have, and when some sale has a date, they
    are the earliest and the latest of the dates of all four columns (sale
    date, invoice date, cutoff date, order date). *)
Theorem min_max_date_spec :
  ∀ data,
    (¬ con_lineas data →
     min_date data = Raise TypeError ∧ max_date data = Raise TypeError)
    ∧ (con_lineas data →
       ((∀ e, e ∈ Data.ventas_ext data → VentaExt.fecha e = None) →
        min_date data = Ok pd.NaT ∧ max_date data = Ok pd.NaT)
       ∧ (∀ e t,
            e ∈ Data.ventas_ext data → VentaExt.fecha e = Some t →
            ∃ lo hi,
              min_date data = Ok (pd.ts lo) ∧ max_date data = Ok (pd.ts hi)
              ∧ Some lo ∈ fechas_de data ∧ Some hi ∈ fechas_de data
              ∧ ∀ t', Some t' ∈ fechas_de data → ts_le lo t' ∧ ts_le t' hi)).
Proof.
  intros data. split.
  { intros Hno. by rewrite min_date_Raise, max_date_Raise. }
  intros Hcon. rewrite min_date_fechas, max_date_fechas by done. split.
  - intros Hnone.
    assert (∀ t, Some t ∉ VentaExt.fecha <$> Data.ventas_ext data) as Hno.
    { intros t (e & Ht & He)%list_elem_of_fmap. by rewrite (Hnone e He) in Ht. }
    destruct (pd.series_min _) as [m|] eqn:Hm.
    { apply series_min_in in Hm. by apply Hno in Hm. }
    destruct (pd.series_max _) as [m|] eqn:Hx.
    { apply series_max_in in Hx. by apply Hno in Hx. }
    by rewrite min_fechas_None, max_fechas_None.
  - intros e t He Ht.
    assert (Some t ∈ VentaExt.fecha <$> Data.ventas_ext data) as Hin.
    { rewrite <- Ht. by apply list_elem_of_fmap_2. }
    destruct (series_min_is_Some _ _ Hin) as [m Hm].
    destruct (series_max_is_Some _ _ Hin) as [x Hx].
    rewrite Hm, Hx.
    destruct (min_fechas_columns m
      [Cartera.fecha_factura <$> Data.cartera data;
       Inventario.fecha_corte <$> Data.inventario data;
       Importacion.fecha_orden <$> Data.importaciones data])
      as (lo & Hlo & Hlo_in & Hlo_m & Hlo_le).
    destruct (max_fechas_columns x
      [Cartera.fecha_factura <$> Data.cartera data;
       Inventario.fecha_corte <$> Data.inventario data;
       Importacion.fecha_orden <$> Data.importaciones data])
      as (hi & Hhi & Hhi_in & Hhi_x & Hhi_le).
    exists lo, hi.
    split; [f_equal; apply of_datetime_ts; exact Hlo|].
    split; [f_equal; apply of_datetime_ts; exact Hhi|].
    split; [|split].
    + apply elem_of_fechas_de. destruct Hlo_in as [->|?]; [left|by right].
      by apply series_min_in.
    + apply elem_of_fechas_de. destruct Hhi_in as [->|?]; [left|by right].
      by apply series_max_in.
    + intros t' [Ht'|(col & Hcol & Ht')]%elem_of_fechas_de; unfold ts_le in *.
      * split.
        -- eapply ts_leb_trans; [done|]. by eapply series_min_le.
        -- eapply ts_leb_trans; [|done]. by eapply series_max_le.
      * split; [by eapply Hlo_le|by eapply Hhi_le].
Qed.

Lemma min_max_date_spec_witness :
  (load_data Sample.csv_sin_inventario
   = Ok (Sample.loaded Sample.csv_sin_inventario)
   ∧ load_data Sample.csv_sin_ventas = Ok Sample.data_sin_ventas
   ∧ load_data Sample.csv_sur = Ok Sample.data_sur)
  ∧ (min_date (Sample.loaded Sample.csv_sin_inventario) = Raise TypeError
     ∧ max_date (Sample.loaded Sample.csv_sin_inventario) = Raise TypeError)
  ∧ (min_date Sample.data_sin_ventas = Ok pd.NaT
     ∧ max_date Sample.data_sin_ventas = Ok pd.NaT)
  ∧ ∃ lo hi,
      min_date Sample.data_sur = Ok (pd.ts lo)
      ∧ max_date Sample.data_sur = Ok (pd.ts hi)
      ∧ Some lo ∈ fechas_de Sample.data_sur
      ∧ Some hi ∈ fechas_de Sample.data_sur
      ∧ ∀ t', Some t' ∈ fechas_de Sample.data_sur → ts_le lo t' ∧ ts_le t' hi.
Proof.
  split; [by repeat split|]. split; [|split].
  - apply (proj1 (min_max_date_spec (Sample.loaded Sample.csv_sin_inventario))).
    by intros (_ & ? & _).
  - apply (proj1 (proj2 (min_max_date_spec Sample.data_sin_ventas)
                    ltac:(by repeat split))).
    by intros e ?%elem_of_nil.
  - apply (proj2 (proj2 (min_max_date_spec Sample.data_sur)
                    ltac:(by repeat split))
             Sample.fila_sur Sample.febrero_20); [|reflexivity].
    apply (list_elem_of_lookup_2 _ 2%nat). reflexivity.
Defined.

(** ** What the files give the page *)

Lemma elem_of_loc_lookup {A} (m : list bool) (t : list A) i r :
  t !! i = Some r → m !! i = Some true → r ∈ pd.loc m t.
Proof.
  revert m i. induction t as [|x t IH]; intros [|b m] [|i] Ht Hm;
    simplify_eq/=; [left|].
  destruct b; [right|]; by eapply IH.
Qed.

Lemma elem_of_limpiar_por_clave {A K} `{Countable K} (key : A → K)
    (complete : A → bool) (t : list A) r :
  r ∈ limpiar_por_clave key complete t → r ∈ t ∧ complete r = true.
Proof.
  unfold limpiar_por_clave, pd.dropna, pd.drop_duplicates.
  intros [Hr Hc]%elem_of_loc. split; [|done].
  by eapply elem_of_sublist; [|apply loc_sublist].
Qed.

(** The first row of a key is in the cleaned dimension table. *)
Lemma first_in_limpiar_por_clave {A K} `{Countable K} (key : A → K)
    (complete : A → bool) (t : list A) i r :
  t !! i = Some r → complete r = true → first_occurrence key t i r →
  r ∈ limpiar_por_clave key complete t.
Proof.
  intros Hi Hc Hfirst.
  destruct (clean_keeps key complete (λ r, complete r = true)
              (λ _, reflexivity _) t) as (m & Hlen & -> & Hm).
  apply (elem_of_loc_lookup _ _ i); [done|]. by apply (Hm i r Hi).
Qed.

(** X9: after [load_data] the customer ids of [clientes] are pairwise
    distinct and none is null, and so are the product ids of [productos];
    every row of [ventas], of [ventas_ext] and of [cartera] has all its key
    cells; [inventario] and [importaciones] are the rows of their files,
    untouched. *)
Theorem load_data_invariants :
  ∀ csv data,
    load_data csv = Ok data →
    NoDup (Cliente.cliente_id <$> Data.clientes data)
    ∧ Forall cliente_con_clave (Data.clientes data)
    ∧ NoDup (Producto.producto_id <$> Data.productos data)
    ∧ Forall producto_con_clave (Data.productos data)
    ∧ Forall venta_con_clave (Data.ventas data)
    ∧ Forall (λ e, venta_con_clave (VentaExt.venta e)) (Data.ventas_ext data)
    ∧ Forall cartera_con_clave (Data.cartera data)
    ∧ Data.inventario data = Csv.inventario_andina csv
    ∧ Data.importaciones data = Csv.importaciones_andina csv.
Proof.
  intros csv data (_ & _ & ->)%load_data_Ok. simpl.
  assert (Forall venta_con_clave
            (venta_int64 <$> limpiar_ventas (Csv.ventas_andina csv))) as Hv.
  { apply Forall_fmap.
    eapply Forall_impl; [apply limpiar_ventas_completas|].
    intros v Hv%ventas_completa_spec. by apply venta_int64_con_clave. }
  repeat split; try done.
  - apply clean_NoDup.
  - apply Forall_forall. intros c [_ Hc]%elem_of_limpiar_por_clave.
    by apply notna_true.
  - apply clean_NoDup.
  - apply Forall_forall. intros p [_ Hp]%elem_of_limpiar_por_clave.
    by apply notna_true.
  - by apply Forall_fmap.
  - eapply Forall_impl; [apply loc_Forall|].
    intros d. apply cartera_completa_spec.
Qed.

Lemma load_data_invariants_witness :
  NoDup (Cliente.cliente_id <$> Data.clientes Sample.data)
  ∧ Forall venta_con_clave (Data.ventas Sample.data).
Proof.
  destruct (load_data_invariants Sample.csv Sample.data eq_refl)
    as (Hc & _ & _ & _ & Hv & _).
  by split.
Defined.

(** X10: the customer columns of an enriched sale are those of the first
    row of the customers file that has the sale's customer id, and they
    are null when no row of the file has it; likewise for the product
    columns and the products file. *)
Theorem enriquecer_first_match :
  ∀ csv data e,
    load_data csv = Ok data → e ∈ Data.ventas_ext data →
    (∀ i c, Csv.clientes_andina csv !! i = Some c →
            pd.as_id (Cliente.cliente_id c) = VentaExt.cliente_id e →
            first_occurrence Cliente.cliente_id (Csv.clientes_andina csv) i c →
            VentaExt.cliente e = ClienteCols.of_row c)
    ∧ ((∀ c, c ∈ Csv.clientes_andina csv →
             pd.as_id (Cliente.cliente_id c) ≠ VentaExt.cliente_id e) →
       VentaExt.cliente e = ClienteCols.nulls)
    ∧ (∀ i p, Csv.productos_andina csv !! i = Some p →
              pd.as_id (Producto.producto_id p) = VentaExt.producto_id e →
              first_occurrence Producto.producto_id (Csv.productos_andina csv) i p →
              VentaExt.producto e = ProductoCols.of_row p)
    ∧ ((∀ p, p ∈ Csv.productos_andina csv →
             pd.as_id (Producto.producto_id p) ≠ VentaExt.producto_id e) →
       VentaExt.producto e = ProductoCols.nulls).
Proof.
  intros csv data e (_ & _ & ->)%load_data_Ok. simpl.
  intros (? & -> & (v & -> & Hv)%list_elem_of_fmap)%list_elem_of_fmap.
  unfold limpiar_ventas, pd.dropna in Hv. apply elem_of_loc in Hv as [_ Hc].
  apply ventas_completa_spec, venta_int64_con_clave in Hc
    as (_ & _ & Hcli & Hprod).
  revert Hcli Hprod. generalize (venta_int64 v). clear v. intros v Hcli Hprod.
  unfold enriquecer_fila, campos_derivados, join_producto, join_cliente,
    VentaExt.cliente_id, VentaExt.producto_id. simpl.
  assert (∀ k : option Z, pd.as_id k ≠ None → k ≠ None) as Hid
    by (by intros [z|]).
  split; [|split; [|split]].
  - intros i c Hi Hk Hfirst. rewrite (matched_Some _ _ _ _ c); [done| | |done].
    + apply NoDup_as_id, clean_NoDup.
    + apply (first_in_limpiar_por_clave _ _ _ i); [done| |done].
      apply notna_true, Hid. by rewrite Hk.
  - intros Hno. rewrite matched_None; [done|].
    intros (c & Hk & [Hc _]%elem_of_limpiar_por_clave)%list_elem_of_fmap.
    by apply (Hno c).
  - intros i p Hi Hk Hfirst. rewrite (matched_Some _ _ _ _ p); [done| | |done].
    + apply NoDup_as_id, clean_NoDup.
    + apply (first_in_limpiar_por_clave _ _ _ i); [done| |done].
      apply notna_true, Hid. by rewrite Hk.
  - intros Hno. rewrite matched_None; [done|].
    intros (p & Hk & [Hp _]%elem_of_limpiar_por_clave)%list_elem_of_fmap.
    by apply (Hno p).
Qed.

Lemma enriquecer_first_match_witness :
  VentaExt.cliente Sample.fila_1 = ClienteCols.of_row Sample.cliente_10
  ∧ VentaExt.producto Sample.fila_3 = ProductoCols.nulls.
Proof.
  assert (Sample.fila_1 ∈ Data.ventas_ext Sample.data) as H1.
  { apply (list_elem_of_lookup_2 _ 0%nat). reflexivity. }
  assert (Sample.fila_3 ∈ Data.ventas_ext Sample.data) as H3.
  { apply (list_elem_of_lookup_2 _ 2%nat). reflexivity. }
  split.
  - apply (proj1 (enriquecer_first_match Sample.csv Sample.data Sample.fila_1
                    eq_refl H1) 1%nat Sample.cliente_10);
      [reflexivity|reflexivity|].
    intros j r' Hj Hr'. destruct j as [|j]; [|lia]. by simplify_eq/=.
  - apply (proj2 (proj2 (proj2
             (enriquecer_first_match Sample.csv Sample.data Sample.fila_3
                eq_refl H3)))).
    intros p Hp. apply list_elem_of_singleton in Hp as ->. done.
Defined.

Lemma saldo_de_suma_si estado cartera :
  saldo_de estado cartera
  = suma_si (λ d, Cartera.estado d = Some estado) Cartera.saldo_cop cartera.
Proof. done. Qed.

(** X11: for the tables [load_data] returns, each receivables KPI is the
    balance, as an int64, of the documents of the receivables file that
    have their three key cells (document id, customer id, invoice date)
    and the status of the KPI; a document with a null key cell counts in
    neither. *)
Theorem cartera_kpis_from_file :
  ∀ csv data sel,
    load_data csv = Ok data →
    Dashboard.cartera_vigente (main data sel)
    = pd.wrap64
        (suma_si (λ d, cartera_con_clave d ∧ Cartera.estado d = Some "Vigente")
           Cartera.saldo_cop (Csv.cartera_andina csv))
    ∧ Dashboard.cartera_mora (main data sel)
      = pd.wrap64
          (suma_si
             (λ d, cartera_con_clave d ∧ Cartera.estado d = Some "En mora")
             Cartera.saldo_cop (Csv.cartera_andina csv)).
Proof.
  intros csv data sel (_ & _ & ->)%load_data_Ok. simpl.
  unfold cartera_vigente, cartera_mora.
  rewrite !cartera_estado_saldo, !saldo_de_suma_si.
  unfold limpiar_cartera, pd.dropna. rewrite !suma_si_loc.
  split; f_equal; apply suma_si_ext; try done; intros d _;
    by rewrite cartera_completa_spec.
Qed.

Lemma cartera_kpis_from_file_witness :
  Dashboard.cartera_vigente (main Sample.data Sample.todo)
  = pd.wrap64
      (suma_si (λ d, cartera_con_clave d ∧ Cartera.estado d = Some "Vigente")
         Cartera.saldo_cop (Csv.cartera_andina Sample.csv)).
Proof.
  apply (proj1 (cartera_kpis_from_file Sample.csv Sample.data Sample.todo
                  eq_refl)).
Defined.

(** X12: the inventory summary has one row for each logistics centre some
    snapshot names, with the value of all the snapshots of that centre
    added up, as an int64 (the inventory table is neither cleaned nor
    filtered); snapshots without a centre are in no row, so that the rows
    add up, in int64, to the value of the snapshots that name a centre. *)
Theorem inv_resumen_groups :
  (∀ inventario,
     NoDup (inv_resumen inventario).*1
     ∧ (∀ r c, r ∈ inventario → Inventario.centro_logistico r = Some c →
          ∃ g, g ∈ inv_resumen inventario ∧ g.1 = c)
     ∧ (∀ g, g ∈ inv_resumen inventario →
          (∃ r, r ∈ inventario ∧ Inventario.centro_logistico r = Some g.1)
          ∧ g.2 = pd.wrap64
                    (suma_si (λ r, Inventario.centro_logistico r = Some g.1)
                       Inventario.valor_inventario_cop inventario))
     ∧ pd.sum (snd <$> inv_resumen inventario)
       = pd.wrap64
           (suma_si (λ r, Inventario.centro_logistico r ≠ None)
              Inventario.valor_inventario_cop inventario))
  ∧ (∀ csv data,
       load_data csv = Ok data →
       inv_resumen (Data.inventario data)
       = inv_resumen (Csv.inventario_andina csv)).
Proof.
  split.
  - intros inventario. unfold inv_resumen. split; [|split; [|split]].
    + apply groupby_int64_NoDup, string_compare_order.
    + intros r c Hr Hc.
      by apply (groupby_int64_key_complete _ _ _ string_compare_order
                  inventario r).
    + intros g Hg. by apply (groupby_int64_group _ _ _ string_compare_order).
    + rewrite groupby_sum_int64, <- list_fmap_compose.
      etrans; [apply (sum_fmap_wrap snd)|]. rewrite sum_suma. f_equal.
      rewrite (groupby_sum_suma _ 0 Z.add (λ z, z)) by done.
      apply suma_key_some.
  - by intros csv data (_ & _ & ->)%load_data_Ok.
Qed.

Lemma inv_resumen_groups_witness :
  inv_resumen (Data.inventario Sample.data_sur)
  = inv_resumen (Csv.inventario_andina Sample.csv_sur)
  ∧ inv_resumen (Data.inventario Sample.data_sur) = [("Bogota", 2500)].
Proof.
  split; [|reflexivity].
  apply (proj2 inv_resumen_groups Sample.csv_sur Sample.data_sur eq_refl).
Defined.

Lemma ventas_f_monotone_witness :
  ventas_f (Data.ventas_ext Sample.data) Sample.enero_north
    `sublist_of` ventas_f (Data.ventas_ext Sample.data)
                   (Seleccion.mk (pd.date 2023 12 1) (pd.date 2024 2 29)
                      "North" "Todos").
Proof.
  apply (proj2 ventas_f_monotone (Data.ventas_ext Sample.data)
           (pd.date 2024 1 1) (pd.date 2024 1 31)
           (pd.date 2023 12 1) (pd.date 2024 2 29) "North" "Todos");
    reflexivity.
Defined.

(** ** The offered regions under the default dates *)

(** X13: for the tables [load_data] returns, when no sale has a time of
    day, and with the dates the date widget starts with (the days of
    [min_date] and [max_date]), every region and every segment the select
    boxes offer gives at least one sale when it is chosen alone. *)
Theorem opcion_no_vacia :
  ∀ csv data lo hi,
    load_data csv = Ok data →
    min_date data = Ok (pd.ts lo) → max_date data = Ok (pd.ts hi) →
    Forall sin_hora (Data.ventas_ext data) →
    (∀ r, r ∈ regiones_opciones (Data.ventas_ext data) →
          ventas_f (Data.ventas_ext data)
            (Seleccion.mk (st_date lo) (st_date hi) r "Todos") ≠ [])
    ∧ (∀ s, s ∈ segmentos_opciones (Data.ventas_ext data) →
            ventas_f (Data.ventas_ext data)
              (Seleccion.mk (st_date lo) (st_date hi) "Todos" s) ≠ []).
Proof.
  intros csv data lo hi Hload Hlo Hhi Hdias.
  assert (∀ e, e ∈ Data.ventas_ext data →
            en_rango (por_defecto lo hi) e) as Hrango.
  { intros e He.
    destruct (load_data_fecha _ _ _ Hload He) as (v & t & _ & _ & Hfe & _).
    exists t. split; [done|].
    destruct (min_max_date_cover data lo hi e t) as [Hlot Hthi]; try done.
    eapply Forall_forall in Hdias; [|done].
    split; [apply st_date_lo|apply st_date_hi]; try done; by apply Hdias. }
  assert (∀ sel e, e ∈ ventas_f (Data.ventas_ext data) sel →
            ventas_f (Data.ventas_ext data) sel ≠ []) as Hne.
  { intros sel e He Hnil. rewrite Hnil in He. by apply elem_of_nil in He. }
  assert (∃ e, e ∈ Data.ventas_ext data) as [e0 He0].
  { destruct (Data.ventas_ext data) as [|e ve] eqn:Hve; [|exists e; left].
    exfalso.
    destruct (decide (con_lineas data)) as [Hc|Hc];
      [|by rewrite (min_date_Raise _ Hc) in Hlo].
    rewrite (min_date_fechas _ Hc) in Hlo. apply Ok_of_datetime_ts in Hlo.
    rewrite Hve in Hlo.
    change (pd.series_min (VentaExt.fecha <$> [])) with (@None Timestamp) in Hlo.
    by rewrite min_fechas_None in Hlo. }
  split.
  - intros r Hr. unfold regiones_opciones in Hr.
    apply elem_of_cons in Hr as [->|Hr].
    + apply (Hne _ e0), elem_of_ventas_f. split; [done|].
      split; [by apply Hrango|]. split; by left.
    + apply elem_of_regiones in Hr as (e & He & Hreg).
      apply (Hne _ e), elem_of_ventas_f. split; [done|].
      split; [by apply Hrango|]. split; [by right|by left].
  - intros s Hs. unfold segmentos_opciones in Hs.
    apply elem_of_cons in Hs as [->|Hs].
    + apply (Hne _ e0), elem_of_ventas_f. split; [done|].
      split; [by apply Hrango|]. split; by left.
    + apply elem_of_segmentos in Hs as (e & He & Hseg).
      apply (Hne _ e), elem_of_ventas_f. split; [done|].
      split; [by apply Hrango|]. split; [by left|by right].
Qed.

Lemma opcion_no_vacia_witness :
  ventas_f (Data.ventas_ext Sample.data_dias)
    (Seleccion.mk (st_date Sample.enero_15) (st_date Sample.febrero_20)
       "South" "Todos") ≠ [].
Proof.
  assert (Forall sin_hora (Data.ventas_ext Sample.data_dias)) as Hdias.
  { repeat (apply Forall_cons_2; [by intros t [= <-]|]). apply Forall_nil_2. }
  apply (proj1 (opcion_no_vacia Sample.csv_dias Sample.data_dias
                  Sample.enero_15 Sample.febrero_20 eq_refl eq_refl eq_refl
                  Hdias)).
  apply (list_elem_of_lookup_2 _ 2%nat). reflexivity.
Defined.

(** ** The label of the units metric *)

Lemma miles_ind (P : list ascii → Prop) :
  P [] → (∀ a, P [a]) → (∀ a b, P [a; b]) → (∀ a b c, P [a; b; c]) →
  (∀ a b c d l, P (d :: l) → P (a :: b :: c :: d :: l)) →
  ∀ l, P l.
Proof.
  intros H0 H1 H2 H3 H4 l.
  assert (∀ n l, (length l ≤ n)%nat → P l) as Hn; [|by apply (Hn (length l))].
  clear l. induction n as [|n IH]; intros [|a [|b [|c [|d l]]]] Hl;
    simpl in Hl; try done; try lia.
  apply H4, IH. simpl. lia.
Qed.

Lemma filter_all {A} (P : A → Prop) `{∀ x, Decision (P x)} (l : list A) :
  Forall P l → filter P l = l.
Proof.
  induction 1 as [|x l Hx _ IH]; [done|].
  by rewrite filter_cons_True, IH.
Qed.

Lemma filter_miles l :
  filter (λ c, c ≠ ","%char) (miles l) = filter (λ c, c ≠ ","%char) l.
Proof.
  induction l as [| | | |a b c d l IH] using miles_ind; try done.
  change (miles (a :: b :: c :: d :: l))
    with ([a; b; c] ++ [","%char] ++ miles (d :: l)).
  change (a :: b :: c :: d :: l) with ([a; b; c] ++ d :: l).
  rewrite !filter_app, IH. f_equal.
Qed.

Lemma uint_no_comma d :
  Forall (λ c, c ≠ ","%char)
    (String.list_ascii_of_string (DecimalString.NilEmpty.string_of_uint d)).
Proof. induction d; simpl; constructor; done. Qed.

Lemma digits_no_comma d :
  Forall (λ c, c ≠ ","%char)
    (String.list_ascii_of_string (DecimalString.NilZero.string_of_uint d)).
Proof.
  destruct d; try apply (uint_no_comma (_ _)). repeat constructor. done.
Qed.

Lemma quitar_comas_agrupar s :
  Forall (λ c, c ≠ ","%char) (String.list_ascii_of_string s) →
  quitar_comas (agrupar s) = s.
Proof.
  intros Hs. unfold quitar_comas, agrupar.
  rewrite String.list_ascii_of_string_of_list_ascii.
  rewrite filter_reverse, filter_miles, <- filter_reverse, reverse_involutive.
  rewrite filter_all by done. apply String.string_of_list_ascii_of_string.
Qed.

Lemma quitar_comas_format n : quitar_comas (format_miles n) = py_str n.
Proof.
  destruct n as [|p|p]; simpl.
  - done.
  - apply quitar_comas_agrupar, digits_no_comma.
  - unfold py_str. simpl.
    change (quitar_comas (String "-" ?s)) with (String "-" (quitar_comas s)).
    f_equal. apply (quitar_comas_agrupar (py_str (Z.pos p))), digits_no_comma.
Qed.

Lemma py_str_read n :
  Z.of_int <$> DecimalString.NilZero.int_of_string (py_str n) = Some n.
Proof.
  unfold py_str. rewrite DecimalString.NilZero.isi.
  - simpl. f_equal. apply DecimalZ.of_to.
  - destruct n; simpl; try done. intros [= Hp].
    by apply DecimalPos.Unsigned.to_uint_nonnil in Hp.
  - destruct n; simpl; try done. intros [= Hp].
    by apply DecimalPos.Unsigned.to_uint_nonnil in Hp.
Qed.

Lemma miles_head l : head (miles l) = head l.
Proof. by destruct l as [|a [|b [|c [|d l]]]]. Qed.

Lemma miles_last l : last (miles l) = last l.
Proof.
  induction l as [| | | |a b c d l IH] using miles_ind; try done.
  change (miles (a :: b :: c :: d :: l))
    with (a :: b :: c :: ","%char :: miles (d :: l)).
  pose proof (miles_head (d :: l)) as Hd.
  destruct (miles (d :: l)) as [|m M]; [done|].
  by rewrite !last_cons_cons in *.
Qed.

Lemma miles_positions l :
  Forall (λ c, c ≠ ","%char) l →
  ∀ (i : nat) c, miles l !! i = Some c → c = ","%char ↔ (i mod 4 = 3)%nat.
Proof.
  induction l as [|x|x y|x y z|x y z d l IH] using miles_ind; intros Hl i c Hi.
  - done.
  - destruct i as [|i]; [|done]. injection Hi as <-.
    apply Forall_cons in Hl as [Hx _]. split; [done|]. by cbv.
  - apply Forall_cons in Hl as [Hx Hl]. apply Forall_cons in Hl as [Hy _].
    destruct i as [|[|i]]; [| |done]; injection Hi as <-;
      (split; [done|by cbv]).
  - apply Forall_cons in Hl as [Hx Hl]. apply Forall_cons in Hl as [Hy Hl].
    apply Forall_cons in Hl as [Hz _].
    destruct i as [|[|[|i]]]; [| | |done]; injection Hi as <-;
      (split; [done|by cbv]).
  - apply Forall_cons in Hl as [Hx Hl]. apply Forall_cons in Hl as [Hy Hl].
    apply Forall_cons in Hl as [Hz Hl].
    change (miles (x :: y :: z :: d :: l))
      with (x :: y :: z :: ","%char :: miles (d :: l)) in Hi.
    destruct i as [|[|[|[|i]]]].
    + injection Hi as <-. split; [done|by cbv].
    + injection Hi as <-. split; [done|by cbv].
    + injection Hi as <-. split; [done|by cbv].
    + injection Hi as <-. split; [by cbv|done].
    + change (miles (d :: l) !! i = Some c) in Hi.
      rewrite (IH Hl i c Hi).
      replace (S (S (S (S i)))) with (i + 1 * 4)%nat by lia.
      by rewrite Nat.Div0.mod_add.
Qed.

Lemma agrupar_body s :
  Forall (λ c, c ≠ ","%char) (String.list_ascii_of_string s) →
  head (String.list_ascii_of_string (agrupar s))
    = head (String.list_ascii_of_string s) ∧
  ∀ (i : nat) c,
    reverse (String.list_ascii_of_string (agrupar s)) !! i = Some c →
    c = ","%char ↔ (i mod 4 = 3)%nat.
Proof.
  intros Hs. unfold agrupar.
  rewrite String.list_ascii_of_string_of_list_ascii. split.
  - by rewrite head_reverse, miles_last, last_reverse.
  - rewrite reverse_involutive. apply miles_positions.
    by apply Forall_reverse.
Qed.

Lemma py_str_head p :
  head (String.list_ascii_of_string (py_str (Z.pos p))) ≠ Some ","%char.
Proof.
  pose proof (digits_no_comma (Pos.to_uint p)) as Hd.
  change (DecimalString.NilZero.string_of_uint (Pos.to_uint p))
    with (py_str (Z.pos p)) in Hd.
  destruct (String.list_ascii_of_string (py_str (Z.pos p))) as [|c l];
    [done|].
  apply Forall_cons in Hd as [Hc _]. simpl. congruence.
Qed.

(** X14: the label of the units metric (line 160, the f-string with the
    [,] format) is the decimal writing of the filtered units total with a
    comma between groups of three digits.  Taking the commas out gives
    back the decimal writing, which reads as the total; the label is an
    optional minus sign followed by a body that does not begin with a
    comma and in which, counting from the right, the characters at
    positions 3, 7, 11, ... and only these are commas. *)
Theorem unidades_label_reads_back (vf : list VentaExt.t) :
  quitar_comas (unidades_label vf) = py_str (total_unidades vf) ∧
  Z.of_int <$>
    DecimalString.NilZero.int_of_string (quitar_comas (unidades_label vf))
    = Some (total_unidades vf) ∧
  ∃ body : string,
    unidades_label vf
      = (if bool_decide (total_unidades vf < 0) then "-" else "") +:+ body ∧
    head (String.list_ascii_of_string body) ≠ Some ","%char ∧
    ∀ (i : nat) c,
      reverse (String.list_ascii_of_string body) !! i = Some c →
      c = ","%char ↔ (i mod 4 = 3)%nat.
Proof.
  unfold unidades_label. generalize (total_unidades vf) as n. intros n.
  split; [apply quitar_comas_format|].
  split; [rewrite quitar_comas_format; apply py_str_read|].
  destruct n as [|p|p].
  - exists "0"%string. split; [done|]. split; [done|].
    intros [|i] c Hi; [|done]. injection Hi as <-. split; [done|by cbv].
  - exists (agrupar (py_str (Z.pos p))). split; [done|].
    destruct (agrupar_body (py_str (Z.pos p))) as [Hh Hp];
      [apply digits_no_comma|].
    split; [|done]. rewrite Hh. apply py_str_head.
  - exists (agrupar (py_str (Z.pos p))). split; [done|].
    destruct (agrupar_body (py_str (Z.pos p))) as [Hh Hp];
      [apply digits_no_comma|].
    split; [|done]. rewrite Hh. apply py_str_head.
Qed.
